(** * PageIndex navigation engine (src/pageindex.py)

    A shallow embedding of [PageIndexNavigator.query] and of the functions it
    calls, followed by the properties of the navigation loop.

    Python objects that are shared by reference ([DocumentNode],
    [DocumentIndex]) live in a heap that is threaded through every
    computation, together with the log of the chat completions requested
    from the OpenAI client.  Exceptions are a constructor of the result. *)

From Stdlib Require Import ZArith String Ascii DecimalString Lia.
From Stdlib Require Import Floats.SpecFloat.
From stdpp Require Import base option list gmap strings.

Local Open Scope string_scope.
Local Open Scope list_scope.

(** ** Strings *)

Definition nl : string := String (ascii_of_nat 10) EmptyString.
Definition dq : string := String (ascii_of_nat 34) EmptyString.

(** [sep.join(items)] *)
Definition join (sep : string) (items : list string) : string :=
  String.concat sep items.

(** [sub in s] for two strings *)
Definition contains (sub s : string) : bool :=
  match String.index 0 sub s with Some _ => true | None => false end.

(** [s[:n]] *)
Definition prefix_chars (n : nat) (s : string) : string := String.substring 0 n s.

(** [bool(s)] *)
Definition nonempty (s : string) : bool :=
  match s with EmptyString => false | String _ _ => true end.

(** [str(n)] for a non-negative integer, [str(z)] for any integer *)
Definition str_of_nat (n : nat) : string := NilEmpty.string_of_uint (Nat.to_uint n).
Definition str_of_Z (z : Z) : string := NilEmpty.string_of_int (Z.to_int z).

(** ** Floats

    Python floats are IEEE binary64 values. *)

Definition float_of_Z (z : Z) : spec_float := binary_normalize 53 1024 z 0 false.
Definition float_0_0 : spec_float := S754_zero false.
Definition float_0_5 : spec_float := S754_finite false 4503599627370496 (-53).
Definition float_1_0 : spec_float := S754_finite false 4503599627370496 (-52).
Definition float_0_1 : spec_float := S754_finite false 7205759403792794 (-56).

(** ** Exceptions and results *)

Inductive exn : Set :=
| JSONDecodeError
| ValueError
| TypeError
| AttributeError
| OverflowError
| ValidationError
| UnboundLocalError
| ClientError (code : nat).

Inductive Result (A : Type) : Type :=
| Ok (a : A)
| Raise (e : exn).
Arguments Ok {A} a.
Arguments Raise {A} e.

(** Sequencing of code that may raise but has no other effect. *)
Definition rbind {A B} (r : Result A) (k : A -> Result B) : Result B :=
  match r with
  | Ok a => k a
  | Raise e => Raise e
  end.

Notation "'let?' x ':=' r 'in' k" := (rbind r (fun x => k))
  (at level 10, x pattern, r at level 100, k at level 200).

(** ** Data model *)

Inductive NavigationAction : Set := DESCEND | EXTRACT | BACKTRACK | COMPLETE.

(** [action.value] *)
Definition NavigationAction_value (a : NavigationAction) : string :=
  match a with
  | DESCEND => "descend"
  | EXTRACT => "extract"
  | BACKTRACK => "backtrack"
  | COMPLETE => "complete"
  end.

Module NavigationDecision.
Record t : Set := mk {
  action : NavigationAction;
  target_section : option string;
  reasoning : string;
  extracted_info : option string;
  confidence : spec_float
}.
End NavigationDecision.

Module QueryResult.
Record t : Set := mk {
  answer : string;
  sources : list string;
  confidence : spec_float;
  navigation_path : list string;
  reasoning_trace : list string
}.
End QueryResult.

(** References to heap-allocated nodes and indexes. *)
Definition node_ref := nat.
Definition index_ref := nat.

Module DocumentNode.
(** [children] is a dict: keys are distinct and kept in insertion order. *)
Record t : Set := mk {
  id : string;
  title : string;
  content : string;
  level : Z;
  parent : option node_ref;
  children : list (string * node_ref)
}.

Definition get_content_preview (self : t) (max_chars : nat) : string :=
  if (String.length (content self) <=? max_chars)%nat then content self
  else prefix_chars max_chars (content self) +:+ "...".
End DocumentNode.

(** Values of [DocumentIndex.metadata] in the documents modelled here: a
    string, [None] (a null or absent entry) or an integer.  [metadata] is an
    untyped [dict] and the adapters copy what the decoded JSON holds, so a
    document can also carry a float, a boolean, a list or an object there;
    such documents are outside this model: what is proved of a metadata
    value is proved of these three kinds. *)
Inductive meta_value : Set :=
| MStr (s : string)
| MNone
| MInt (z : Z).

(** [str(v)], as an f-string renders it *)
Definition meta_str (v : meta_value) : string :=
  match v with
  | MStr s => s
  | MNone => "None"
  | MInt z => str_of_Z z
  end.

Module DocumentIndex.
Record t : Type := mk {
  document_id : string;
  metadata : gmap string meta_value;
  root : node_ref;
  nodes_by_id : gmap string node_ref
}.
End DocumentIndex.

(** [d.get(key)] and [key in d] on a dict kept as an association list *)
Fixpoint dict_get {V : Type} (key : string) (d : list (string * V)) : option V :=
  match d with
  | [] => None
  | (k, v) :: rest => if String.eqb k key then Some v else dict_get key rest
  end.

Definition dict_has {V : Type} (key : string) (d : list (string * V)) : bool :=
  match dict_get key d with Some _ => true | None => false end.

(** What [json.loads] builds. *)
#[warnings="-register-all"]
Inductive pyjson : Type :=
| JNone
| JBool (b : bool)
| JInt (z : Z)
| JFloat (f : spec_float)
| JStr (s : string)
| JList (items : list pyjson)
| JDict (items : list (string * pyjson)).

(** ** The OpenAI client *)

Record request : Set := {
  req_model : string;
  messages : list (string * string);      (* role, content *)
  response_format : option string;        (* the "type" entry *)
  temperature : spec_float
}.

(** The outcome of [client.chat.completions.create(...)] followed by
    [.choices[0].message.content]: an exception, or the content, which the
    API may leave null. *)
Inductive completion : Set :=
| Fails (e : exn)
| Message (content : option string).

Definition interaction : Set := request * completion.

(** The client answers a request knowing every earlier exchange. *)
Definition OpenAI : Type := list interaction -> request -> completion.

Record PageIndexNavigator : Type := {
  client : OpenAI;
  model : string
}.

(** ** Heap, world and the computation monad *)

Record Heap : Type := {
  nodes : node_ref -> DocumentNode.t;
  indexes : index_ref -> DocumentIndex.t
}.

Record World : Type := {
  heap : Heap;
  chat_log : list interaction
}.

Definition Py (A : Type) : Type := World -> Result A * World.

(** A computation that leaves the world alone. *)
Definition lift {A} (r : Result A) : Py A := fun w => (r, w).
Definition ret {A} (a : A) : Py A := lift (Ok a).
Definition raise {A} (e : exn) : Py A := lift (Raise e).
Definition bind {A B} (m : Py A) (k : A -> Py B) : Py B :=
  fun w =>
    match m w with
    | (Ok a, w') => k a w'
    | (Raise e, w') => (Raise e, w')
    end.

Notation "'let*' x ':=' m 'in' k" := (bind m (fun x => k))
  (at level 10, x pattern, m at level 100, k at level 200).

Definition read_node (r : node_ref) : Py DocumentNode.t :=
  fun w => (Ok (nodes (heap w) r), w).
Definition read_index (r : index_ref) : Py DocumentIndex.t :=
  fun w => (Ok (indexes (heap w) r), w).
Definition read_heap : Py Heap := fun w => (Ok (heap w), w).

(** [self.client.chat.completions.create(...)] then
    [response.choices[0].message.content] *)
Definition log_call (w : World) (req : request) (c : completion) : World :=
  {| heap := heap w; chat_log := chat_log w ++ [(req, c)] |}.

Definition chat_create (self : PageIndexNavigator) (req : request) : Py (option string) :=
  fun w =>
    let c := client self (chat_log w) req in
    match c with
    | Fails e => (Raise e, log_call w req c)
    | Message content => (Ok content, log_call w req c)
    end.

(** ** Prompts *)

Definition NAVIGATOR_SYSTEM_PROMPT : string :=
  join nl [
    "You are a document navigation expert analyzing business documents, supply chain SOPs, retail operations manuals, regulatory filings, and assortment planning guides.";
    "Your task is to navigate a hierarchical document structure to find precise information.";
    "";
    "NAVIGATION RULES:";
    "1. Start from the table of contents and identify the most relevant section";
    "2. DESCEND into sections that likely contain the answer";
    "3. EXTRACT when you find the exact information needed";
    "4. BACKTRACK if you went to the wrong section";
    "5. COMPLETE when you have gathered enough information to answer";
    "";
    "IMPORTANT:";
    "- Be precise - extract exact numbers, specifications, procedures, policies, and requirements";
    "- Follow document hierarchy logically (Section -> Subsection -> Paragraph)";
    "- If information spans multiple sections, navigate to each";
    "- For business-critical information, verify you have the complete requirement";
    "- For cross-references (e.g., " +:+ dq +:+ "see Section 2.3" +:+ dq +:+ "), navigate to extract that section too";
    "- Confidence should reflect how well the extracted info answers the query"
  ].

(** [NAVIGATION_PROMPT.format(...)] *)
Definition NAVIGATION_PROMPT
    (current_location query available_sections current_content
     extracted_info nav_path : string) : string :=
  join nl [
    "Current Location: " +:+ current_location;
    "Query: " +:+ query;
    "";
    "Available Sections:";
    available_sections;
    "";
    "Current Section Content:";
    current_content;
    "";
    "Previously Extracted Information:";
    extracted_info;
    "";
    "Navigation Path So Far: " +:+ nav_path;
    "";
    "Decide your next action. Return JSON with:";
    "- action: " +:+ dq +:+ "descend" +:+ dq +:+ " (go into a subsection), "
      +:+ dq +:+ "extract" +:+ dq +:+ " (capture info here), "
      +:+ dq +:+ "backtrack" +:+ dq +:+ " (go up), or "
      +:+ dq +:+ "complete" +:+ dq +:+ " (done)";
    "- target_section: section ID to descend into (if action is descend)";
    "- reasoning: why you're taking this action";
    "- extracted_info: information extracted (if action is extract)";
    "- confidence: 0.0-1.0 how confident you are this helps answer the query"
  ].

Definition BUSINESS_ADDENDUM : string :=
  nl +:+ nl +:+ join nl [
    "This is a BUSINESS/OPERATIONS document. Pay special attention to:";
    "- Specific procedure steps and their order";
    "- Policy requirements and approval thresholds";
    "- Markdown tiers and timing rules";
    "- Numerical limits, percentages, and specifications";
    "- Cross-references to other sections or procedures"
  ].

Definition NO_INFORMATION_ANSWER : string :=
  "Unable to find relevant information in the document.".

(** [sub in doc_type]: the substring test on a string; [None] and an integer
    are not iterable, and the test raises [TypeError] on them *)
Definition meta_contains (sub : string) (doc_type : meta_value) : Result bool :=
  match doc_type with
  | MStr s => Ok (contains sub s)
  | MNone | MInt _ => Raise TypeError
  end.

(** [a or b], where [b] is evaluated only when [a] is false *)
Definition py_or (a b : Result bool) : Result bool :=
  let? x := a in if x then Ok true else b.

(** ["SOP" in doc_type or "Procedure" in doc_type or "Planning" in doc_type
    or "Supply" in doc_type] *)
Definition is_business_document (doc_type : meta_value) : Result bool :=
  py_or (meta_contains "SOP" doc_type)
    (py_or (meta_contains "Procedure" doc_type)
       (py_or (meta_contains "Planning" doc_type)
          (meta_contains "Supply" doc_type))).

(** [index.metadata.get('document_type', 'Document')] *)
Definition document_type (idx : DocumentIndex.t) : meta_value :=
  default (MStr "Document") (DocumentIndex.metadata idx !! "document_type").

(** ** The navigator *)

(** Local variables of [query] that the loop updates.  [decision] is unbound
    until the first iteration has assigned it. *)
Record Locals : Type := {
  current_node : node_ref;
  navigation_path : list string;
  reasoning_trace : list string;
  extracted_pieces : list string;
  sources : list string;
  decision : option NavigationDecision.t
}.

Inductive control : Set := Continue | Break.

Section Navigator.

(** Library functions the module calls: [json.loads], which fails with
    [JSONDecodeError] on text that is not JSON, and [float] applied to a
    string, which fails with [ValueError] on text that is not a number. *)
Variable json_loads : string -> option pyjson.
Variable float_of_str : string -> option spec_float.

(** [float(v)] *)
Definition py_float (v : pyjson) : Result spec_float :=
  match v with
  | JNone => Raise TypeError
  | JBool b => Ok (if b then float_1_0 else float_0_0)
  | JInt z =>
      match float_of_Z z with
      | S754_infinity _ => Raise OverflowError
      | f => Ok f
      end
  | JFloat f => Ok f
  | JStr s =>
      match float_of_str s with
      | Some f => Ok f
      | None => Raise ValueError
      end
  | JList _ | JDict _ => Raise TypeError
  end.

(** [NavigationAction(v)] *)
Definition NavigationAction_of (v : pyjson) : Result NavigationAction :=
  match v with
  | JStr s =>
      if String.eqb s "descend" then Ok DESCEND
      else if String.eqb s "extract" then Ok EXTRACT
      else if String.eqb s "backtrack" then Ok BACKTRACK
      else if String.eqb s "complete" then Ok COMPLETE
      else Raise ValueError
  | _ => Raise ValueError
  end.

(** Validation of a field declared [str] and of one declared
    [Optional[str]] by the pydantic model (no coercion from other types). *)
Definition validate_str (v : pyjson) : Result string :=
  match v with
  | JStr s => Ok s
  | _ => Raise ValidationError
  end.

Definition validate_optional_str (v : option pyjson) : Result (option string) :=
  match v with
  | None | Some JNone => Ok None
  | Some (JStr s) => Ok (Some s)
  | Some _ => Raise ValidationError
  end.

(** [result.get(key)] and [result.get(key, default)]: only a dict has
    [get]. *)
Definition result_get (result : pyjson) (key : string) : Result (option pyjson) :=
  match result with
  | JDict items => Ok (dict_get key items)
  | _ => Raise AttributeError
  end.

Definition result_get_default (result : pyjson) (key : string) (dflt : pyjson)
    : Result pyjson :=
  let? v := result_get result key in Ok (default dflt v).

(** Lines 368-375: the reply text turned into a [NavigationDecision]. *)
Definition parse_decision (content : option string) : Result NavigationDecision.t :=
  let? text :=
    match content with Some s => Ok s | None => Raise TypeError end in
  let? result :=
    match json_loads text with
    | Some v => Ok v
    | None => Raise JSONDecodeError
    end in
  let? action_value := result_get_default result "action" (JStr "complete") in
  let? action := NavigationAction_of action_value in
  let? target_section := result_get result "target_section" in
  let? reasoning := result_get_default result "reasoning" (JStr "") in
  let? extracted_info := result_get result "extracted_info" in
  let? confidence_value := result_get_default result "confidence" (JFloat float_0_5) in
  let? confidence := py_float confidence_value in
  let? target_section := validate_optional_str target_section in
  let? reasoning := validate_str reasoning in
  let? extracted_info := validate_optional_str extracted_info in
  Ok (NavigationDecision.mk action target_section reasoning extracted_info confidence).

(** The lines of [_format_available_sections], one or two per child. *)
Definition section_lines (h : Heap) (entry : string * node_ref) : list string :=
  let '(child_id, child_ref) := entry in
  let child := nodes h child_ref in
  let preview := DocumentNode.get_content_preview child 200 in
  let has_children :=
    match DocumentNode.children child with [] => "[-]" | _ :: _ => "[+]" end in
  (has_children +:+ " [" +:+ child_id +:+ "] " +:+ DocumentNode.title child)
    :: (if nonempty preview
        then ["   Preview: " +:+ prefix_chars 150 preview +:+ "..."]
        else []).

Definition _format_available_sections (h : Heap) (node : node_ref) : string :=
  match DocumentNode.children (nodes h node) with
  | [] => "(No subsections - this is a leaf section)"
  | entries => join nl (concat (map (section_lines h) entries))
  end.

(** [a or b] on strings *)
Definition str_or (a b : string) : string := if nonempty a then a else b.

Definition navigation_request (self : PageIndexNavigator)
    (system_prompt prompt : string) : request :=
  {| req_model := model self;
     messages := [("system", system_prompt); ("user", prompt)];
     response_format := Some "json_object";
     temperature := float_0_1 |}.

Definition _get_navigation_decision (self : PageIndexNavigator)
    (query : string) (current_node : node_ref) (available_sections : string)
    (extracted_so_far nav_path : list string) (doc_type : meta_value)
    : Py NavigationDecision.t :=
  let* node := read_node current_node in
  let prompt :=
    NAVIGATION_PROMPT
      (DocumentNode.id node +:+ ": " +:+ DocumentNode.title node)
      query
      available_sections
      (str_or (DocumentNode.get_content_preview node 800) "(No direct content)")
      (match extracted_so_far with
       | [] => "(None yet)"
       | _ :: _ => join nl extracted_so_far
       end)
      (join " -> " nav_path) in
  let* business := lift (is_business_document doc_type) in
  let system_prompt :=
    if business then NAVIGATOR_SYSTEM_PROMPT +:+ BUSINESS_ADDENDUM
    else NAVIGATOR_SYSTEM_PROMPT in
  let* content := chat_create self (navigation_request self system_prompt prompt) in
  lift (parse_decision content).

Definition synthesis_request (self : PageIndexNavigator)
    (system_content synthesis_prompt : string) : request :=
  {| req_model := model self;
     messages := [("system", system_content); ("user", synthesis_prompt)];
     response_format := None;
     temperature := float_0_1 |}.

Definition synthesis_prompt (query : string) (extracted_pieces sources : list string)
    (doc_type : meta_value) : string :=
  join nl [
    "Based on the following extracted information from a " +:+ meta_str doc_type +:+ ", ";
    "provide a precise, well-structured answer to the query.";
    "";
    "Query: " +:+ query;
    "";
    "Extracted Information:";
    join nl (map (fun piece => "- " +:+ piece) extracted_pieces);
    "";
    "Sources: " +:+ join ", " sources;
    "";
    "Provide a clear, factual answer using only the extracted information. ";
    "Include specific numbers, percentages, procedures, and requirements where available.";
    "For business-critical information, ensure completeness and accuracy."
  ].

(** The answer is the reply's content, which is [None] when the API
    returns no content. *)
Definition _synthesize_answer (self : PageIndexNavigator) (query : string)
    (extracted_pieces sources : list string) (doc_type : meta_value)
    : Py (option string) :=
  match extracted_pieces with
  | [] => ret (Some NO_INFORMATION_ANSWER)
  | _ :: _ =>
      let prompt := synthesis_prompt query extracted_pieces sources doc_type in
      let system_content :=
        "You are a business documentation specialist providing precise answers." in
      let* business := lift (is_business_document doc_type) in
      let* system_content :=
        if business
        then ret (system_content +:+ " For business procedures, ensure all steps, thresholds, and policy requirements are clearly stated. Do not omit critical details.")
        else
          let* filing :=
            lift (py_or (meta_contains "SEC" doc_type)
                    (meta_contains "Filing" doc_type)) in
          ret (if filing
               then "You are a financial analyst providing precise answers based on SEC filings."
               else system_content) in
      chat_create self (synthesis_request self system_content prompt)
  end.

(** [str(v)] of an optional string inside an f-string *)
Definition opt_str (v : option string) : string :=
  match v with Some s => s | None => "None" end.

(** Lines 289-309: the trace line of the step, then the action applied to
    the local variables.  [step] is the loop variable. *)
Definition apply_decision (h : Heap) (step : nat) (d : NavigationDecision.t)
    (L : Locals) : control * Locals :=
  let trace :=
    reasoning_trace L ++
    ["Step " +:+ str_of_nat (step + 1) +:+ ": "
       +:+ NavigationAction_value (NavigationDecision.action d) +:+ " - "
       +:+ NavigationDecision.reasoning d] in
  let node := nodes h (current_node L) in
  match NavigationDecision.action d with
  | DESCEND =>
      match NavigationDecision.target_section d with
      | Some target =>
          match (if nonempty target
                 then dict_get target (DocumentNode.children node)
                 else None) with
          | Some child =>
              (Continue,
               {| current_node := child;
                  navigation_path := navigation_path L ++ [target];
                  reasoning_trace := trace;
                  extracted_pieces := extracted_pieces L;
                  sources := sources L;
                  decision := Some d |})
          | None =>
              (Continue,
               {| current_node := current_node L;
                  navigation_path := navigation_path L;
                  reasoning_trace :=
                    trace ++ ["  -> Invalid section '" +:+ target
                                +:+ "', staying at current location"];
                  extracted_pieces := extracted_pieces L;
                  sources := sources L;
                  decision := Some d |})
          end
      | None =>
          (Continue,
           {| current_node := current_node L;
              navigation_path := navigation_path L;
              reasoning_trace :=
                trace ++ ["  -> Invalid section '" +:+ opt_str None
                            +:+ "', staying at current location"];
              extracted_pieces := extracted_pieces L;
              sources := sources L;
              decision := Some d |})
      end
  | EXTRACT =>
      match NavigationDecision.extracted_info d with
      | Some (String c rest) =>
          (Continue,
           {| current_node := current_node L;
              navigation_path := navigation_path L;
              reasoning_trace := trace;
              extracted_pieces := extracted_pieces L ++ [String c rest];
              sources :=
                sources L ++
                [DocumentNode.id node +:+ ": " +:+ DocumentNode.title node];
              decision := Some d |})
      | Some EmptyString | None =>
          (Continue,
           {| current_node := current_node L;
              navigation_path := navigation_path L;
              reasoning_trace := trace;
              extracted_pieces := extracted_pieces L;
              sources := sources L;
              decision := Some d |})
      end
  | BACKTRACK =>
      match DocumentNode.parent node with
      | Some up =>
          (Continue,
           {| current_node := up;
              navigation_path :=
                navigation_path L ++ ["[up]" +:+ DocumentNode.id (nodes h up)];
              reasoning_trace := trace;
              extracted_pieces := extracted_pieces L;
              sources := sources L;
              decision := Some d |})
      | None =>
          (Continue,
           {| current_node := current_node L;
              navigation_path := navigation_path L;
              reasoning_trace := trace;
              extracted_pieces := extracted_pieces L;
              sources := sources L;
              decision := Some d |})
      end
  | COMPLETE =>
      (Break,
       {| current_node := current_node L;
          navigation_path := navigation_path L;
          reasoning_trace := trace;
          extracted_pieces := extracted_pieces L;
          sources := sources L;
          decision := Some d |})
  end.

(** Lines 276-309: one iteration of the loop of [query]. *)
Definition loop_body (self : PageIndexNavigator) (index : index_ref)
    (query : string) (step : nat) (L : Locals) : Py (control * Locals) :=
  let* h := read_heap in
  let available_sections := _format_available_sections h (current_node L) in
  let* idx := read_index index in
  let* d :=
    _get_navigation_decision self query (current_node L) available_sections
      (extracted_pieces L) (navigation_path L) (document_type idx) in
  let* h := read_heap in
  ret (apply_decision h step d L).

(** [for step in range(...)], with [remaining] iterations left. *)
Fixpoint for_range (self : PageIndexNavigator) (index : index_ref)
    (query : string) (remaining step : nat) (L : Locals) : Py Locals :=
  match remaining with
  | O => ret L
  | S remaining' =>
      let* next := loop_body self index query step L in
      match next with
      | (Break, L') => ret L'
      | (Continue, L') => for_range self index query remaining' (S step) L'
      end
  end.

(** Lines 269-273. *)
Definition initial_locals (idx : DocumentIndex.t) : Locals :=
  {| current_node := DocumentIndex.root idx;
     navigation_path := ["root"];
     reasoning_trace := [];
     extracted_pieces := [];
     sources := [];
     decision := None |}.

(** Lines 269-309: the local variables as the loop leaves them. *)
Definition navigation_loop (self : PageIndexNavigator) (index : index_ref)
    (query : string) (max_steps : Z) : Py Locals :=
  let* idx := read_index index in
  for_range self index query (Z.to_nat max_steps) 0 (initial_locals idx).

(** [decision.confidence if extracted_pieces else 0.0] *)
Definition result_confidence (L : Locals) : Result spec_float :=
  match extracted_pieces L with
  | [] => Ok float_0_0
  | _ :: _ =>
      match decision L with
      | Some d => Ok (NavigationDecision.confidence d)
      | None => Raise UnboundLocalError
      end
  end.

(** Lines 311-325.  [QueryResult] declares [answer] a [str]. *)
Definition build_result (self : PageIndexNavigator) (index : index_ref)
    (query : string) (L : Locals) : Py QueryResult.t :=
  let* idx := read_index index in
  let* final_answer :=
    _synthesize_answer self query (extracted_pieces L) (sources L)
      (document_type idx) in
  let* confidence := lift (result_confidence L) in
  match final_answer with
  | Some answer =>
      ret (QueryResult.mk answer (sources L) confidence
             (navigation_path L) (reasoning_trace L))
  | None => raise ValidationError
  end.

Definition query (self : PageIndexNavigator) (index : index_ref)
    (query : string) (max_steps : Z) : Py QueryResult.t :=
  let* L := navigation_loop self index query max_steps in
  build_result self index query L.

(** *** Observations on the chat log *)

(** A request made by [_get_navigation_decision] asks for a JSON object;
    the one made by [_synthesize_answer] does not. *)
Definition is_navigate (i : interaction) : bool :=
  match response_format (fst i) with Some _ => true | None => false end.

Definition navigate_calls (log : list interaction) : nat :=
  length (filter (fun i => is_navigate i = true) log).

Definition synthesize_calls (log : list interaction) : nat :=
  length (filter (fun i => is_navigate i = false) log).
End Navigator.

(** ** Runs of the loop as a relation

    [loop_run json_loads float_of_str self h index remaining step L log new res]:
    on heap [h], started with [remaining] iterations left at loop variable
    [step], local variables [L] and chat log [log], the loop appends the
    exchanges [new] to the log and ends with [res]. *)

Section Runs.
Variable json_loads : string -> option pyjson.
Variable float_of_str : string -> option spec_float.
Variable self : PageIndexNavigator.
Variable h : Heap.
Variable index : index_ref.

Inductive loop_run :
    nat -> nat -> Locals -> list interaction -> list interaction ->
    Result Locals -> Prop :=
| run_exhausted step L log :
    loop_run 0 step L log [] (Ok L)
| run_no_call remaining step L log e :
    is_business_document (document_type (indexes h index)) = Raise e ->
    loop_run (S remaining) step L log [] (Raise e)
| run_fails remaining step L log req e :
    response_format req = Some "json_object" ->
    client self log req = Fails e ->
    loop_run (S remaining) step L log [(req, Fails e)] (Raise e)
| run_unparsed remaining step L log req content e :
    response_format req = Some "json_object" ->
    client self log req = Message content ->
    parse_decision json_loads float_of_str content = Raise e ->
    loop_run (S remaining) step L log [(req, Message content)] (Raise e)
| run_break remaining step L log req content d L' :
    response_format req = Some "json_object" ->
    client self log req = Message content ->
    parse_decision json_loads float_of_str content = Ok d ->
    apply_decision h step d L = (Break, L') ->
    loop_run (S remaining) step L log [(req, Message content)] (Ok L')
| run_continue remaining step L log req content d L' new res :
    response_format req = Some "json_object" ->
    client self log req = Message content ->
    parse_decision json_loads float_of_str content = Ok d ->
    apply_decision h step d L = (Continue, L') ->
    loop_run remaining (S step) L' (log ++ [(req, Message content)]) new res ->
    loop_run (S remaining) step L log ((req, Message content) :: new) res.

(** The decision carried by the most recent navigate exchange of a log. *)
Definition last_decision (log : list interaction)
    : option (Result NavigationDecision.t) :=
  match last (filter (fun i => is_navigate i = true) log) with
  | Some (_, Message content) => Some (parse_decision json_loads float_of_str content)
  | Some (_, Fails e) => Some (Raise e)
  | None => None
  end.

(** The decisions carried by the navigate exchanges of a log, in order: one
    for each reply that parses. *)
Definition decisions_of (log : list interaction) : list NavigationDecision.t :=
  omap (fun i : interaction =>
          if is_navigate i
          then match snd i with
               | Message content =>
                   match parse_decision json_loads float_of_str content with
                   | Ok d => Some d
                   | Raise _ => None
                   end
               | Fails _ => None
               end
          else None)
    log.
End Runs.

(** ** What a sequence of decisions collects, in the words of the specification

    These definitions do not come from [query]; they say what the
    specification expects of it, and the loop is compared with them. *)

(** The node the cursor is on after a decision: the named child for a
    DESCEND whose target is a child, the parent for a BACKTRACK below the
    root, the same node otherwise. *)
Definition cursor_after (h : Heap) (cursor : node_ref) (d : NavigationDecision.t)
    : node_ref :=
  match NavigationDecision.action d with
  | DESCEND =>
      match NavigationDecision.target_section d with
      | Some target =>
          if nonempty target
          then default cursor (dict_get target (DocumentNode.children (nodes h cursor)))
          else cursor
      | None => cursor
      end
  | BACKTRACK => default cursor (DocumentNode.parent (nodes h cursor))
  | EXTRACT | COMPLETE => cursor
  end.

(** The pair a decision adds with the cursor on [cursor]: the extracted text
    and the label of the node, for an EXTRACT with non-empty text; nothing
    for any other decision. *)
Definition extraction (h : Heap) (cursor : node_ref) (d : NavigationDecision.t)
    : list (string * string) :=
  match NavigationDecision.action d, NavigationDecision.extracted_info d with
  | EXTRACT, Some text =>
      if nonempty text
      then [(text,
             DocumentNode.id (nodes h cursor) +:+ ": "
               +:+ DocumentNode.title (nodes h cursor))]
      else []
  | _, _ => []
  end.

(** The pairs a sequence of decisions adds, in order, starting with the
    cursor on [cursor]. *)
Fixpoint evidence (h : Heap) (cursor : node_ref) (ds : list NavigationDecision.t)
    : list (string * string) :=
  match ds with
  | [] => []
  | d :: rest => extraction h cursor d ++ evidence h (cursor_after h cursor d) rest
  end.

(** ** A scripted oracle and a small document, used in the examples *)

Module Example.
(** The client replies with the entries of a script, in order. *)
Definition scripted (replies : list completion) : OpenAI :=
  fun log _ => nth (length log) replies (Fails (ClientError 0)).

(** A decoder that knows the replies of a table and rejects other text. *)
Definition table_loads (table : list (string * pyjson)) (text : string)
    : option pyjson :=
  dict_get text table.

Definition no_float (text : string) : option spec_float := None.

Definition root_node : DocumentNode.t :=
  DocumentNode.mk "root" "Store Manual" "" 0 None [("Policy", 1)].
Definition policy_node : DocumentNode.t :=
  DocumentNode.mk "Policy" "Policy" "" 1 (Some 0) [("Markdown Rules", 2)].
Definition rules_node : DocumentNode.t :=
  DocumentNode.mk "Markdown Rules" "Markdown Rules"
    "Dairy markdown: 20% after 3 days, 50% after 7 days" 2 (Some 1) [].

Definition manual : DocumentIndex.t :=
  DocumentIndex.mk "SOP-1"
    {[ "document_type" := MStr "Standard Operating Procedure" ]}
    0
    (list_to_map [("root", 0); ("Policy", 1); ("Markdown Rules", 2)]).

Definition store : Heap :=
  {| nodes := fun r =>
       match r with
       | 0 => root_node
       | 1 => policy_node
       | _ => rules_node
       end;
     indexes := fun _ => manual |}.

Definition start : World := {| heap := store; chat_log := [] |}.

Definition replies : list (string * pyjson) :=
  [("to-policy",
    JDict [("action", JStr "descend"); ("target_section", JStr "Policy");
           ("reasoning", JStr "policies live here")]);
   ("to-rules",
    JDict [("action", JStr "descend"); ("target_section", JStr "Markdown Rules");
           ("reasoning", JStr "markdown rules"); ("confidence", JInt 1)]);
   ("to-nowhere",
    JDict [("action", JStr "descend"); ("target_section", JStr "Pricing");
           ("reasoning", JStr "guess")]);
   ("take",
    JDict [("action", JStr "extract");
           ("extracted_info", JStr "Dairy markdown: 20% after 3 days");
           ("reasoning", JStr "found"); ("confidence", JFloat float_1_0)]);
   ("up",
    JDict [("action", JStr "backtrack"); ("reasoning", JStr "wrong place")]);
   ("done", JDict [("reasoning", JStr "enough")]);
   ("fly", JDict [("action", JStr "fly"); ("reasoning", JStr "?")])].

Definition navigator (script : list completion) : PageIndexNavigator :=
  {| client := scripted script; model := "gpt-4o" |}.

Definition says (text : string) : completion := Message (Some text).

Definition run (script : list completion) (max_steps : Z)
    : Result QueryResult.t * World :=
  query (table_loads replies) no_float (navigator script) 0
    "What is the markdown policy for dairy?" max_steps start.

Definition locals0 : Locals :=
  {| current_node := 1;
     navigation_path := ["root"; "Policy"];
     reasoning_trace := [];
     extracted_pieces := [];
     sources := [];
     decision := None |}.
End Example.

(** ** The table of contents of a node *)

(** ["  " * current_depth]: nothing for a depth that is not positive *)
Definition indent (current_depth : Z) : string :=
  String.concat "" (replicate (Z.to_nat current_depth) "  ").

(** The line [_build_toc] appends for a node. *)
Definition toc_line (h : Heap) (self : node_ref) (current_depth : Z) : string :=
  indent current_depth +:+ "- " +:+ DocumentNode.id (nodes h self) +:+ ": "
    +:+ DocumentNode.title (nodes h self).

(** [DocumentNode._build_toc]: [lines] is the list the callers share, which
    every call extends.  [fuel] bounds the nesting of the recursive calls;
    the result is [None] when it does not suffice. *)
Fixpoint _build_toc (fuel : nat) (h : Heap) (self : node_ref) (lines : list string)
    (current_depth max_depth : Z) : option (list string) :=
  match fuel with
  | O => None
  | S fuel' =>
      let lines := lines ++ [toc_line h self current_depth] in
      if (current_depth <? max_depth)%Z
      then
        foldl
          (fun acc child =>
             match acc with
             | Some lines =>
                 _build_toc fuel' h (snd child) lines (current_depth + 1) max_depth
             | None => None
             end)
          (Some lines) (DocumentNode.children (nodes h self))
      else Some lines
  end.

(** [DocumentNode.get_table_of_contents], with the fuel the depth bound
    calls for. *)
Definition get_table_of_contents (h : Heap) (self : node_ref) (max_depth : Z)
    : option string :=
  match _build_toc (S (Z.to_nat max_depth)) h self [] 0 max_depth with
  | Some lines => Some (join nl lines)
  | None => None
  end.

(** The outline as a function of the number of levels still to open: the
    line of the node, then the outlines of its children in insertion order,
    one level deeper. *)
Fixpoint toc_lines (levels : nat) (h : Heap) (self : node_ref) (current_depth : Z)
    : list string :=
  toc_line h self current_depth ::
  match levels with
  | O => []
  | S levels' =>
      concat (map (fun child => toc_lines levels' h (snd child) (current_depth + 1))
                (DocumentNode.children (nodes h self)))
  end.

(** ** Further examples *)

Module Sample.
(** A node that lists itself as its only child. *)
Definition loop_node : DocumentNode.t :=
  DocumentNode.mk "A" "Loop" "" 0 None [("A", 0)].

Definition cyclic : Heap :=
  {| nodes := fun _ => loop_node; indexes := fun _ => Example.manual |}.

Definition long_node : DocumentNode.t :=
  DocumentNode.mk "1.1" "Scope" "This procedure applies to all stores." 1 (Some 0) [].

(** A run with one descent, one extraction and COMPLETE, then the reply to
    the synthesis request. *)
Definition script : list completion :=
  [Example.says "to-policy"; Example.says "take"; Example.says "done";
   Example.says "20% after 3 days."].

Definition question : string := "What is the markdown policy for dairy?".

Definition loop : Result Locals * World :=
  navigation_loop (Example.table_loads Example.replies) Example.no_float
    (Example.navigator script) 0 question 15 Example.start.

Definition locals_after : Locals :=
  {| current_node := 1;
     navigation_path := ["root"; "Policy"];
     reasoning_trace :=
       ["Step 1: descend - policies live here"; "Step 2: extract - found";
        "Step 3: complete - enough"];
     extracted_pieces := ["Dairy markdown: 20% after 3 days"];
     sources := ["Policy: Policy"];
     decision := Some (NavigationDecision.mk COMPLETE None "enough" None float_0_5) |}.

(** An index whose document type is [None]. *)
Definition untyped : Heap :=
  {| nodes := nodes Example.store;
     indexes := fun _ =>
       DocumentIndex.mk "SOP-2" {[ "document_type" := MNone ]} 0 ∅ |}.
End Sample.

Module Replies.
(** Replies with a confidence outside [0, 1], without any entry, and that
    are no object. *)
Definition seven_and_a_half : spec_float := S754_finite false 8444249301319680 (-50).

Definition table : list (string * pyjson) :=
  [("sure", JDict [("reasoning", JStr "certain");
                   ("confidence", JFloat seven_and_a_half)]);
   ("empty", JDict [("note", JStr "nothing to add")]);
   ("list", JList [JStr "descend"])].
End Replies.

(** ** Nodes the cursor can reach *)

(** The nodes joined to [root] by [children] and [parent] links. *)
Inductive reachable (h : Heap) (root : node_ref) : node_ref -> Prop :=
| reach_root : reachable h root root
| reach_child node key child :
    reachable h root node ->
    dict_get key (DocumentNode.children (nodes h node)) = Some child ->
    reachable h root child
| reach_parent node up :
    reachable h root node ->
    DocumentNode.parent (nodes h node) = Some up ->
    reachable h root up.

(** What [query] makes of the reply to its synthesis request, lines 319-325
    and 412. *)
Definition result_of_synthesis (L : Locals) (c : completion) : Result QueryResult.t :=
  match c with
  | Fails e => Raise e
  | Message content =>
      let? confidence := result_confidence L in
      match content with
      | Some answer =>
          Ok (QueryResult.mk answer (sources L) confidence
                (navigation_path L) (reasoning_trace L))
      | None => Raise ValidationError
      end
  end.

(** ** Building an index

    The adapters read decoded JSON.  It is taken here with the types the
    fields of [DocumentNode] and [DocumentIndex] declare: ids, titles and
    contents are strings; an entry that may be absent is an [option]. *)

Inductive key_error : Set := KeyError (key : string).

(** One section of the input: the entries [title] and [content] when
    present, and the items of [get('subsections', {})]. *)
#[warnings="-register-all"]
Inductive section_data : Type :=
| SectionData (title content : option string)
    (subsections : list (string * section_data)).

(** A footnote or an appendix, with the entries [title] and [content]. *)
Record leaf_data : Set := {
  leaf_title : option string;
  leaf_content : option string
}.

(** The heap together with the references not yet given to any object. *)
Record Store : Type := {
  objects : Heap;
  next_node : node_ref;
  next_index : index_ref
}.

(** [d[key] = v] on a dict kept as an association list: an existing key
    keeps its place. *)
Fixpoint dict_set {V : Type} (key : string) (v : V) (d : list (string * V))
    : list (string * V) :=
  match d with
  | [] => [(key, v)]
  | (k, x) :: rest =>
      if String.eqb k key then (k, v) :: rest else (k, x) :: dict_set key v rest
  end.

(** The object at reference [r] replaced by [a]. *)
Definition update {A : Type} (objs : nat -> A) (r : nat) (a : A) : nat -> A :=
  fun r' => if Nat.eqb r' r then a else objs r'.

Definition set_node (r : node_ref) (n : DocumentNode.t) (s : Store) : Store :=
  {| objects := {| nodes := update (nodes (objects s)) r n;
                   indexes := indexes (objects s) |};
     next_node := next_node s;
     next_index := next_index s |}.

Definition set_index (r : index_ref) (i : DocumentIndex.t) (s : Store) : Store :=
  {| objects := {| nodes := nodes (objects s);
                   indexes := update (indexes (objects s)) r i |};
     next_node := next_node s;
     next_index := next_index s |}.

(** [DocumentNode(...)]: the object gets a reference no object has. *)
Definition new_node (n : DocumentNode.t) (s : Store) : node_ref * Store :=
  (next_node s,
   {| objects := {| nodes := update (nodes (objects s)) (next_node s) n;
                    indexes := indexes (objects s) |};
      next_node := S (next_node s);
      next_index := next_index s |}).

(** [cls(...)] *)
Definition new_index (i : DocumentIndex.t) (s : Store) : index_ref * Store :=
  (next_index s,
   {| objects := {| nodes := nodes (objects s);
                    indexes := update (indexes (objects s)) (next_index s) i |};
      next_node := next_node s;
      next_index := S (next_index s) |}).

(** [node.children[key] = child] *)
Definition set_child (node : node_ref) (key : string) (child : node_ref) (s : Store)
    : Store :=
  let n := nodes (objects s) node in
  set_node node
    (DocumentNode.mk (DocumentNode.id n) (DocumentNode.title n)
       (DocumentNode.content n) (DocumentNode.level n) (DocumentNode.parent n)
       (dict_set key child (DocumentNode.children n)))
    s.

(** [index.nodes_by_id[key] = node] *)
Definition set_node_by_id (index : index_ref) (key : string) (node : node_ref)
    (s : Store) : Store :=
  let i := indexes (objects s) index in
  set_index index
    (DocumentIndex.mk (DocumentIndex.document_id i) (DocumentIndex.metadata i)
       (DocumentIndex.root i) (<[key := node]> (DocumentIndex.nodes_by_id i)))
    s.

(** [DocumentIndex._add_section] *)
Fixpoint _add_section (self : index_ref) (parent : node_ref) (section_id : string)
    (section : section_data) (level : Z) (s : Store) : Store :=
  match section with
  | SectionData title content subsections =>
      let '(node, s) :=
        new_node
          (DocumentNode.mk section_id (default section_id title) (default "" content)
             level (Some parent) [])
          s in
      let s := set_child parent section_id node s in
      let s := set_node_by_id self section_id node s in
      foldl
        (fun s sub => _add_section self node (fst sub) (snd sub) (level + 1) s)
        s subsections
  end.

(** [data[key]] *)
Definition required {V : Type} (key : string) (v : option V) : key_error + V :=
  match v with
  | Some x => inr x
  | None => inl (KeyError key)
  end.

(** The loop over the footnotes (lines 120-129) and the one over the
    appendices (lines 175-184): a node of level 2 under [branch] for each
    item. *)
Fixpoint add_leaves (index : index_ref) (branch : node_ref)
    (items : list (string * leaf_data)) (s : Store) : (key_error + unit) * Store :=
  match items with
  | [] => (inr tt, s)
  | (leaf_id, leaf) :: rest =>
      match required "title" (leaf_title leaf) with
      | inl e => (inl e, s)
      | inr title =>
          match required "content" (leaf_content leaf) with
          | inl e => (inl e, s)
          | inr content =>
              let '(node, s) :=
                new_node (DocumentNode.mk leaf_id title content 2 (Some branch) []) s in
              let s := set_child branch leaf_id node s in
              let s := set_node_by_id index leaf_id node s in
              add_leaves index branch rest s
          end
      end
  end.

Module SecFiling.
(** The input of [from_sec_filing]: an entry is [None] when the key is
    absent; [sections] holds the items of [data.get('sections', {})]. *)
Record t : Type := mk {
  company : option meta_value;
  filing_type : option meta_value;
  fiscal_year : option meta_value;
  document_id : option string;
  sections : list (string * section_data);
  footnotes : option (list (string * leaf_data))
}.
End SecFiling.

(** [DocumentIndex.from_sec_filing] *)
Definition from_sec_filing (data : SecFiling.t) (s : Store)
    : (key_error + index_ref) * Store :=
  match required "company" (SecFiling.company data) with
  | inl e => (inl e, s)
  | inr company =>
  match required "filing_type" (SecFiling.filing_type data) with
  | inl e => (inl e, s)
  | inr filing_type =>
  match required "fiscal_year" (SecFiling.fiscal_year data) with
  | inl e => (inl e, s)
  | inr fiscal_year =>
      let '(root, s) :=
        new_node
          (DocumentNode.mk "root"
             (meta_str company +:+ " " +:+ meta_str filing_type +:+ " FY"
                +:+ meta_str fiscal_year)
             "" 0 None [])
          s in
      match required "document_id" (SecFiling.document_id data) with
      | inl e => (inl e, s)
      | inr document_id =>
          let '(index, s) :=
            new_index
              (DocumentIndex.mk document_id
                 (<["company" := company]>
                    (<["filing_type" := filing_type]>
                       (<["fiscal_year" := fiscal_year]>
                          {[ "document_type" := MStr "SEC Filing" ]})))
                 root ∅)
              s in
          let s := set_node_by_id index "root" root s in
          let s :=
            foldl (fun s part => _add_section index root (fst part) (snd part) 1 s)
              s (SecFiling.sections data) in
          match SecFiling.footnotes data with
          | None => (inr index, s)
          | Some notes =>
              let '(footnotes_node, s) :=
                new_node
                  (DocumentNode.mk "Footnotes" "Financial Statement Footnotes" ""
                     1 (Some root) [])
                  s in
              let s := set_child root "Footnotes" footnotes_node s in
              let s := set_node_by_id index "Footnotes" footnotes_node s in
              match add_leaves index footnotes_node notes s with
              | (inl e, s) => (inl e, s)
              | (inr _, s) => (inr index, s)
              end
          end
      end
  end end end.

Module SupplyChainSop.
(** The input of [from_supply_chain_sop]. *)
Record t : Type := mk {
  title : option string;
  document_id : option string;
  version : option meta_value;
  effective_date : option meta_value;
  classification : option meta_value;
  document_type : option meta_value;
  sections : list (string * section_data);
  appendices : option (list (string * leaf_data))
}.
End SupplyChainSop.

(** [data.get(key)] in the metadata: [None] for an absent key *)
Definition get_or_none (v : option meta_value) : meta_value := default MNone v.

(** [DocumentIndex.from_supply_chain_sop] *)
Definition from_supply_chain_sop (data : SupplyChainSop.t) (s : Store)
    : (key_error + index_ref) * Store :=
  let '(root, s) :=
    new_node
      (DocumentNode.mk "root"
         (default "Supply Chain SOP" (SupplyChainSop.title data))
         ("Document ID: " +:+ default "N/A" (SupplyChainSop.document_id data) +:+ nl
            +:+ "Version: "
            +:+ meta_str (default (MStr "N/A") (SupplyChainSop.version data)) +:+ nl
            +:+ "Effective Date: "
            +:+ meta_str (default (MStr "N/A") (SupplyChainSop.effective_date data))
            +:+ nl
            +:+ "Classification: "
            +:+ meta_str (default (MStr "N/A") (SupplyChainSop.classification data)))
         0 None [])
      s in
  let '(index, s) :=
    new_index
      (DocumentIndex.mk
         (default "unknown" (SupplyChainSop.document_id data))
         (<["title" := match SupplyChainSop.title data with
                        | Some t => MStr t
                        | None => MNone
                        end]>
            (<["document_type" :=
                 default (MStr "Standard Operating Procedure")
                   (SupplyChainSop.document_type data)]>
               (<["version" := get_or_none (SupplyChainSop.version data)]>
                  (<["effective_date" :=
                       get_or_none (SupplyChainSop.effective_date data)]>
                     {[ "classification" :=
                          get_or_none (SupplyChainSop.classification data) ]}))))
         root ∅)
      s in
  let s := set_node_by_id index "root" root s in
  let s :=
    foldl (fun s part => _add_section index root (fst part) (snd part) 1 s)
      s (SupplyChainSop.sections data) in
  match SupplyChainSop.appendices data with
  | None => (inr index, s)
  | Some items =>
      let '(appendices_node, s) :=
        new_node (DocumentNode.mk "Appendices" "Appendices" "" 1 (Some root) []) s in
      let s := set_child root "Appendices" appendices_node s in
      let s := set_node_by_id index "Appendices" appendices_node s in
      match add_leaves index appendices_node items s with
      | (inl e, s) => (inl e, s)
      | (inr _, s) => (inr index, s)
      end
  end.

(** *** Shape of a tree under construction *)

(** The entries of [children] of node [r] name nodes allocated after [r]
    and before [hi], whose [parent] is [r], whose [id] is the key, one level
    below [r]. *)
Definition children_ok (h : Heap) (hi : node_ref) (r : node_ref) : Prop :=
  forall key child,
    dict_get key (DocumentNode.children (nodes h r)) = Some child ->
    r < child < hi /\
    DocumentNode.parent (nodes h child) = Some r /\
    DocumentNode.id (nodes h child) = key /\
    DocumentNode.level (nodes h child) = (DocumentNode.level (nodes h r) + 1)%Z.

Definition same_but_children (a b : DocumentNode.t) : Prop :=
  DocumentNode.id a = DocumentNode.id b /\
  DocumentNode.title a = DocumentNode.title b /\
  DocumentNode.content a = DocumentNode.content b /\
  DocumentNode.level a = DocumentNode.level b /\
  DocumentNode.parent a = DocumentNode.parent b.

(** [grows index parent lvl s s']: from [s] to [s'] nodes were added below
    [parent], at level [lvl] for its own new children, and entered in
    [nodes_by_id] of [index]; nothing else changed. *)
Definition grows (index : index_ref) (parent : node_ref) (lvl : Z) (s s' : Store)
    : Prop :=
  next_node s <= next_node s' /\
  next_index s' = next_index s /\
  (forall r, r < next_node s -> r <> parent ->
     nodes (objects s') r = nodes (objects s) r) /\
  same_but_children (nodes (objects s') parent) (nodes (objects s) parent) /\
  (forall key child,
     dict_get key (DocumentNode.children (nodes (objects s') parent)) = Some child ->
     dict_get key (DocumentNode.children (nodes (objects s) parent)) = Some child \/
     (next_node s <= child < next_node s' /\
      DocumentNode.parent (nodes (objects s') child) = Some parent /\
      DocumentNode.id (nodes (objects s') child) = key /\
      DocumentNode.level (nodes (objects s') child) = lvl)) /\
  (forall key,
     is_Some (dict_get key (DocumentNode.children (nodes (objects s) parent))) ->
     is_Some (dict_get key (DocumentNode.children (nodes (objects s') parent)))) /\
  (forall r, next_node s <= r < next_node s' ->
     children_ok (objects s') (next_node s') r) /\
  (forall i, i <> index -> indexes (objects s') i = indexes (objects s) i) /\
  (DocumentIndex.document_id (indexes (objects s') index) =
     DocumentIndex.document_id (indexes (objects s) index) /\
   DocumentIndex.metadata (indexes (objects s') index) =
     DocumentIndex.metadata (indexes (objects s) index) /\
   DocumentIndex.root (indexes (objects s') index) =
     DocumentIndex.root (indexes (objects s) index)) /\
  (forall key r,
     DocumentIndex.nodes_by_id (indexes (objects s') index) !! key = Some r ->
     DocumentIndex.nodes_by_id (indexes (objects s) index) !! key = Some r \/
     (next_node s <= r < next_node s' /\
      DocumentNode.id (nodes (objects s') r) = key)) /\
  (forall key,
     is_Some (DocumentIndex.nodes_by_id (indexes (objects s) index) !! key) ->
     is_Some (DocumentIndex.nodes_by_id (indexes (objects s') index) !! key)) /\
  (forall r, next_node s <= r < next_node s' ->
     is_Some
       (DocumentIndex.nodes_by_id (indexes (objects s') index)
          !! DocumentNode.id (nodes (objects s') r))).

(** The number of nodes a section gives rise to. *)
Fixpoint section_count (section : section_data) : nat :=
  match section with
  | SectionData _ _ subsections =>
      S (foldr (fun sub total => section_count (snd sub) + total) 0 subsections)
  end.

(** The three statements that create a node and enter it under [parent] and
    in [nodes_by_id] (lines 191-199, 110-118, 121-129). *)
Definition attached (index : index_ref) (parent : node_ref) (key : string)
    (n : DocumentNode.t) (s : Store) : Store :=
  set_node_by_id index key (next_node s)
    (set_child parent key (next_node s) (snd (new_node n s))).

(** What [_add_section] has done when it returns [s'] from [s]. *)
Definition section_added (index : index_ref) (parent : node_ref)
    (section_id : string) (section : section_data) (lvl : Z) (s s' : Store) : Prop :=
  grows index parent lvl s s' /\
  next_node s' = next_node s + section_count section /\
  DocumentNode.children (nodes (objects s') parent) =
    dict_set section_id (next_node s)
      (DocumentNode.children (nodes (objects s) parent)) /\
  same_but_children (nodes (objects s') (next_node s))
    (match section with
     | SectionData title content _ =>
         DocumentNode.mk section_id (default section_id title) (default "" content)
           lvl (Some parent) []
     end) /\
  is_Some (DocumentIndex.nodes_by_id (indexes (objects s') index) !! section_id).

(** The first statements of both adapters: a root node and an index are
    created and the root is entered in [nodes_by_id]. *)
Definition rooted (root : DocumentNode.t) (index : DocumentIndex.t) (s : Store)
    : Store :=
  set_node_by_id (next_index s) "root" (next_node s)
    (snd (new_index index (snd (new_node root s)))).

(** The last statements of both adapters: the sections under the root, then
    the branch of footnotes or appendices when the input has one. *)
Definition branched (index : index_ref) (root : node_ref)
    (sections : list (string * section_data)) (key title : string)
    (leaves : option (list (string * leaf_data))) (s : Store)
    : (key_error + index_ref) * Store :=
  let s :=
    foldl (fun s part => _add_section index root (fst part) (snd part) 1 s)
      s sections in
  match leaves with
  | None => (inr index, s)
  | Some items =>
      match add_leaves index (next_node s) items
              (attached index root key
                 (DocumentNode.mk key title "" 1 (Some root) []) s) with
      | (inl e, s) => (inl e, s)
      | (inr _, s) => (inr index, s)
      end
  end.

Module Filing.
(** A store that holds the example manual, and inputs for the adapters. *)
Definition store : Store :=
  {| objects := Example.store; next_node := 3; next_index := 1 |}.

Definition risk : section_data :=
  SectionData (Some "Risk Factors") None
    [("1A.1", SectionData None (Some "Supply disruptions may occur.") []);
     ("1A.2", SectionData (Some "Cyber") (Some "Insurance covers breaches.") [])].

Definition filing : SecFiling.t :=
  SecFiling.mk (Some (MStr "ACME")) (Some (MStr "10-K")) (Some (MInt 2025))
    (Some "ACME-10K-2025")
    [("Item 1A", risk)]
    (Some [("Note 1", {| leaf_title := Some "Revenue";
                         leaf_content := Some "Recognised on delivery." |})]).

Definition undated : SecFiling.t :=
  SecFiling.mk (Some (MStr "ACME")) (Some (MStr "10-K")) None
    (Some "ACME-10K-2025") [] None.

Definition sop : SupplyChainSop.t :=
  SupplyChainSop.mk (Some "Assortment Planning Guide") None None None None
    (Some MNone) [("1", risk)] None.
End Filing.

(** ** The functions as equations on worlds *)

Section Equations.
Variable json_loads : string -> option pyjson.
Variable float_of_str : string -> option spec_float.
Variable self : PageIndexNavigator.

Lemma world_eta (w : World) :
  {| heap := heap w; chat_log := chat_log w ++ [] |} = w.
Proof. destruct w; cbn. by rewrite app_nil_r. Qed.

Lemma get_navigation_decision_run query cur avail pieces path doc_type w :
  match is_business_document doc_type with
  | Raise e =>
      _get_navigation_decision json_loads float_of_str self query cur avail
        pieces path doc_type w = (Raise e, w)
  | Ok _ =>
      exists req,
        response_format req = Some "json_object" /\
        _get_navigation_decision json_loads float_of_str self query cur avail
          pieces path doc_type w =
        (match client self (chat_log w) req with
         | Fails e => Raise e
         | Message content => parse_decision json_loads float_of_str content
         end,
         log_call w req (client self (chat_log w) req))
  end.
Proof.
  unfold _get_navigation_decision, bind, read_node, lift.
  destruct (is_business_document doc_type) as [business|e]; [|reflexivity].
  unfold chat_create. cbv beta iota.
  match goal with
  | |- context [client self (chat_log w) ?r] => exists r
  end.
  split; [reflexivity|].
  destruct (client self (chat_log w) _); reflexivity.
Qed.

(** One iteration: either the document type is rejected before any call,
    or exactly one navigate request is logged. *)
Lemma loop_body_run index query step L w :
  match is_business_document (document_type (indexes (heap w) index)) with
  | Raise e =>
      loop_body json_loads float_of_str self index query step L w = (Raise e, w)
  | Ok _ =>
      exists req,
        response_format req = Some "json_object" /\
        loop_body json_loads float_of_str self index query step L w =
        (match client self (chat_log w) req with
         | Fails e => Raise e
         | Message content =>
             match parse_decision json_loads float_of_str content with
             | Ok d => Ok (apply_decision (heap w) step d L)
             | Raise e => Raise e
             end
         end,
         log_call w req (client self (chat_log w) req))
  end.
Proof.
  pose proof (get_navigation_decision_run query (current_node L)
                (_format_available_sections (heap w) (current_node L))
                (extracted_pieces L) (navigation_path L)
                (document_type (indexes (heap w) index)) w) as Hd.
  unfold loop_body, bind, read_heap, read_index, ret, lift. cbv beta iota.
  destruct (is_business_document _) as [business|e].
  - destruct Hd as (req & Hfmt & ->). exists req. split; [exact Hfmt|].
    destruct (client self (chat_log w) req) as [e|content]; [reflexivity|].
    destruct (parse_decision json_loads float_of_str content); reflexivity.
  - by rewrite Hd.
Qed.

(** Every run of [for_range] is a [loop_run] and leaves the heap alone. *)
Lemma for_range_loop_run index query remaining : forall step L w,
  exists new res,
    loop_run json_loads float_of_str self (heap w) index remaining step L
      (chat_log w) new res /\
    for_range json_loads float_of_str self index query remaining step L w =
    (res, {| heap := heap w; chat_log := chat_log w ++ new |}).
Proof.
  induction remaining as [|remaining IH]; intros step L w.
  - exists [], (Ok L). split; [constructor|].
    cbn. unfold ret, lift. by rewrite world_eta.
  - cbn [for_range]. unfold bind at 1.
    pose proof (loop_body_run index query step L w) as Hb.
    destruct (is_business_document _) as [business|e] eqn:Hdoc.
    + destruct Hb as (req & Hfmt & ->).
      destruct (client self (chat_log w) req) as [e|content] eqn:Hc.
      { exists [(req, Fails e)], (Raise e). split; [by constructor|reflexivity]. }
      destruct (parse_decision json_loads float_of_str content) as [d|e] eqn:Hp.
      2: { exists [(req, Message content)], (Raise e).
           split; [by econstructor|reflexivity]. }
      destruct (apply_decision (heap w) step d L) as [[|] L'] eqn:Ha.
      * destruct (IH (S step) L' (log_call w req (Message content)))
          as (new & res & Hrun & ->).
        exists ((req, Message content) :: new), res. split.
        { eapply run_continue; eauto. }
        cbn. by rewrite <- app_assoc.
      * exists [(req, Message content)], (Ok L').
        split; [by econstructor|reflexivity].
    + rewrite Hb. exists [], (Raise e). split; [by constructor|].
      by rewrite world_eta.
Qed.

Lemma navigation_loop_run index query max_steps w :
  exists new res,
    loop_run json_loads float_of_str self (heap w) index (Z.to_nat max_steps) 0
      (initial_locals (indexes (heap w) index)) (chat_log w) new res /\
    navigation_loop json_loads float_of_str self index query max_steps w =
    (res, {| heap := heap w; chat_log := chat_log w ++ new |}).
Proof.
  unfold navigation_loop, bind, read_index.
  apply for_range_loop_run.
Qed.

(** The synthesizer logs at most one request, never a navigate request,
    and none at all without evidence. *)
Lemma synthesize_answer_run query pieces srcs doc_type w :
  exists new,
    snd (_synthesize_answer self query pieces srcs doc_type w) =
      {| heap := heap w; chat_log := chat_log w ++ new |} /\
    Forall (fun i => is_navigate i = false) new /\
    (pieces = [] ->
     new = [] /\
     fst (_synthesize_answer self query pieces srcs doc_type w) =
       Ok (Some NO_INFORMATION_ANSWER)).
Proof.
  destruct pieces as [|piece pieces].
  { exists []. cbn. by rewrite world_eta. }
  unfold _synthesize_answer, bind, ret, lift. cbv beta iota.
  destruct (is_business_document doc_type) as [business|e].
  2: { exists []. cbn. by rewrite world_eta. }
  destruct business.
  - unfold chat_create. cbv beta iota zeta.
    match goal with
    | |- context [client self (chat_log w) ?r] =>
        exists [(r, client self (chat_log w) r)];
        destruct (client self (chat_log w) r)
    end; cbn; (split; [reflexivity|split; [by repeat constructor|done]]).
  - destruct (py_or _ _) as [filing|e].
    2: { exists []. cbn. by rewrite world_eta. }
    unfold chat_create. cbv beta iota zeta.
    match goal with
    | |- context [client self (chat_log w) ?r] =>
        exists [(r, client self (chat_log w) r)];
        destruct (client self (chat_log w) r)
    end; cbn; (split; [reflexivity|split; [by repeat constructor|done]]).
Qed.

(** After the loop: at most one request, never a navigate request, and the
    confidence of a returned result is the one [result_confidence] gives. *)
Lemma build_result_run index query L w :
  exists new,
    snd (build_result self index query L w) =
      {| heap := heap w; chat_log := chat_log w ++ new |} /\
    Forall (fun i => is_navigate i = false) new /\
    (extracted_pieces L = [] ->
     new = [] /\
     fst (build_result self index query L w) =
       Ok (QueryResult.mk NO_INFORMATION_ANSWER (sources L) float_0_0
             (navigation_path L) (reasoning_trace L))) /\
    (forall r,
       fst (build_result self index query L w) = Ok r ->
       result_confidence L = Ok (QueryResult.confidence r)).
Proof.
  destruct (synthesize_answer_run query (extracted_pieces L) (sources L)
              (document_type (indexes (heap w) index)) w)
    as (new & Hworld & Hsyn & Hempty).
  exists new. unfold build_result, bind, read_index, lift.
  destruct (_synthesize_answer self query (extracted_pieces L) (sources L)
              (document_type (indexes (heap w) index)) w)
    as [answer w'] eqn:Hanswer.
  cbn [fst snd] in *. subst w'.
  split; [|split; [exact Hsyn|split]].
  - destruct answer as [answer|e]; [|reflexivity].
    destruct (result_confidence L); [|reflexivity].
    destruct answer; reflexivity.
  - intros Hnone. destruct (Hempty Hnone) as [-> ->].
    split; [reflexivity|].
    unfold result_confidence. by rewrite Hnone.
  - intros r. destruct answer as [answer|e]; [|discriminate].
    destruct (result_confidence L) as [c|e]; [|discriminate].
    destruct answer; [|discriminate]. cbn. by intros [= <-].
Qed.

(** [query] is the loop followed by [build_result]. *)
Lemma query_run index query_text max_steps w :
  exists new res,
    loop_run json_loads float_of_str self (heap w) index (Z.to_nat max_steps) 0
      (initial_locals (indexes (heap w) index)) (chat_log w) new res /\
    navigation_loop json_loads float_of_str self index query_text max_steps w =
      (res, {| heap := heap w; chat_log := chat_log w ++ new |}) /\
    query json_loads float_of_str self index query_text max_steps w =
      match res with
      | Ok L =>
          build_result self index query_text L
            {| heap := heap w; chat_log := chat_log w ++ new |}
      | Raise e => (Raise e, {| heap := heap w; chat_log := chat_log w ++ new |})
      end.
Proof.
  destruct (navigation_loop_run index query_text max_steps w) as (new & res & Hrun & Hloop).
  exists new, res. split; [exact Hrun|split; [exact Hloop|]].
  unfold query, bind. rewrite Hloop. by destruct res.
Qed.
End Equations.

(** ** Counting calls *)

Lemma navigate_calls_app (l1 l2 : list interaction) :
  navigate_calls (l1 ++ l2) = navigate_calls l1 + navigate_calls l2.
Proof. unfold navigate_calls. by rewrite filter_app, length_app. Qed.

Lemma synthesize_calls_app (l1 l2 : list interaction) :
  synthesize_calls (l1 ++ l2) = synthesize_calls l1 + synthesize_calls l2.
Proof. unfold synthesize_calls. by rewrite filter_app, length_app. Qed.

Lemma navigate_calls_le (l : list interaction) : navigate_calls l <= length l.
Proof. unfold navigate_calls. apply length_filter. Qed.

Lemma only_navigate_calls (l : list interaction) :
  Forall (fun i => is_navigate i = true) l ->
  navigate_calls l = length l /\ synthesize_calls l = 0.
Proof.
  unfold navigate_calls, synthesize_calls.
  induction 1 as [|i l Hi _ [IH1 IH2]]; [done|].
  rewrite filter_cons_True by done.
  rewrite filter_cons_False by (rewrite Hi; done).
  cbn. by rewrite IH1.
Qed.

Lemma no_navigate_calls (l : list interaction) :
  Forall (fun i => is_navigate i = false) l -> navigate_calls l = 0.
Proof.
  unfold navigate_calls.
  induction 1 as [|i l Hi _ IH]; [done|].
  by rewrite filter_cons_False by (rewrite Hi; done).
Qed.

(** A navigate exchange of a log made of a run of the loop followed by
    exchanges that are no navigate requests lies in the run. *)
Lemma navigate_exchange_in_run (new new' pre post : list interaction) x :
  new ++ new' = pre ++ x :: post ->
  is_navigate x = true ->
  Forall (fun i => is_navigate i = false) new' ->
  exists post', new = pre ++ x :: post' /\ post = post' ++ new'.
Proof.
  intros Hsplit Hx Hsyn. revert pre Hsplit.
  induction new as [|i new IH]; intros pre Hsplit.
  - cbn in Hsplit. subst new'. rewrite Forall_forall in Hsyn.
    assert (is_navigate x = false) as Hno
      by (apply Hsyn, elem_of_app; right; by left).
    congruence.
  - destruct pre as [|j pre]; cbn in Hsplit; inversion Hsplit; subst.
    + by exists new.
    + destruct (IH pre) as (post' & -> & ->); [done|]. by exists post'.
Qed.

(** ** Properties of one applied decision *)

Lemma apply_decision_binds h step d L :
  decision (snd (apply_decision h step d L)) = Some d.
Proof. unfold apply_decision. repeat case_match; reflexivity. Qed.

Lemma apply_decision_aligned h step d L :
  length (sources L) = length (extracted_pieces L) ->
  length (sources (snd (apply_decision h step d L))) =
  length (extracted_pieces (snd (apply_decision h step d L))).
Proof.
  intros Hlen. unfold apply_decision.
  repeat case_match; cbn; rewrite ?length_app; cbn; lia.
Qed.

(** The loop goes on after every decision but COMPLETE. *)
Lemma apply_decision_control h step d L :
  fst (apply_decision h step d L) =
  match NavigationDecision.action d with
  | COMPLETE => Break
  | DESCEND | EXTRACT | BACKTRACK => Continue
  end.
Proof. unfold apply_decision. repeat case_match; reflexivity. Qed.

Lemma apply_decision_cursor h step d L :
  current_node (snd (apply_decision h step d L)) =
  cursor_after h (current_node L) d.
Proof.
  unfold apply_decision, cursor_after.
  destruct (NavigationDecision.action d).
  - destruct (NavigationDecision.target_section d) as [target|]; [|reflexivity].
    destruct (nonempty target); [|reflexivity].
    by destruct (dict_get target _).
  - by destruct (NavigationDecision.extracted_info d) as [[|c rest]|].
  - by destruct (DocumentNode.parent _).
  - reflexivity.
Qed.

Lemma apply_decision_extraction h step d L :
  extracted_pieces (snd (apply_decision h step d L)) =
    extracted_pieces L ++ map fst (extraction h (current_node L) d) /\
  sources (snd (apply_decision h step d L)) =
    sources L ++ map snd (extraction h (current_node L) d).
Proof.
  unfold apply_decision, extraction.
  destruct (NavigationDecision.action d).
  - repeat case_match; cbn; by rewrite !app_nil_r.
  - destruct (NavigationDecision.extracted_info d) as [[|c rest]|]; cbn;
      by rewrite ?app_nil_r.
  - repeat case_match; cbn; by rewrite !app_nil_r.
  - cbn. by rewrite !app_nil_r.
Qed.

(** ** Properties of loop runs *)

Section RunProperties.
Variable json_loads : string -> option pyjson.
Variable float_of_str : string -> option spec_float.
Variable self : PageIndexNavigator.
Variable h : Heap.
Variable index : index_ref.

Lemma loop_run_calls remaining step L log new res :
  loop_run json_loads float_of_str self h index remaining step L log new res ->
  Forall (fun i => is_navigate i = true) new /\ length new <= remaining.
Proof.
  induction 1 as [| | ? ? ? ? ? ? Hf | ? ? ? ? ? ? ? Hf | ? ? ? ? ? ? ? ? Hf
                  | ? ? ? ? ? ? ? ? ? ? Hf ? ? ? ? [IH1 IH2]]; cbn.
  1,2: split; [constructor|lia].
  1-3: split; [|lia]; repeat constructor; unfold is_navigate; cbn; by rewrite Hf.
  split; [|lia]. constructor; [|done]. unfold is_navigate; cbn; by rewrite Hf.
Qed.

Lemma loop_run_aligned remaining step L log new L' :
  loop_run json_loads float_of_str self h index remaining step L log new (Ok L') ->
  length (sources L) = length (extracted_pieces L) ->
  length (sources L') = length (extracted_pieces L').
Proof.
  intros Hrun. remember (Ok L') as res eqn:Hres.
  induction Hrun as [| | | | ? ? ? ? ? ? d ? ? ? ? Ha
                     | ? ? ? ? ? ? d ? ? ? ? ? ? Ha ? IH];
    intros Hlen; try discriminate.
  - by inversion Hres; subst.
  - inversion Hres; subst.
    pose proof (apply_decision_aligned h step d L Hlen) as Hal.
    by rewrite Ha in Hal.
  - apply IH; [done|].
    pose proof (apply_decision_aligned h step d L Hlen) as Hal.
    by rewrite Ha in Hal.
Qed.

Lemma last_decision_singleton req content :
  response_format req = Some "json_object" ->
  last_decision json_loads float_of_str [(req, Message content)] = Some (parse_decision json_loads float_of_str content).
Proof.
  intros Hf. unfold last_decision.
  rewrite filter_cons_True by (unfold is_navigate; cbn; by rewrite Hf).
  reflexivity.
Qed.

Lemma last_decision_cons i new r :
  last_decision json_loads float_of_str new = Some r -> last_decision json_loads float_of_str (i :: new) = Some r.
Proof.
  unfold last_decision. intros Hl.
  destruct (decide (is_navigate i = true)) as [Hi|Hi].
  - rewrite filter_cons_True by done.
    destruct (filter _ new) as [|j rest]; [done|].
    by rewrite last_cons_cons.
  - by rewrite filter_cons_False by done.
Qed.

(** A run that ends normally either did nothing or left in [decision] the
    decision parsed from the latest navigate exchange. *)
Lemma loop_run_last_decision remaining step L log new L' :
  loop_run json_loads float_of_str self h index remaining step L log new (Ok L') ->
  (new = [] /\ L' = L) \/
  (exists d, decision L' = Some d /\ last_decision json_loads float_of_str new = Some (Ok d)).
Proof.
  intros Hrun. remember (Ok L') as res eqn:Hres.
  induction Hrun as [| | | | ? ? ? ? ? ? d ? Hf ? Hp Ha
                     | ? ? ? ? ? ? d L1 ? ? Hf ? Hp Ha ? IH];
    try discriminate.
  - left. by inversion Hres.
  - right. inversion Hres; subst. exists d. split.
    + pose proof (apply_decision_binds h step d L) as Hb. by rewrite Ha in Hb.
    + by rewrite last_decision_singleton, Hp.
  - right. destruct (IH Hres) as [[-> ->]|(d' & Hd' & Hl)].
    + exists d. split.
      * pose proof (apply_decision_binds h step d L) as Hb. by rewrite Ha in Hb.
      * by rewrite last_decision_singleton, Hp.
    + exists d'. split; [done|]. by apply last_decision_cons.
Qed.

Lemma decisions_of_cons req content d new :
  response_format req = Some "json_object" ->
  parse_decision json_loads float_of_str content = Ok d ->
  decisions_of json_loads float_of_str ((req, Message content) :: new) =
  d :: decisions_of json_loads float_of_str new.
Proof.
  intros Hf Hp. unfold decisions_of. cbn [omap list_omap].
  unfold is_navigate. cbn [fst snd]. by rewrite Hf, Hp.
Qed.

(** A run that ends normally made a decision of every exchange, and added to
    the two lists the pairs those decisions collect from the node the cursor
    was on. *)
Lemma loop_run_evidence remaining step L log new L' :
  loop_run json_loads float_of_str self h index remaining step L log new (Ok L') ->
  extracted_pieces L' =
    extracted_pieces L ++
    map fst (evidence h (current_node L) (decisions_of json_loads float_of_str new)) /\
  sources L' =
    sources L ++
    map snd (evidence h (current_node L) (decisions_of json_loads float_of_str new)) /\
  length (decisions_of json_loads float_of_str new) = length new.
Proof.
  intros Hrun. remember (Ok L') as res eqn:Hres.
  induction Hrun as [| | | | ? ? ? ? ? ? d ? Hf ? Hp Ha
                     | ? ? ? ? ? ? d L1 ? ? Hf ? Hp Ha ? IH];
    try discriminate.
  - inversion Hres; subst. cbn. by rewrite !app_nil_r.
  - inversion Hres; subst.
    rewrite (decisions_of_cons _ _ d) by done. cbn [evidence decisions_of omap list_omap].
    destruct (apply_decision_extraction h step d L) as [Hpieces Hsources].
    rewrite Ha in Hpieces, Hsources. cbn [snd] in Hpieces, Hsources.
    by rewrite !app_nil_r.
  - destruct (IH Hres) as (IHp & IHs & IHl).
    rewrite (decisions_of_cons _ _ d) by done. cbn [evidence length].
    destruct (apply_decision_extraction h step d L) as [Hpieces Hsources].
    pose proof (apply_decision_cursor h step d L) as Hcursor.
    rewrite Ha in Hpieces, Hsources, Hcursor.
    cbn [snd] in Hpieces, Hsources, Hcursor.
    rewrite <- Hcursor, !map_app, !app_assoc, <- Hpieces, <- Hsources.
    by rewrite IHl.
Qed.

(** Nothing follows an exchange whose reply parses to COMPLETE. *)
Lemma loop_run_complete_last remaining step L log new res pre req content d post :
  loop_run json_loads float_of_str self h index remaining step L log new res ->
  new = pre ++ (req, Message content) :: post ->
  parse_decision json_loads float_of_str content = Ok d ->
  NavigationDecision.action d = COMPLETE ->
  post = [].
Proof.
  intros Hrun. revert pre.
  induction Hrun as [| | | | | ? ? ? ? ? ? d' L1 ? ? Hf ? Hp' Ha ? IH];
    intros pre Hnew Hp Hcomplete.
  1,2: by destruct pre.
  1-3: destruct pre as [|? [|? ?]]; by inversion Hnew.
  destruct pre as [|i pre]; cbn in Hnew.
  - inversion Hnew; subst.
    pose proof (apply_decision_control h step d' L) as Hc.
    rewrite Ha in Hc. cbn in Hc.
    assert (d' = d) as -> by congruence.
    by rewrite Hcomplete in Hc.
  - inversion Hnew; subst. by eapply IH.
Qed.

(** A run that spent every iteration on a reply that parses ends normally. *)
Lemma loop_run_spent remaining step L log new res :
  loop_run json_loads float_of_str self h index remaining step L log new res ->
  length new = remaining ->
  (forall req c,
     (req, c) ∈ new ->
     exists content d,
       c = Message content /\
       parse_decision json_loads float_of_str content = Ok d) ->
  exists L', res = Ok L'.
Proof.
  induction 1 as [| | ? ? ? ? req e | ? ? ? ? req content e ? ? Hp | | ? ? ? ? ? ? ? ? ? ? ? ? ? ? ? IH];
    cbn; intros Hlen Hall.
  - by eexists.
  - discriminate.
  - destruct (Hall req (Fails e)) as (? & ? & ? & _); [by left|discriminate].
  - destruct (Hall req (Message content)) as (? & ? & [= <-] & ?); [by left|congruence].
  - by eexists.
  - apply IH; [lia|]. intros r c Hin. apply (Hall r c). by right.
Qed.

(** An exchange whose reply does not parse ends the run with the parse
    exception. *)
Lemma loop_run_unparsed remaining step L log new res req content e :
  loop_run json_loads float_of_str self h index remaining step L log new res ->
  (req, Message content) ∈ new ->
  parse_decision json_loads float_of_str content = Raise e ->
  res = Raise e.
Proof.
  intros Hrun Hin Hp.
  induction Hrun as [| | | ? ? ? ? ? ? ? ? ? Hp'
                     | ? ? ? ? ? ? ? ? ? ? Hp' | ? ? ? ? ? ? ? ? ? ? ? ? Hp' ? ? IH].
  - by apply elem_of_nil in Hin.
  - by apply elem_of_nil in Hin.
  - apply list_elem_of_singleton in Hin. discriminate.
  - apply list_elem_of_singleton in Hin. inversion Hin; subst. congruence.
  - apply list_elem_of_singleton in Hin. inversion Hin; subst. congruence.
  - apply elem_of_cons in Hin as [Hin|Hin]; [|by apply IH].
    inversion Hin; subst. congruence.
Qed.
End RunProperties.

(** ** The decision built from a reply *)

(** C2 (as amended): when the decoded reply is an object without a
    [confidence] entry, the [NavigationDecision] built by
    [_get_navigation_decision] carries confidence 0.5, the default passed to
    [result.get]; the 0.0 declared on the model is never used there. *)
Theorem parse_decision_default_confidence
    (json_loads : string -> option pyjson)
    (float_of_str : string -> option spec_float)
    (text : string) (items : list (string * pyjson)) (d : NavigationDecision.t) :
  json_loads text = Some (JDict items) ->
  dict_get "confidence" items = None ->
  parse_decision json_loads float_of_str (Some text) = Ok d ->
  NavigationDecision.confidence d = float_0_5.
Proof.
  intros Hjson Hconf Hparse.
  unfold parse_decision in Hparse. cbn [rbind] in Hparse.
  rewrite Hjson in Hparse.
  unfold result_get_default, result_get, rbind in Hparse.
  rewrite Hconf in Hparse. cbn [default py_float] in Hparse.
  repeat (case_match; try discriminate).
  by inversion Hparse.
Qed.

Lemma parse_decision_default_confidence_witness :
  NavigationDecision.confidence
    (NavigationDecision.mk COMPLETE None "enough" None float_0_5) = float_0_5.
Proof.
  apply (parse_decision_default_confidence
           (Example.table_loads Example.replies) Example.no_float
           "done" [("reasoning", JStr "enough")]); reflexivity.
Defined.

(** C2 (as stated) fails: a reply without [confidence] does not give 0.0. *)
Lemma omitted_confidence_is_not_zero :
  ~ (forall (json_loads : string -> option pyjson)
            (float_of_str : string -> option spec_float)
            (text : string) (items : list (string * pyjson))
            (d : NavigationDecision.t),
        json_loads text = Some (JDict items) ->
        dict_get "confidence" items = None ->
        parse_decision json_loads float_of_str (Some text) = Ok d ->
        NavigationDecision.confidence d = float_0_0).
Proof.
  intros Hclaim.
  specialize (Hclaim (Example.table_loads Example.replies) Example.no_float
                "done" [("reasoning", JStr "enough")]
                (NavigationDecision.mk COMPLETE None "enough" None float_0_5)
                eq_refl eq_refl eq_refl).
  discriminate Hclaim.
Qed.

(** ** Single actions *)

(** C4: a DESCEND whose target is absent, or is not a key of the current
    node's children, leaves the cursor (and the path and the evidence) as
    they were, appends the step's trace line and a line naming the invalid
    target, and lets the loop continue. *)
Theorem invalid_descend_keeps_cursor
    (h : Heap) (step : nat) (d : NavigationDecision.t) (L : Locals) :
  NavigationDecision.action d = DESCEND ->
  match NavigationDecision.target_section d with
  | None => True
  | Some target =>
      dict_get target (DocumentNode.children (nodes h (current_node L))) = None
  end ->
  apply_decision h step d L =
  (Continue,
   {| current_node := current_node L;
      navigation_path := navigation_path L;
      reasoning_trace :=
        reasoning_trace L ++
        ["Step " +:+ str_of_nat (step + 1) +:+ ": descend - "
           +:+ NavigationDecision.reasoning d;
         "  -> Invalid section '" +:+ opt_str (NavigationDecision.target_section d)
           +:+ "', staying at current location"];
      extracted_pieces := extracted_pieces L;
      sources := sources L;
      decision := Some d |}).
Proof.
  intros Haction Htarget. unfold apply_decision. rewrite Haction.
  destruct (NavigationDecision.target_section d) as [target|]; cbn [opt_str].
  - rewrite Htarget. destruct (nonempty target); by rewrite <- app_assoc.
  - by rewrite <- app_assoc.
Qed.

Lemma invalid_descend_keeps_cursor_witness :
  current_node
    (snd (apply_decision Example.store 2
            (NavigationDecision.mk DESCEND (Some "Pricing") "guess" None float_0_5)
            Example.locals0)) = 1.
Proof.
  rewrite (invalid_descend_keeps_cursor Example.store 2
             (NavigationDecision.mk DESCEND (Some "Pricing") "guess" None float_0_5)
             Example.locals0); reflexivity.
Defined.

(** C5: a BACKTRACK moves the cursor to the parent of the current node and
    appends the up-marker ["[up]" + parent.id] to the path; at a node without
    parent it changes neither cursor nor path.  Either way the loop goes on. *)
Theorem backtrack_moves_to_parent_or_stays
    (h : Heap) (step : nat) (d : NavigationDecision.t) (L : Locals) :
  NavigationDecision.action d = BACKTRACK ->
  fst (apply_decision h step d L) = Continue /\
  match DocumentNode.parent (nodes h (current_node L)) with
  | Some up =>
      current_node (snd (apply_decision h step d L)) = up /\
      navigation_path (snd (apply_decision h step d L)) =
        navigation_path L ++ ["[up]" +:+ DocumentNode.id (nodes h up)]
  | None =>
      current_node (snd (apply_decision h step d L)) = current_node L /\
      navigation_path (snd (apply_decision h step d L)) = navigation_path L
  end.
Proof.
  intros Haction. unfold apply_decision. rewrite Haction.
  destruct (DocumentNode.parent (nodes h (current_node L))); cbn; auto.
Qed.

Lemma backtrack_moves_to_parent_or_stays_witness :
  navigation_path
    (snd (apply_decision Example.store 0
            (NavigationDecision.mk BACKTRACK None "wrong place" None float_0_5)
            Example.locals0)) = ["root"; "Policy"; "[up]root"].
Proof.
  pose proof (backtrack_moves_to_parent_or_stays Example.store 0
                (NavigationDecision.mk BACKTRACK None "wrong place" None float_0_5)
                Example.locals0 eq_refl) as [_ Hmove].
  exact (proj2 Hmove).
Defined.

(** ** The whole query *)

(** C10: with [max_steps <= 0] the loop body never runs: [query] returns the
    fixed answer with confidence 0.0, no sources, an empty trace and the path
    [["root"]], and the world (heap and chat log) is the one it started
    from, so no request was sent.  The result is a normal return: the
    unbound [decision] is not read. *)
Theorem query_without_budget
    (json_loads : string -> option pyjson)
    (float_of_str : string -> option spec_float)
    (self : PageIndexNavigator) (index : index_ref) (query_text : string)
    (max_steps : Z) (w : World) :
  (max_steps <= 0)%Z ->
  query json_loads float_of_str self index query_text max_steps w =
  (Ok {| QueryResult.answer := NO_INFORMATION_ANSWER;
         QueryResult.sources := [];
         QueryResult.confidence := float_0_0;
         QueryResult.navigation_path := ["root"];
         QueryResult.reasoning_trace := [] |},
   w).
Proof.
  intros Hle. unfold query, navigation_loop.
  replace (Z.to_nat max_steps) with 0 by lia.
  reflexivity.
Qed.

Lemma query_without_budget_witness :
  fst (Example.run [] (-3)) =
  Ok {| QueryResult.answer := "Unable to find relevant information in the document.";
        QueryResult.sources := [];
        QueryResult.confidence := S754_zero false;
        QueryResult.navigation_path := ["root"];
        QueryResult.reasoning_trace := [] |}.
Proof.
  unfold Example.run.
  rewrite (query_without_budget (Example.table_loads Example.replies)
             Example.no_float (Example.navigator []) 0
             "What is the markdown policy for dairy?" (-3) Example.start); [|lia].
  reflexivity.
Defined.

(** C9: [query] never writes to the heap: whether it returns or raises, every
    [DocumentNode] and every [DocumentIndex] (hence each field of the index
    passed in and of each node of its tree) is what it was before the call. *)
Theorem query_preserves_heap
    (json_loads : string -> option pyjson)
    (float_of_str : string -> option spec_float)
    (self : PageIndexNavigator) (index : index_ref) (query_text : string)
    (max_steps : Z) (w : World) :
  heap (snd (query json_loads float_of_str self index query_text max_steps w)) =
  heap w.
Proof.
  destruct (query_run json_loads float_of_str self index query_text max_steps w)
    as (new & res & _ & _ & ->).
  destruct res as [L|e]; [|reflexivity].
  destruct (build_result_run self index query_text L
              {| heap := heap w; chat_log := chat_log w ++ new |})
    as (new' & -> & _).
  reflexivity.
Qed.

(** C7: the exchanges [query] adds to the chat log contain at most
    [max_steps] navigate requests (none when [max_steps] is negative); an
    applied COMPLETE stops the loop, with nothing further sent; and a loop
    with no iteration left returns its local variables normally.

    In the loop itself: an iteration on a document whose type can be tested
    sends one navigate request.  When the decision parsed from the reply is
    COMPLETE the loop ends there, whatever budget is left, with the local
    variables that decision leaves and that one exchange added to the log;
    after any other decision it goes on, with one iteration less.  Hence in
    the log of [query] no navigate request follows an exchange whose reply
    parses to COMPLETE.  A run that spent its whole budget on replies that
    parse ends normally as well: running out of iterations is no error. *)
Theorem query_navigate_calls_bounded
    (json_loads : string -> option pyjson)
    (float_of_str : string -> option spec_float)
    (self : PageIndexNavigator) (index : index_ref) (query_text : string) :
  (forall max_steps w,
     exists new,
       chat_log (snd (query json_loads float_of_str self index query_text
                        max_steps w)) = chat_log w ++ new /\
       (Z.of_nat (navigate_calls new) <= Z.max 0 max_steps)%Z) /\
  (forall h step d L,
     NavigationDecision.action d = COMPLETE ->
     fst (apply_decision h step d L) = Break) /\
  (forall remaining step L w L' w',
     loop_body json_loads float_of_str self index query_text step L w =
       (Ok (Break, L'), w') ->
     for_range json_loads float_of_str self index query_text (S remaining) step L w =
       (Ok L', w')) /\
  (forall step L w,
     for_range json_loads float_of_str self index query_text 0 step L w = (Ok L, w)) /\
  (forall remaining step L w business,
     is_business_document (document_type (indexes (heap w) index)) = Ok business ->
     exists req,
       response_format req = Some "json_object" /\
       forall content d,
         client self (chat_log w) req = Message content ->
         parse_decision json_loads float_of_str content = Ok d ->
         (NavigationDecision.action d = COMPLETE ->
          for_range json_loads float_of_str self index query_text
            (S remaining) step L w =
          (Ok (snd (apply_decision (heap w) step d L)),
           log_call w req (Message content))) /\
         (NavigationDecision.action d <> COMPLETE ->
          for_range json_loads float_of_str self index query_text
            (S remaining) step L w =
          for_range json_loads float_of_str self index query_text
            remaining (S step) (snd (apply_decision (heap w) step d L))
            (log_call w req (Message content)))) /\
  (forall max_steps w pre req content d post,
     chat_log (snd (query json_loads float_of_str self index query_text
                      max_steps w)) =
       chat_log w ++ pre ++ (req, Message content) :: post ->
     is_navigate (req, Message content) = true ->
     parse_decision json_loads float_of_str content = Ok d ->
     NavigationDecision.action d = COMPLETE ->
     navigate_calls post = 0) /\
  (forall max_steps w res w' new,
     navigation_loop json_loads float_of_str self index query_text max_steps w =
       (res, w') ->
     chat_log w' = chat_log w ++ new ->
     length new = Z.to_nat max_steps ->
     (forall req c,
        (req, c) ∈ new ->
        exists content d,
          c = Message content /\
          parse_decision json_loads float_of_str content = Ok d) ->
     exists L, res = Ok L).
Proof.
  split; [|split; [|split; [|split; [|split; [|split]]]]].
  - intros max_steps w.
    destruct (query_run json_loads float_of_str self index query_text max_steps w)
      as (new & res & Hrun & _ & ->).
    apply loop_run_calls in Hrun as [Hnav Hlen].
    apply only_navigate_calls in Hnav as [Hnav _].
    destruct res as [L|e].
    + destruct (build_result_run self index query_text L
                  {| heap := heap w; chat_log := chat_log w ++ new |})
        as (new' & -> & Hsyn & _).
      exists (new ++ new'). cbn. split; [by rewrite app_assoc|].
      rewrite navigate_calls_app, (no_navigate_calls new' Hsyn). lia.
    + exists new. split; [reflexivity|lia].
  - intros h step d L Haction. unfold apply_decision. by rewrite Haction.
  - intros remaining step L w L' w' Hbody.
    cbn [for_range]. unfold bind. by rewrite Hbody.
  - reflexivity.
  - intros remaining step L w business Hdoc.
    pose proof (loop_body_run json_loads float_of_str self index query_text
                  step L w) as Hbody.
    rewrite Hdoc in Hbody. destruct Hbody as (req & Hfmt & Hbody).
    exists req. split; [exact Hfmt|].
    intros content d Hreply Hparse. rewrite Hreply, Hparse in Hbody.
    pose proof (apply_decision_control (heap w) step d L) as Hcontrol.
    cbn [for_range]. unfold bind. rewrite Hbody.
    destruct (apply_decision (heap w) step d L) as [c L1].
    cbn [fst snd] in *.
    split; intros Haction.
    + rewrite Haction in Hcontrol. by subst c.
    + destruct (NavigationDecision.action d); subst c; done.
  - intros max_steps w pre req content d post Hlog Hnav Hparse Haction.
    destruct (query_run json_loads float_of_str self index query_text max_steps w)
      as (new & res & Hrun & _ & Hquery).
    rewrite Hquery in Hlog. destruct res as [L|e].
    + destruct (build_result_run self index query_text L
                  {| heap := heap w; chat_log := chat_log w ++ new |})
        as (new' & Hworld & Hsyn & _).
      rewrite Hworld in Hlog. cbn [chat_log] in Hlog.
      rewrite <- app_assoc in Hlog. apply app_inv_head in Hlog.
      destruct (navigate_exchange_in_run _ _ _ _ _ Hlog Hnav Hsyn)
        as (post' & Hnew & ->).
      rewrite (loop_run_complete_last _ _ _ _ _ _ _ _ _ _ _ _ _ _ _ _
                 Hrun Hnew Hparse Haction).
      by apply no_navigate_calls.
    + cbn [snd chat_log] in Hlog. apply app_inv_head in Hlog.
      by rewrite (loop_run_complete_last _ _ _ _ _ _ _ _ _ _ _ _ _ _ _ _
                    Hrun Hlog Hparse Haction).
  - intros max_steps w res w' new Hloop Hlog Hlen Hall.
    destruct (navigation_loop_run json_loads float_of_str self index query_text
                max_steps w) as (new0 & res0 & Hrun & Hloop').
    rewrite Hloop in Hloop'. inversion Hloop'; subst.
    cbn [chat_log] in Hlog. apply app_inv_head in Hlog. subst new0.
    by eapply loop_run_spent.
Qed.

Lemma query_navigate_calls_bounded_witness :
  exists req,
    for_range (Example.table_loads Example.replies) Example.no_float
      (Example.navigator [Example.says "done"; Example.says "to-policy"]) 0
      "What is the markdown policy for dairy?" 15 0 Example.locals0
      Example.start =
    (Ok {| current_node := 1;
           navigation_path := ["root"; "Policy"];
           reasoning_trace := ["Step 1: complete - enough"];
           extracted_pieces := [];
           sources := [];
           decision :=
             Some (NavigationDecision.mk COMPLETE None "enough" None float_0_5) |},
     {| heap := Example.store;
        chat_log := [(req, Example.says "done")] |}).
Proof.
  destruct (proj1 (proj2 (proj2 (proj2 (proj2
              (query_navigate_calls_bounded
                 (Example.table_loads Example.replies) Example.no_float
                 (Example.navigator [Example.says "done"; Example.says "to-policy"])
                 0 "What is the markdown policy for dairy?")))))
              14 0 Example.locals0 Example.start true)
    as (req & _ & Hstep); [vm_compute; reflexivity|].
  exists req.
  destruct (Hstep (Some "done")
              (NavigationDecision.mk COMPLETE None "enough" None float_0_5))
    as [Hstop _]; [vm_compute; reflexivity|vm_compute; reflexivity|].
  rewrite Hstop by reflexivity. vm_compute. reflexivity.
Defined.

(** C3: when the loop ends with no extracted piece, [query] returns the fixed
    answer of [_synthesize_answer] with confidence 0.0 (and no sources), in
    the world the loop left: the synthesizer sends nothing, and the log holds
    no more synthesis requests than before the call. *)
Theorem no_extraction_short_circuit
    (json_loads : string -> option pyjson)
    (float_of_str : string -> option spec_float)
    (self : PageIndexNavigator) (index : index_ref) (query_text : string)
    (max_steps : Z) (w w1 : World) (L : Locals) :
  navigation_loop json_loads float_of_str self index query_text max_steps w =
    (Ok L, w1) ->
  extracted_pieces L = [] ->
  query json_loads float_of_str self index query_text max_steps w =
    (Ok {| QueryResult.answer := NO_INFORMATION_ANSWER;
           QueryResult.sources := [];
           QueryResult.confidence := float_0_0;
           QueryResult.navigation_path := navigation_path L;
           QueryResult.reasoning_trace := reasoning_trace L |},
     w1) /\
  synthesize_calls (chat_log w1) = synthesize_calls (chat_log w).
Proof.
  intros Hloop Hnone.
  destruct (query_run json_loads float_of_str self index query_text max_steps w)
    as (new & res & Hrun & Hloop' & Hquery).
  rewrite Hloop in Hloop'. inversion Hloop' as [[Hres Hw1]]. subst res w1.
  rewrite Hquery.
  destruct (build_result_run self index query_text L
              {| heap := heap w; chat_log := chat_log w ++ new |})
    as (new' & Hworld & _ & Hempty & _).
  destruct (Hempty Hnone) as [-> Hresult].
  assert (sources L = []) as Hsources.
  { apply loop_run_aligned in Hrun; [|reflexivity].
    rewrite Hnone in Hrun. by apply nil_length_inv. }
  split.
  - rewrite (surjective_pairing (build_result self index query_text L _)).
    rewrite Hresult, Hworld, Hsources. cbn. by rewrite app_nil_r.
  - cbn [chat_log]. rewrite synthesize_calls_app.
    apply loop_run_calls in Hrun as [Hnav _].
    apply only_navigate_calls in Hnav as [_ ->]. lia.
Qed.

Lemma no_extraction_short_circuit_witness :
  fst (Example.run [Example.says "to-policy"; Example.says "done"] 15) =
  Ok {| QueryResult.answer := "Unable to find relevant information in the document.";
        QueryResult.sources := [];
        QueryResult.confidence := S754_zero false;
        QueryResult.navigation_path := ["root"; "Policy"];
        QueryResult.reasoning_trace :=
          ["Step 1: descend - policies live here"; "Step 2: complete - enough"] |}.
Proof.
  unfold Example.run.
  pose (loop := navigation_loop (Example.table_loads Example.replies)
                  Example.no_float
                  (Example.navigator [Example.says "to-policy"; Example.says "done"])
                  0 "What is the markdown policy for dairy?" 15 Example.start).
  destruct (no_extraction_short_circuit (Example.table_loads Example.replies)
              Example.no_float
              (Example.navigator [Example.says "to-policy"; Example.says "done"])
              0 "What is the markdown policy for dairy?" 15 Example.start
              (snd loop)
              {| current_node := 1;
                 navigation_path := ["root"; "Policy"];
                 reasoning_trace :=
                   ["Step 1: descend - policies live here";
                    "Step 2: complete - enough"];
                 extracted_pieces := [];
                 sources := [];
                 decision :=
                   Some (NavigationDecision.mk COMPLETE None "enough" None float_0_5) |})
    as [-> _]; [vm_compute; reflexivity|reflexivity|reflexivity].
Defined.

(** C6: applying a decision keeps [sources] as long as [extracted_pieces]:
    an EXTRACT with non-empty text appends the text to [extracted_pieces] and
    the label ["{id}: {title}"] of the current node to [sources], at the same
    index; every other decision (an EXTRACT without text included) changes
    neither list.  Hence the two lists have the same length in the local
    variables the loop returns, whatever the step budget.

    Every step of the loop does this with the decision it obtained: an
    iteration whose reply parses to [d] ends with the lists of the step
    before extended by the pair [d] adds on the current node, and an
    iteration that ends normally is of that kind and keeps the lengths equal.
    After the whole loop [extracted_pieces] and [sources] are the texts and
    the labels of one list of pairs: those the decisions of the run's
    exchanges add, in order, the cursor starting on the root and moving as
    the decisions say. *)
Theorem sources_aligned_with_pieces
    (json_loads : string -> option pyjson)
    (float_of_str : string -> option spec_float)
    (self : PageIndexNavigator) (index : index_ref) (query_text : string) :
  (forall h step d L,
     length (sources L) = length (extracted_pieces L) ->
     length (sources (snd (apply_decision h step d L))) =
       length (extracted_pieces (snd (apply_decision h step d L))) /\
     match NavigationDecision.action d, NavigationDecision.extracted_info d with
     | EXTRACT, Some (String c rest) =>
         extracted_pieces (snd (apply_decision h step d L)) =
           extracted_pieces L ++ [String c rest] /\
         sources (snd (apply_decision h step d L)) =
           sources L ++
           [DocumentNode.id (nodes h (current_node L)) +:+ ": "
              +:+ DocumentNode.title (nodes h (current_node L))]
     | _, _ =>
         extracted_pieces (snd (apply_decision h step d L)) = extracted_pieces L /\
         sources (snd (apply_decision h step d L)) = sources L
     end) /\
  (forall max_steps w L w',
     navigation_loop json_loads float_of_str self index query_text max_steps w =
       (Ok L, w') ->
     length (sources L) = length (extracted_pieces L)) /\
  (forall step L w business,
     is_business_document (document_type (indexes (heap w) index)) = Ok business ->
     exists req,
       response_format req = Some "json_object" /\
       forall content d,
         client self (chat_log w) req = Message content ->
         parse_decision json_loads float_of_str content = Ok d ->
         exists c L1,
           loop_body json_loads float_of_str self index query_text step L w =
             (Ok (c, L1), log_call w req (Message content)) /\
           extracted_pieces L1 =
             extracted_pieces L ++
             map fst (extraction (heap w) (current_node L) d) /\
           sources L1 =
             sources L ++ map snd (extraction (heap w) (current_node L) d)) /\
  (forall step L w c L1 w1,
     loop_body json_loads float_of_str self index query_text step L w =
       (Ok (c, L1), w1) ->
     exists req content d,
       w1 = log_call w req (Message content) /\
       response_format req = Some "json_object" /\
       client self (chat_log w) req = Message content /\
       parse_decision json_loads float_of_str content = Ok d /\
       (c, L1) = apply_decision (heap w) step d L /\
       extracted_pieces L1 =
         extracted_pieces L ++ map fst (extraction (heap w) (current_node L) d) /\
       sources L1 =
         sources L ++ map snd (extraction (heap w) (current_node L) d) /\
       (length (sources L) = length (extracted_pieces L) ->
        length (sources L1) = length (extracted_pieces L1))) /\
  (forall max_steps w L w' new,
     navigation_loop json_loads float_of_str self index query_text max_steps w =
       (Ok L, w') ->
     chat_log w' = chat_log w ++ new ->
     extracted_pieces L =
       map fst (evidence (heap w) (DocumentIndex.root (indexes (heap w) index))
                  (decisions_of json_loads float_of_str new)) /\
     sources L =
       map snd (evidence (heap w) (DocumentIndex.root (indexes (heap w) index))
                  (decisions_of json_loads float_of_str new)) /\
     length (decisions_of json_loads float_of_str new) = length new).
Proof.
  split; [|split; [|split; [|split]]].
  - intros h step d L Hlen. split; [by apply apply_decision_aligned|].
    unfold apply_decision.
    destruct (NavigationDecision.action d);
      repeat case_match; by cbn.
  - intros max_steps w L w' Hloop.
    destruct (navigation_loop_run json_loads float_of_str self index query_text
                max_steps w) as (new & res & Hrun & Hloop').
    rewrite Hloop in Hloop'. inversion Hloop'; subst.
    by apply loop_run_aligned in Hrun.
  - intros step L w business Hdoc.
    pose proof (loop_body_run json_loads float_of_str self index query_text
                  step L w) as Hbody.
    rewrite Hdoc in Hbody. destruct Hbody as (req & Hfmt & Hbody).
    exists req. split; [exact Hfmt|].
    intros content d Hreply Hparse. rewrite Hreply, Hparse in Hbody.
    destruct (apply_decision_extraction (heap w) step d L) as [Hpieces Hsources].
    destruct (apply_decision (heap w) step d L) as [c L1].
    by exists c, L1.
  - intros step L w c L1 w1 Hstep.
    pose proof (loop_body_run json_loads float_of_str self index query_text
                  step L w) as Hbody.
    destruct (is_business_document _) as [business|e].
    2: { rewrite Hbody in Hstep. discriminate. }
    destruct Hbody as (req & Hfmt & Hbody). rewrite Hbody in Hstep.
    destruct (client self (chat_log w) req) as [e|content] eqn:Hreply;
      [discriminate|].
    destruct (parse_decision json_loads float_of_str content) as [d|e] eqn:Hparse;
      [|discriminate].
    inversion Hstep as [[Happlied Hworld]].
    exists req, content, d.
    destruct (apply_decision_extraction (heap w) step d L) as [Hpieces Hsources].
    pose proof (apply_decision_aligned (heap w) step d L) as Haligned.
    rewrite Happlied in Hpieces, Hsources, Haligned.
    by repeat split.
  - intros max_steps w L w' new Hloop Hlog.
    destruct (navigation_loop_run json_loads float_of_str self index query_text
                max_steps w) as (new0 & res & Hrun & Hloop').
    rewrite Hloop in Hloop'. inversion Hloop'; subst.
    cbn [chat_log] in Hlog. apply app_inv_head in Hlog. subst new0.
    by apply loop_run_evidence in Hrun.
Qed.

Lemma sources_aligned_with_pieces_witness :
  exists L,
    fst (navigation_loop (Example.table_loads Example.replies) Example.no_float
           (Example.navigator [Example.says "to-policy"; Example.says "take";
                               Example.says "done"])
           0 "What is the markdown policy for dairy?" 15 Example.start) = Ok L /\
    extracted_pieces L = ["Dairy markdown: 20% after 3 days"] /\
    sources L = ["Policy: Policy"].
Proof.
  pose (loop := navigation_loop (Example.table_loads Example.replies)
                  Example.no_float
                  (Example.navigator [Example.says "to-policy"; Example.says "take";
                                      Example.says "done"])
                  0 "What is the markdown policy for dairy?" 15 Example.start).
  pose (L := {| current_node := 1;
                navigation_path := ["root"; "Policy"];
                reasoning_trace :=
                  ["Step 1: descend - policies live here";
                   "Step 2: extract - found"; "Step 3: complete - enough"];
                extracted_pieces := ["Dairy markdown: 20% after 3 days"];
                sources := ["Policy: Policy"];
                decision :=
                  Some (NavigationDecision.mk COMPLETE None "enough" None
                          float_0_5) |}).
  exists L. split; [vm_compute; reflexivity|].
  destruct (proj2 (proj2 (proj2 (proj2
              (sources_aligned_with_pieces
                 (Example.table_loads Example.replies) Example.no_float
                 (Example.navigator [Example.says "to-policy"; Example.says "take";
                                     Example.says "done"])
                 0 "What is the markdown policy for dairy?"))))
              15%Z Example.start L (snd loop) (chat_log (snd loop)))
    as (Hpieces & Hsources & _);
    [vm_compute; reflexivity|reflexivity|].
  rewrite Hpieces, Hsources. split; vm_compute; reflexivity.
Defined.

(** C8: the confidence of the result is computed without error from the
    local variables the loop leaves.  With no extracted piece it is 0.0; with
    at least one it is the confidence of the decision parsed from the latest
    navigate exchange of the run, whatever the action of that decision. *)
Theorem result_confidence_is_last_decision
    (json_loads : string -> option pyjson)
    (float_of_str : string -> option spec_float)
    (self : PageIndexNavigator) (index : index_ref) (query_text : string)
    (max_steps : Z) (w w1 : World) (L : Locals) :
  navigation_loop json_loads float_of_str self index query_text max_steps w =
    (Ok L, w1) ->
  exists c,
    result_confidence L = Ok c /\
    (forall r w',
       query json_loads float_of_str self index query_text max_steps w = (Ok r, w') ->
       QueryResult.confidence r = c) /\
    match extracted_pieces L with
    | [] => c = float_0_0
    | _ :: _ =>
        exists new d,
          chat_log w1 = chat_log w ++ new /\
          last_decision json_loads float_of_str new = Some (Ok d) /\
          c = NavigationDecision.confidence d
    end.
Proof.
  intros Hloop.
  destruct (query_run json_loads float_of_str self index query_text max_steps w)
    as (new & res & Hrun & Hloop' & Hquery).
  rewrite Hloop in Hloop'. inversion Hloop' as [[Hres Hw1]]. subst res w1.
  assert (forall c, result_confidence L = Ok c ->
          forall r w',
            query json_loads float_of_str self index query_text max_steps w =
              (Ok r, w') ->
            QueryResult.confidence r = c) as Hresult.
  { intros c Hc r w' Hq. rewrite Hquery in Hq.
    destruct (build_result_run self index query_text L
                {| heap := heap w; chat_log := chat_log w ++ new |})
      as (_ & _ & _ & _ & Hconf).
    specialize (Hconf r). rewrite Hq in Hconf.
    specialize (Hconf eq_refl). congruence. }
  destruct (extracted_pieces L) as [|piece pieces] eqn:Hpieces.
  - exists float_0_0. unfold result_confidence in *. rewrite Hpieces in *.
    split; [reflexivity|split; [by apply Hresult|reflexivity]].
  - apply loop_run_last_decision in Hrun as [[_ ->]|(d & Hd & Hlast)];
      [discriminate|].
    exists (NavigationDecision.confidence d).
    assert (result_confidence L = Ok (NavigationDecision.confidence d)) as Hc.
    { unfold result_confidence. by rewrite Hpieces, Hd. }
    split; [exact Hc|split; [by apply Hresult|]].
    by exists new, d.
Qed.

Lemma result_confidence_is_last_decision_witness :
  exists r,
    fst (Example.run [Example.says "to-policy"; Example.says "take";
                      Example.says "done"; Example.says "20% after 3 days."] 15) =
      Ok r /\
    QueryResult.confidence r = float_0_5.
Proof.
  pose (script := [Example.says "to-policy"; Example.says "take";
                   Example.says "done"; Example.says "20% after 3 days."]).
  pose (loop := navigation_loop (Example.table_loads Example.replies)
                  Example.no_float (Example.navigator script) 0
                  "What is the markdown policy for dairy?" 15 Example.start).
  destruct (result_confidence_is_last_decision
              (Example.table_loads Example.replies) Example.no_float
              (Example.navigator script) 0
              "What is the markdown policy for dairy?" 15 Example.start
              (snd loop)
              {| current_node := 1;
                 navigation_path := ["root"; "Policy"];
                 reasoning_trace :=
                   ["Step 1: descend - policies live here";
                    "Step 2: extract - found"; "Step 3: complete - enough"];
                 extracted_pieces := ["Dairy markdown: 20% after 3 days"];
                 sources := ["Policy: Policy"];
                 decision :=
                   Some (NavigationDecision.mk COMPLETE None "enough" None float_0_5) |})
    as (c & Hc & Hquery & _); [vm_compute; reflexivity|].
  injection Hc as <-.
  eexists. split; [vm_compute; reflexivity|].
  apply Hquery with (w' := snd (Example.run script 15)).
  vm_compute. reflexivity.
Defined.

(** The scenario of a three-level manual: two descents, an extraction and
    COMPLETE.  The confidence returned is the default 0.5 of the last
    decision, not the 1.0 reported with the extraction. *)
Example markdown_scenario :
  fst (Example.run [Example.says "to-policy"; Example.says "to-rules";
                    Example.says "take"; Example.says "done";
                    Example.says "20% after 3 days."] 15) =
  Ok {| QueryResult.answer := "20% after 3 days.";
        QueryResult.sources := ["Markdown Rules: Markdown Rules"];
        QueryResult.confidence := float_0_5;
        QueryResult.navigation_path := ["root"; "Policy"; "Markdown Rules"];
        QueryResult.reasoning_trace :=
          ["Step 1: descend - policies live here";
           "Step 2: descend - markdown rules";
           "Step 3: extract - found";
           "Step 4: complete - enough"] |}.
Proof. vm_compute. reflexivity. Qed.

(** ** Replies that do not parse *)

(** C1 (as amended): no fallback decision is substituted for a reply that
    does not parse.  If any navigate exchange of a run carries a reply whose
    parse raises, [query] raises that exception to its caller and returns no
    [QueryResult]: [JSONDecodeError] for text that is not JSON, [ValueError]
    for an action token that names no [NavigationAction].  COMPLETE is the
    default only of a reply object that has no [action] entry. *)
Theorem unparsed_reply_raises
    (json_loads : string -> option pyjson)
    (float_of_str : string -> option spec_float)
    (self : PageIndexNavigator) (index : index_ref) (query_text : string) :
  (forall max_steps w new req content e,
     chat_log (snd (query json_loads float_of_str self index query_text
                      max_steps w)) = chat_log w ++ new ->
     (req, Message content) ∈ new ->
     is_navigate (req, Message content) = true ->
     parse_decision json_loads float_of_str content = Raise e ->
     fst (query json_loads float_of_str self index query_text max_steps w) =
       Raise e) /\
  (forall text,
     json_loads text = None ->
     parse_decision json_loads float_of_str (Some text) = Raise JSONDecodeError) /\
  (forall text items token,
     json_loads text = Some (JDict items) ->
     dict_get "action" items = Some (JStr token) ->
     (forall a, NavigationAction_value a <> token) ->
     parse_decision json_loads float_of_str (Some text) = Raise ValueError) /\
  (forall text items d,
     json_loads text = Some (JDict items) ->
     dict_get "action" items = None ->
     parse_decision json_loads float_of_str (Some text) = Ok d ->
     NavigationDecision.action d = COMPLETE).
Proof.
  split; [|split; [|split]].
  - intros max_steps w new req content e Hlog Hin Hnav Hparse.
    destruct (query_run json_loads float_of_str self index query_text max_steps w)
      as (new1 & res & Hrun & _ & Hquery).
    rewrite Hquery in *. destruct res as [L|e'].
    + destruct (build_result_run self index query_text L
                  {| heap := heap w; chat_log := chat_log w ++ new1 |})
        as (new2 & Hworld & Hsyn & _).
      rewrite Hworld in Hlog. cbn [chat_log] in Hlog.
      rewrite <- app_assoc in Hlog. apply app_inv_head in Hlog. subst new.
      apply elem_of_app in Hin as [Hin|Hin].
      * by pose proof (loop_run_unparsed _ _ _ _ _ _ _ _ _ _ _ _ _ _
                         Hrun Hin Hparse).
      * rewrite Forall_forall in Hsyn. apply Hsyn in Hin. congruence.
    + cbn [snd chat_log] in Hlog. apply app_inv_head in Hlog. subst new.
      cbn [fst].
      pose proof (loop_run_unparsed _ _ _ _ _ _ _ _ _ _ _ _ _ _ Hrun Hin Hparse)
        as Hraise.
      by injection Hraise as ->.
  - intros text Hjson. unfold parse_decision. cbn [rbind]. by rewrite Hjson.
  - intros text items token Hjson Haction Hunknown.
    unfold parse_decision. cbn [rbind]. rewrite Hjson.
    unfold result_get_default, result_get. cbn [rbind]. rewrite Haction.
    cbv beta iota delta [default from_option id NavigationAction_of].
    destruct (String.eqb_spec token "descend") as [->|_];
      [by destruct (Hunknown DESCEND)|].
    destruct (String.eqb_spec token "extract") as [->|_];
      [by destruct (Hunknown EXTRACT)|].
    destruct (String.eqb_spec token "backtrack") as [->|_];
      [by destruct (Hunknown BACKTRACK)|].
    destruct (String.eqb_spec token "complete") as [->|_];
      [by destruct (Hunknown COMPLETE)|].
    reflexivity.
  - intros text items d Hjson Haction Hparse.
    unfold parse_decision in Hparse. cbn [rbind] in Hparse.
    rewrite Hjson in Hparse.
    unfold result_get_default, result_get, rbind in Hparse.
    rewrite Haction in Hparse. cbn [default NavigationAction_of] in Hparse.
    cbn in Hparse.
    repeat (case_match; try discriminate).
    by inversion Hparse.
Qed.

Lemma unparsed_reply_raises_witness :
  fst (Example.run [Example.says "not json"] 15) = Raise JSONDecodeError.
Proof.
  pose (log := chat_log (snd (Example.run [Example.says "not json"] 15))).
  pose (first_request :=
          fst (hd (navigation_request (Example.navigator []) "" "", Message None)
                 log)).
  apply (proj1 (unparsed_reply_raises (Example.table_loads Example.replies)
                  Example.no_float
                  (Example.navigator [Example.says "not json"]) 0
                  "What is the markdown policy for dairy?")
           15%Z Example.start log first_request (Some "not json")).
  - reflexivity.
  - vm_compute. constructor.
  - reflexivity.
  - reflexivity.
Defined.

(** C1 (as stated) fails: on a first reply that is not JSON, and on one whose
    action token is unknown, [query] raises instead of returning a result. *)
Lemma unparseable_reply_escapes_query :
  fst (Example.run [Example.says "not json"] 15) = Raise JSONDecodeError /\
  fst (Example.run [Example.says "fly"] 15) = Raise ValueError /\
  ~ (forall script,
       exists r, fst (Example.run script 15) = Ok r).
Proof.
  split; [vm_compute; reflexivity|split; [vm_compute; reflexivity|]].
  intros Hclaim. destruct (Hclaim [Example.says "not json"]) as [r Hr].
  vm_compute in Hr. discriminate Hr.
Qed.

(** ** Strings: prefixes and lengths *)

Lemma length_append (s t : string) :
  String.length (s +:+ t) = String.length s + String.length t.
Proof.
  induction s as [|c s IH]; [done|].
  simpl. by rewrite IH.
Qed.

Lemma length_prefix_chars (n : nat) (s : string) :
  String.length (prefix_chars n s) = Nat.min n (String.length s).
Proof.
  unfold prefix_chars. revert s.
  induction n as [|n IH]; intros [|c s]; cbn; try done.
  by rewrite IH.
Qed.

Lemma prefix_chars_all (n : nat) (s : string) :
  String.length s <= n -> prefix_chars n s = s.
Proof.
  unfold prefix_chars. revert s.
  induction n as [|n IH]; intros [|c s]; cbn; intros Hlen; try done; [lia|].
  rewrite IH; [done|lia].
Qed.

Lemma prefix_chars_append (n : nat) (s t : string) :
  n <= String.length s -> prefix_chars n (s +:+ t) = prefix_chars n s.
Proof.
  unfold prefix_chars. revert s.
  induction n as [|n IH]; intros [|c s]; simpl; intros Hlen; try done.
  - by destruct t.
  - lia.
  - rewrite IH; [done|lia].
Qed.

Lemma prefix_chars_twice (n m : nat) (s : string) :
  n <= m -> prefix_chars n (prefix_chars m s) = prefix_chars n s.
Proof.
  unfold prefix_chars. revert m s.
  induction n as [|n IH]; intros [|m] [|c s] Hle; cbn; try done; try lia.
  rewrite IH; [done|lia].
Qed.

(** ** Content previews *)

(** X1: a preview never exceeds [max_chars + 3] characters and agrees with
    the content on its first [max_chars] characters; content that fits
    (empty content included) is returned as it is, and clipped content has
    exactly [max_chars + 3] characters. *)
Theorem get_content_preview_clips (self : DocumentNode.t) (max_chars : nat) :
  String.length (DocumentNode.get_content_preview self max_chars) <= max_chars + 3 /\
  prefix_chars max_chars (DocumentNode.get_content_preview self max_chars) =
    prefix_chars max_chars (DocumentNode.content self) /\
  (String.length (DocumentNode.content self) <= max_chars ->
   DocumentNode.get_content_preview self max_chars = DocumentNode.content self) /\
  (max_chars < String.length (DocumentNode.content self) ->
   String.length (DocumentNode.get_content_preview self max_chars) = max_chars + 3).
Proof.
  unfold DocumentNode.get_content_preview.
  destruct (Nat.leb_spec (String.length (DocumentNode.content self)) max_chars)
    as [Hfits|Hlong].
  - split; [lia|split; [done|split; [done|lia]]].
  - assert (String.length
              (prefix_chars max_chars (DocumentNode.content self) +:+ "...") =
            max_chars + 3) as Hlen.
    { rewrite length_append, length_prefix_chars. cbn [String.length]. lia. }
    split; [lia|split; [|split; [lia|done]]].
    rewrite prefix_chars_append by (rewrite length_prefix_chars; lia).
    by apply prefix_chars_twice.
Qed.

Lemma get_content_preview_clips_witness :
  String.length (DocumentNode.get_content_preview Sample.long_node 10) = 13.
Proof.
  apply (get_content_preview_clips Sample.long_node 10).
  cbn. lia.
Defined.

(** ** The table of contents *)

Lemma elem_of_concat {A} (x : A) (ls : list (list A)) :
  x ∈ concat ls -> exists l, x ∈ l /\ l ∈ ls.
Proof.
  induction ls as [|l ls IH]; cbn; intros Hin.
  - by apply elem_of_nil in Hin.
  - apply elem_of_app in Hin as [Hin|Hin].
    + exists l. split; [done|left].
    + destruct (IH Hin) as (l' & Hx & Hl'). exists l'. split; [done|by right].
Qed.

Lemma foldl_build_toc fuel h levels current_depth max_depth :
  (forall self lines,
     _build_toc fuel h self lines (current_depth + 1) max_depth =
     Some (lines ++ toc_lines levels h self (current_depth + 1))) ->
  forall (children : list (string * node_ref)) lines,
    foldl
      (fun acc child =>
         match acc with
         | Some lines =>
             _build_toc fuel h (snd child) lines (current_depth + 1) max_depth
         | None => None
         end)
      (Some lines) children =
    Some (lines ++
          concat (map (fun child => toc_lines levels h (snd child) (current_depth + 1))
                    children)).
Proof.
  intros Hcall children.
  induction children as [|child children IH]; intros lines.
  - cbn. by rewrite app_nil_r.
  - cbn [foldl map concat]. rewrite Hcall, IH. by rewrite <- app_assoc.
Qed.

(** With fuel beyond the levels left, [_build_toc] returns the shared list
    extended with the outline. *)
Lemma build_toc_lines fuel : forall h self lines current_depth max_depth,
  Z.to_nat (max_depth - current_depth) < fuel ->
  _build_toc fuel h self lines current_depth max_depth =
  Some (lines ++ toc_lines (Z.to_nat (max_depth - current_depth)) h self current_depth).
Proof.
  induction fuel as [|fuel IH]; intros h self lines current_depth max_depth Hfuel;
    [lia|].
  cbn [_build_toc].
  destruct (Z.ltb_spec current_depth max_depth) as [Hdeeper|Hbottom].
  - replace (Z.to_nat (max_depth - current_depth))
      with (S (Z.to_nat (max_depth - (current_depth + 1)))) in * by lia.
    cbn [toc_lines].
    rewrite (foldl_build_toc fuel h (Z.to_nat (max_depth - (current_depth + 1)))).
    + by rewrite <- app_assoc.
    + intros child lines'. apply IH. lia.
  - replace (Z.to_nat (max_depth - current_depth)) with 0 by lia.
    reflexivity.
Qed.

(** X2: whatever the heap, cycles among the nodes included,
    [_build_toc] returns once its fuel exceeds [max_depth - current_depth],
    and then more fuel changes nothing.  It keeps the lines already in the
    shared list and appends the line of the node followed by the outlines of
    its children, in insertion order and one level deeper, down to
    [max_depth]. *)
Theorem build_toc_outline
    (fuel : nat) (h : Heap) (self : node_ref) (lines : list string)
    (current_depth max_depth : Z) :
  Z.to_nat (max_depth - current_depth) < fuel ->
  _build_toc fuel h self lines current_depth max_depth =
    Some (lines ++ toc_lines (Z.to_nat (max_depth - current_depth)) h self
                     current_depth) /\
  _build_toc fuel h self lines current_depth max_depth =
    _build_toc (S (Z.to_nat (max_depth - current_depth))) h self lines
      current_depth max_depth.
Proof.
  intros Hfuel. rewrite !build_toc_lines by lia. done.
Qed.

Lemma build_toc_outline_witness :
  _build_toc 3 Sample.cyclic 0 ["Contents"] 0 2 =
  Some ["Contents"; "- A: Loop"; "  - A: Loop"; "    - A: Loop"].
Proof.
  rewrite (proj1 (build_toc_outline 3 Sample.cyclic 0 ["Contents"] 0 2 ltac:(cbn; lia))).
  reflexivity.
Defined.

(** X3: [get_table_of_contents] always returns.  With [max_depth <= 0] the
    outline is the single line ["- {id}: {title}"] of the node, whatever
    children it has. *)
Theorem get_table_of_contents_total (h : Heap) (self : node_ref) (max_depth : Z) :
  get_table_of_contents h self max_depth =
    Some (join nl (toc_lines (Z.to_nat max_depth) h self 0)) /\
  ((max_depth <= 0)%Z ->
   get_table_of_contents h self max_depth =
     Some ("- " +:+ DocumentNode.id (nodes h self) +:+ ": "
             +:+ DocumentNode.title (nodes h self))).
Proof.
  assert (get_table_of_contents h self max_depth =
          Some (join nl (toc_lines (Z.to_nat max_depth) h self 0))) as Htoc.
  { unfold get_table_of_contents.
    rewrite build_toc_lines by lia.
    by replace (max_depth - 0)%Z with max_depth by lia. }
  split; [exact Htoc|].
  intros Hflat. rewrite Htoc.
  replace (Z.to_nat max_depth) with 0 by lia.
  reflexivity.
Qed.

Lemma get_table_of_contents_total_witness :
  get_table_of_contents Example.store 0 (-1) = Some "- root: Store Manual".
Proof.
  rewrite (proj2 (get_table_of_contents_total Example.store 0 (-1)) ltac:(lia)).
  reflexivity.
Defined.

Lemma toc_lines_depths (levels : nat) (h : Heap) (self : node_ref)
    (current_depth : Z) (line : string) :
  line ∈ toc_lines levels h self current_depth ->
  exists node depth,
    (current_depth <= depth <= current_depth + Z.of_nat levels)%Z /\
    line = toc_line h node depth.
Proof.
  revert self current_depth.
  induction levels as [|levels IH]; intros self current_depth Hin; cbn in Hin.
  - apply list_elem_of_singleton in Hin as ->.
    exists self, current_depth. split; [lia|done].
  - apply elem_of_cons in Hin as [->|Hin].
    { exists self, current_depth. split; [lia|done]. }
    apply elem_of_concat in Hin as (lines & Hline & Hlines).
    apply list_elem_of_fmap in Hlines as (child & -> & _).
    destruct (IH _ _ Hline) as (node & depth & Hdepth & ->).
    exists node, depth. split; [lia|done].
Qed.

(** X4: every line [_build_toc] returns was in the shared list already or
    is the line of some node, indented for a depth between [current_depth]
    and [max_depth] (for [current_depth] itself when [max_depth] is
    smaller). *)
Theorem build_toc_line_depths
    (fuel : nat) (h : Heap) (self : node_ref) (lines out : list string)
    (current_depth max_depth : Z) (line : string) :
  Z.to_nat (max_depth - current_depth) < fuel ->
  _build_toc fuel h self lines current_depth max_depth = Some out ->
  line ∈ out ->
  line ∈ lines \/
  exists node depth,
    (current_depth <= depth <= Z.max current_depth max_depth)%Z /\
    line = indent depth +:+ "- " +:+ DocumentNode.id (nodes h node) +:+ ": "
             +:+ DocumentNode.title (nodes h node).
Proof.
  intros Hfuel Hout Hin.
  rewrite build_toc_lines in Hout by done. injection Hout as <-.
  apply elem_of_app in Hin as [Hin|Hin]; [by left|right].
  destruct (toc_lines_depths _ _ _ _ _ Hin) as (node & depth & Hdepth & ->).
  exists node, depth. split; [lia|reflexivity].
Qed.

Lemma build_toc_line_depths_witness :
  "    - Markdown Rules: Markdown Rules" ∈ ["Contents"] \/
  exists node depth,
    (0 <= depth <= Z.max 0 2)%Z /\
    "    - Markdown Rules: Markdown Rules" =
    indent depth +:+ "- " +:+ DocumentNode.id (nodes Example.store node) +:+ ": "
      +:+ DocumentNode.title (nodes Example.store node).
Proof.
  apply (build_toc_line_depths 3 Example.store 0 ["Contents"]
           ["Contents"; "- root: Store Manual"; "  - Policy: Policy";
            "    - Markdown Rules: Markdown Rules"] 0 2).
  - cbn. lia.
  - reflexivity.
  - do 3 right. left.
Defined.

(** ** The listing of the available sections *)

Lemma preview_nonempty (self : DocumentNode.t) (max_chars : nat) :
  nonempty (DocumentNode.get_content_preview self max_chars) =
  nonempty (DocumentNode.content self).
Proof.
  unfold DocumentNode.get_content_preview.
  destruct (Nat.leb_spec (String.length (DocumentNode.content self)) max_chars)
    as [Hfits|Hlong]; [done|].
  destruct (DocumentNode.content self) as [|c rest]; [cbn in Hlong; lia|].
  by destruct (prefix_chars max_chars (String c rest)).
Qed.

Lemma preview_prefix (self : DocumentNode.t) (shown max_chars : nat) :
  shown <= max_chars ->
  prefix_chars shown (DocumentNode.get_content_preview self max_chars) =
  prefix_chars shown (DocumentNode.content self).
Proof.
  intros Hle. unfold DocumentNode.get_content_preview.
  destruct (Nat.leb_spec (String.length (DocumentNode.content self)) max_chars)
    as [Hfits|Hlong]; [done|].
  rewrite prefix_chars_append by (rewrite length_prefix_chars; lia).
  by apply prefix_chars_twice.
Qed.

(** X5: in the listing of the available sections every child gives a header
    line and, exactly when its content is not empty, a preview line: the
    first 150 characters of the content followed by ["..."], also when
    nothing was cut.  A node without children gives the fixed leaf message;
    [n] children give between [n] and [2 n] lines. *)
Theorem available_sections_listing (h : Heap) :
  (forall child_id child_ref,
     section_lines h (child_id, child_ref) =
     ((match DocumentNode.children (nodes h child_ref) with
       | [] => "[-]"
       | _ :: _ => "[+]"
       end) +:+ " [" +:+ child_id +:+ "] "
        +:+ DocumentNode.title (nodes h child_ref))
     :: (if nonempty (DocumentNode.content (nodes h child_ref))
         then ["   Preview: "
                 +:+ prefix_chars 150 (DocumentNode.content (nodes h child_ref))
                 +:+ "..."]
         else [])) /\
  (forall node,
     DocumentNode.children (nodes h node) = [] ->
     _format_available_sections h node =
       "(No subsections - this is a leaf section)") /\
  (forall node,
     length (DocumentNode.children (nodes h node)) <=
       length (concat (map (section_lines h) (DocumentNode.children (nodes h node))))
     <= 2 * length (DocumentNode.children (nodes h node))).
Proof.
  split; [|split].
  - intros child_id child_ref. unfold section_lines.
    rewrite preview_nonempty, (preview_prefix _ 150 200) by lia.
    reflexivity.
  - intros node Hleaf. unfold _format_available_sections. by rewrite Hleaf.
  - intros node.
    induction (DocumentNode.children (nodes h node)) as [|[child_id child_ref] rest IH];
      [cbn; lia|].
    cbn [map concat]. rewrite length_app. cbn [length].
    assert (1 <= length (section_lines h (child_id, child_ref)) <= 2) as Hlines.
    { unfold section_lines. destruct (nonempty _); cbn; lia. }
    lia.
Qed.

Lemma available_sections_listing_witness :
  _format_available_sections Example.store 2 =
  "(No subsections - this is a leaf section)".
Proof.
  apply (proj1 (proj2 (available_sections_listing Example.store)) 2).
  reflexivity.
Defined.

(** ** Parsing a reply *)

(** X6: [NavigationAction(v)] succeeds exactly on the four value strings,
    with the member that has this value; on anything else (another string,
    a different case, a value that is not a string) it raises
    [ValueError]. *)
Theorem NavigationAction_of_value (v : pyjson) :
  (forall a, NavigationAction_of v = Ok a <-> v = JStr (NavigationAction_value a)) /\
  (forall e, NavigationAction_of v = Raise e -> e = ValueError).
Proof.
  assert (forall s,
            NavigationAction_of (JStr s) = Raise ValueError \/
            exists a, s = NavigationAction_value a /\
                      NavigationAction_of (JStr s) = Ok a) as Hcases.
  { intros s. cbn.
    destruct (String.eqb_spec s "descend") as [->|_]; [right; by exists DESCEND|].
    destruct (String.eqb_spec s "extract") as [->|_]; [right; by exists EXTRACT|].
    destruct (String.eqb_spec s "backtrack") as [->|_]; [right; by exists BACKTRACK|].
    destruct (String.eqb_spec s "complete") as [->|_]; [right; by exists COMPLETE|].
    by left. }
  split.
  - intros a. split.
    + destruct v as [| | | |s| |]; try discriminate.
      destruct (Hcases s) as [->|(a' & -> & ->)]; [discriminate|].
      intros Hok. by inversion Hok.
    + intros ->. by destruct a.
  - intros e. destruct v as [| | | |s| |];
      try (intros Hraise; by inversion Hraise).
    destruct (Hcases s) as [->|(a' & -> & ->)]; [|discriminate].
    intros Hraise. by inversion Hraise.
Qed.

Lemma NavigationAction_of_value_witness :
  NavigationAction_of (JStr "backtrack") = Ok BACKTRACK /\
  forall a, NavigationAction_of (JStr "DESCEND") <> Ok a.
Proof.
  split.
  - by apply (proj1 (NavigationAction_of_value (JStr "backtrack"))).
  - intros a Hok.
    apply (proj1 (NavigationAction_of_value (JStr "DESCEND"))) in Hok.
    destruct a; discriminate.
Defined.

(** X7: the confidence of a parsed decision is [float] of the reply's
    [confidence] entry and nothing else: a float is carried over unchanged,
    with no check that it lies between 0 and 1. *)
Theorem confidence_is_not_range_checked
    (json_loads : string -> option pyjson)
    (float_of_str : string -> option spec_float)
    (text : string) (items : list (string * pyjson)) (v : pyjson)
    (d : NavigationDecision.t) :
  json_loads text = Some (JDict items) ->
  dict_get "confidence" items = Some v ->
  parse_decision json_loads float_of_str (Some text) = Ok d ->
  py_float float_of_str v = Ok (NavigationDecision.confidence d) /\
  (forall f, v = JFloat f -> NavigationDecision.confidence d = f).
Proof.
  intros Hjson Hconf Hparse.
  assert (py_float float_of_str v = Ok (NavigationDecision.confidence d)) as Hfloat.
  { unfold parse_decision in Hparse. cbn [rbind] in Hparse.
    rewrite Hjson in Hparse.
    unfold result_get_default, result_get, rbind in Hparse.
    rewrite Hconf in Hparse. cbn [default from_option id] in Hparse.
    destruct (NavigationAction_of _); [|discriminate].
    destruct (py_float float_of_str v) as [f|]; [|discriminate].
    repeat (case_match; try discriminate).
    by inversion Hparse. }
  split; [exact Hfloat|].
  intros f ->. cbn in Hfloat. by inversion Hfloat.
Qed.

(** X8: a reply object that has none of the five entries, the empty object
    for one, parses to the decision COMPLETE with no target, empty
    reasoning, no extraction and confidence 0.5. *)
Theorem reply_without_entries
    (json_loads : string -> option pyjson)
    (float_of_str : string -> option spec_float)
    (text : string) (items : list (string * pyjson)) :
  json_loads text = Some (JDict items) ->
  dict_get "action" items = None ->
  dict_get "target_section" items = None ->
  dict_get "reasoning" items = None ->
  dict_get "extracted_info" items = None ->
  dict_get "confidence" items = None ->
  parse_decision json_loads float_of_str (Some text) =
  Ok (NavigationDecision.mk COMPLETE None "" None float_0_5).
Proof.
  intros Hjson Haction Htarget Hreasoning Hinfo Hconf.
  unfold parse_decision. cbn [rbind]. rewrite Hjson.
  unfold result_get_default, result_get. cbn [rbind].
  by rewrite Haction, Htarget, Hreasoning, Hinfo, Hconf.
Qed.

(** X9: a reply without content raises [TypeError]; a reply that decodes
    to JSON other than an object (a list, a string, a number, null) raises
    [AttributeError], whatever it holds. *)
Theorem reply_that_is_no_object
    (json_loads : string -> option pyjson)
    (float_of_str : string -> option spec_float) :
  parse_decision json_loads float_of_str None = Raise TypeError /\
  (forall text v,
     json_loads text = Some v ->
     (forall items, v <> JDict items) ->
     parse_decision json_loads float_of_str (Some text) = Raise AttributeError).
Proof.
  split; [reflexivity|].
  intros text v Hjson Hshape.
  unfold parse_decision. cbn [rbind]. rewrite Hjson.
  destruct v; try reflexivity. by destruct (Hshape items).
Qed.

Lemma confidence_is_not_range_checked_witness :
  NavigationDecision.confidence
    (NavigationDecision.mk COMPLETE None "certain" None Replies.seven_and_a_half) =
  Replies.seven_and_a_half.
Proof.
  apply (proj2 (confidence_is_not_range_checked
                  (Example.table_loads Replies.table) Example.no_float "sure"
                  [("reasoning", JStr "certain");
                   ("confidence", JFloat Replies.seven_and_a_half)]
                  (JFloat Replies.seven_and_a_half)
                  (NavigationDecision.mk COMPLETE None "certain" None
                     Replies.seven_and_a_half)
                  eq_refl eq_refl eq_refl)).
  reflexivity.
Defined.

Lemma reply_without_entries_witness :
  parse_decision (Example.table_loads Replies.table) Example.no_float (Some "empty") =
  Ok (NavigationDecision.mk COMPLETE None "" None float_0_5).
Proof.
  apply (reply_without_entries (Example.table_loads Replies.table) Example.no_float
           "empty" [("note", JStr "nothing to add")]); reflexivity.
Defined.

Lemma reply_that_is_no_object_witness :
  parse_decision (Example.table_loads Replies.table) Example.no_float (Some "list") =
  Raise AttributeError.
Proof.
  apply (proj2 (reply_that_is_no_object (Example.table_loads Replies.table)
                  Example.no_float) "list" (JList [JStr "descend"]));
    [reflexivity|discriminate].
Defined.

(** ** What one decision adds *)

Lemma apply_decision_trace_length h step d L :
  length (reasoning_trace L) + 1 <=
    length (reasoning_trace (snd (apply_decision h step d L))) <=
  length (reasoning_trace L) + 2.
Proof.
  unfold apply_decision.
  repeat case_match; cbn; rewrite ?length_app; cbn; lia.
Qed.

Lemma apply_decision_path h step d L :
  exists moves,
    navigation_path (snd (apply_decision h step d L)) = navigation_path L ++ moves /\
    length moves <= 1.
Proof.
  unfold apply_decision.
  repeat case_match; cbn;
    first [ by (exists []; rewrite app_nil_r; split; [done|cbn; lia])
          | by (eexists [_]; split; [done|cbn; lia]) ].
Qed.

Lemma apply_decision_pieces_length h step d L :
  length (extracted_pieces (snd (apply_decision h step d L))) <=
  length (extracted_pieces L) + 1.
Proof.
  unfold apply_decision.
  repeat case_match; cbn; rewrite ?length_app; cbn; lia.
Qed.

Lemma apply_decision_reachable h root step d L :
  reachable h root (current_node L) ->
  reachable h root (current_node (snd (apply_decision h step d L))).
Proof.
  intros Hreach. unfold apply_decision.
  destruct (NavigationDecision.action d); cbn.
  - destruct (NavigationDecision.target_section d) as [target|]; [|done].
    destruct (nonempty target); [|done].
    destruct (dict_get target _) as [child|] eqn:Hchild; [|done].
    cbn. by eapply reach_child.
  - by repeat case_match.
  - destruct (DocumentNode.parent _) as [up|] eqn:Hup; [|done].
    cbn. by eapply reach_parent.
  - done.
Qed.

Section MoreRunProperties.
Variable json_loads : string -> option pyjson.
Variable float_of_str : string -> option spec_float.
Variable self : PageIndexNavigator.
Variable h : Heap.
Variable index : index_ref.

(** The local variables a run returns, measured against its exchanges. *)
Lemma loop_run_bounds remaining step L log new L' :
  loop_run json_loads float_of_str self h index remaining step L log new (Ok L') ->
  (length (reasoning_trace L) + length new <= length (reasoning_trace L')
   <= length (reasoning_trace L) + 2 * length new) /\
  (exists moves,
     navigation_path L' = navigation_path L ++ moves /\ length moves <= length new) /\
  length (extracted_pieces L') <= length (extracted_pieces L) + length new.
Proof.
  intros Hrun. remember (Ok L') as res eqn:Hres.
  induction Hrun as [| | | | ? ? ? ? ? ? d ? ? ? ? Ha
                     | ? ? ? ? ? ? d L1 ? ? ? ? ? Ha ? IH];
    try discriminate.
  - inversion Hres; subst. cbn. split; [lia|split; [|lia]].
    exists []. by rewrite app_nil_r.
  - inversion Hres; subst.
    pose proof (apply_decision_trace_length h step d L) as Htrace.
    pose proof (apply_decision_path h step d L) as (moves & Hpath & Hmoves).
    pose proof (apply_decision_pieces_length h step d L) as Hpieces.
    rewrite Ha in *. cbn [snd length] in *.
    split; [lia|split; [|lia]]. exists moves. split; [done|lia].
  - destruct (IH Hres) as (Htrace' & (moves' & Hpath' & Hmoves') & Hpieces').
    pose proof (apply_decision_trace_length h step d L) as Htrace.
    pose proof (apply_decision_path h step d L) as (moves & Hpath & Hmoves).
    pose proof (apply_decision_pieces_length h step d L) as Hpieces.
    rewrite Ha in *. cbn [snd length] in *.
    split; [lia|split; [|lia]].
    exists (moves ++ moves'). rewrite Hpath', Hpath, length_app.
    split; [by rewrite app_assoc|lia].
Qed.

Lemma loop_run_reachable root remaining step L log new L' :
  loop_run json_loads float_of_str self h index remaining step L log new (Ok L') ->
  reachable h root (current_node L) ->
  reachable h root (current_node L').
Proof.
  intros Hrun. remember (Ok L') as res eqn:Hres.
  induction Hrun as [| | | | ? ? ? ? ? ? d ? ? ? ? Ha
                     | ? ? ? ? ? ? d L1 ? ? ? ? ? Ha ? IH];
    intros Hreach; try discriminate.
  - by inversion Hres; subst.
  - inversion Hres; subst.
    pose proof (apply_decision_reachable h root step d L Hreach) as Hnext.
    by rewrite Ha in Hnext.
  - apply IH; [done|].
    pose proof (apply_decision_reachable h root step d L Hreach) as Hnext.
    by rewrite Ha in Hnext.
Qed.

(** A failure of the client ends the run with that exception, as its last
    exchange. *)
Lemma loop_run_fails remaining step L log new res req e :
  loop_run json_loads float_of_str self h index remaining step L log new res ->
  (req, Fails e) ∈ new ->
  res = Raise e /\ last new = Some (req, Fails e).
Proof.
  intros Hrun Hin.
  induction Hrun as [| | | | | ? ? ? ? ? ? ? ? new' ? ? ? ? ? ? IH].
  - by apply elem_of_nil in Hin.
  - by apply elem_of_nil in Hin.
  - apply list_elem_of_singleton in Hin. by inversion Hin; subst.
  - apply list_elem_of_singleton in Hin. discriminate.
  - apply list_elem_of_singleton in Hin. discriminate.
  - apply elem_of_cons in Hin as [Hin|Hin]; [discriminate|].
    destruct (IH Hin) as [-> Hlast]. split; [done|].
    destruct new' as [|i new']; [by apply elem_of_nil in Hin|].
    by rewrite last_cons_cons.
Qed.
End MoreRunProperties.

(** ** The synthesis request *)

Lemma is_business_document_str (s : string) :
  exists business, is_business_document (MStr s) = Ok business.
Proof.
  unfold is_business_document, py_or, meta_contains, rbind.
  repeat case_match; eauto.
Qed.

Section Synthesis.
Variable json_loads : string -> option pyjson.
Variable float_of_str : string -> option spec_float.
Variable self : PageIndexNavigator.

(** Closes a goal about the one request sent in world [w]. *)
Ltac by_reply w L :=
  destruct (client self (chat_log w) _) as [?|[?|]];
  cbn [result_of_synthesis rbind];
  try reflexivity;
  destruct (result_confidence L); reflexivity.

(** After the loop [query] either adds nothing to the log or sends one
    synthesis request, whose reply decides the result. *)
Lemma build_result_cases index query_text L w :
  (exists r, build_result self index query_text L w = (r, w)) \/
  (exists req,
     response_format req = None /\
     build_result self index query_text L w =
     (result_of_synthesis L (client self (chat_log w) req),
      log_call w req (client self (chat_log w) req))).
Proof.
  unfold build_result, _synthesize_answer.
  destruct (extracted_pieces L) as [|piece pieces] eqn:Hpieces.
  { left. unfold bind, read_index, ret, lift, result_confidence.
    rewrite Hpieces. eauto. }
  unfold bind, read_index, ret, raise, lift. cbv beta iota.
  destruct (is_business_document _) as [business|e]; [|left; eauto].
  destruct business.
  - right. unfold chat_create. cbv beta iota zeta.
    match goal with
    | |- context [client self (chat_log w) ?r] => exists r
    end.
    split; [reflexivity|]. by_reply w L.
  - destruct (py_or _ _) as [filing|e]; [|left; eauto].
    right. unfold chat_create. cbv beta iota zeta.
    match goal with
    | |- context [client self (chat_log w) ?r] => exists r
    end.
    split; [reflexivity|]. by_reply w L.
Qed.

(** With evidence and a document type that is a string the synthesis
    request is always sent; it carries the prompt built from the query, the
    pieces and the sources. *)
Lemma build_result_call index query_text L w piece pieces s :
  extracted_pieces L = piece :: pieces ->
  document_type (indexes (heap w) index) = MStr s ->
  exists system_content,
    build_result self index query_text L w =
    (result_of_synthesis L
       (client self (chat_log w)
          (synthesis_request self system_content
             (synthesis_prompt query_text (extracted_pieces L) (sources L) (MStr s)))),
     log_call w
       (synthesis_request self system_content
          (synthesis_prompt query_text (extracted_pieces L) (sources L) (MStr s)))
       (client self (chat_log w)
          (synthesis_request self system_content
             (synthesis_prompt query_text (extracted_pieces L) (sources L) (MStr s))))).
Proof.
  intros Hpieces Hdoc.
  unfold build_result, _synthesize_answer.
  unfold bind at 1. unfold read_index. cbv beta iota.
  rewrite Hdoc, Hpieces.
  unfold bind, ret, raise, lift. cbv beta iota.
  destruct (is_business_document_str s) as [business ->].
  destruct business.
  - unfold chat_create. cbv beta iota zeta.
    match goal with
    | |- context [synthesis_request self ?sc _] => exists sc
    end.
    by_reply w L.
  - cbn [py_or meta_contains rbind].
    destruct (contains "SEC" s); unfold chat_create; cbv beta iota zeta.
    all: match goal with
         | |- context [synthesis_request self ?sc _] => exists sc
         end; by_reply w L.
Qed.
End Synthesis.

(** ** More on the whole query *)

(** X10: a failure of the client, at a navigate request or at the synthesis
    request, is not caught: [query] raises the client's exception, and the
    failed exchange is the last one of the run. *)
Theorem client_failure_raises
    (json_loads : string -> option pyjson)
    (float_of_str : string -> option spec_float)
    (self : PageIndexNavigator) (index : index_ref) (query_text : string)
    (max_steps : Z) (w : World) (new : list interaction) (req : request) (e : exn) :
  chat_log (snd (query json_loads float_of_str self index query_text max_steps w)) =
    chat_log w ++ new ->
  (req, Fails e) ∈ new ->
  fst (query json_loads float_of_str self index query_text max_steps w) = Raise e /\
  last new = Some (req, Fails e).
Proof.
  intros Hlog Hin.
  destruct (query_run json_loads float_of_str self index query_text max_steps w)
    as (new1 & res & Hrun & _ & Hquery).
  rewrite Hquery in *. destruct res as [L|e'].
  - destruct (build_result_cases self index query_text L
                {| heap := heap w; chat_log := chat_log w ++ new1 |})
      as [[r Hnone]|(req' & _ & Hcall)].
    + rewrite Hnone in *. cbn [snd chat_log] in Hlog.
      apply app_inv_head in Hlog. subst new.
      by destruct (loop_run_fails _ _ _ _ _ _ _ _ _ _ _ _ _ Hrun Hin).
    + rewrite Hcall in *. cbn [snd fst chat_log log_call] in *.
      rewrite <- app_assoc in Hlog. apply app_inv_head in Hlog. subst new.
      apply elem_of_app in Hin as [Hin|Hin].
      { by destruct (loop_run_fails _ _ _ _ _ _ _ _ _ _ _ _ _ Hrun Hin). }
      apply list_elem_of_singleton in Hin. injection Hin as Hreq Hfails.
      subst req'. rewrite <- Hfails. split; [reflexivity|]. by rewrite last_snoc.
  - cbn [snd fst chat_log] in *. apply app_inv_head in Hlog. subst new.
    destruct (loop_run_fails _ _ _ _ _ _ _ _ _ _ _ _ _ Hrun Hin) as [Hres Hlast].
    split; [|exact Hlast]. by inversion Hres.
Qed.

Lemma client_failure_raises_witness :
  fst (Example.run [Example.says "to-policy"; Fails (ClientError 503)] 15) =
  Raise (ClientError 503).
Proof.
  pose (log := chat_log (snd (Example.run [Example.says "to-policy";
                                           Fails (ClientError 503)] 15))).
  pose (failed :=
          fst (default (navigation_request (Example.navigator []) "" "", Message None)
                 (last log))).
  apply (client_failure_raises (Example.table_loads Example.replies)
           Example.no_float
           (Example.navigator [Example.says "to-policy"; Fails (ClientError 503)])
           0 "What is the markdown policy for dairy?" 15%Z Example.start
           log failed (ClientError 503)).
  - reflexivity.
  - vm_compute. right. left.
Defined.

(** X11: once the loop has gathered evidence on a document whose type is a
    string, [query] sends exactly one more request, the synthesis request
    built from the query, the pieces and the sources, and returns the
    content of the reply verbatim as the answer, with the sources, path and
    trace of the loop and the confidence of its last decision; a reply
    without content is a [ValidationError]. *)
Theorem synthesis_is_returned_verbatim
    (json_loads : string -> option pyjson)
    (float_of_str : string -> option spec_float)
    (self : PageIndexNavigator) (index : index_ref) (query_text : string)
    (max_steps : Z) (w w1 : World) (L : Locals)
    (piece : string) (pieces : list string) (s : string) :
  navigation_loop json_loads float_of_str self index query_text max_steps w =
    (Ok L, w1) ->
  extracted_pieces L = piece :: pieces ->
  document_type (indexes (heap w) index) = MStr s ->
  exists system_content d,
    decision L = Some d /\
    query json_loads float_of_str self index query_text max_steps w =
    (match client self (chat_log w1)
             (synthesis_request self system_content
                (synthesis_prompt query_text (extracted_pieces L) (sources L)
                   (MStr s))) with
     | Fails e => Raise e
     | Message None => Raise ValidationError
     | Message (Some answer) =>
         Ok (QueryResult.mk answer (sources L) (NavigationDecision.confidence d)
               (navigation_path L) (reasoning_trace L))
     end,
     log_call w1
       (synthesis_request self system_content
          (synthesis_prompt query_text (extracted_pieces L) (sources L) (MStr s)))
       (client self (chat_log w1)
          (synthesis_request self system_content
             (synthesis_prompt query_text (extracted_pieces L) (sources L)
                (MStr s))))).
Proof.
  intros Hloop Hpieces Hdoc.
  destruct (query_run json_loads float_of_str self index query_text max_steps w)
    as (new & res & Hrun & Hloop' & Hquery).
  rewrite Hloop in Hloop'. inversion Hloop' as [[Hres Hw1]]. subst res.
  apply loop_run_last_decision in Hrun as [[_ ->]|(d & Hd & _)]; [discriminate|].
  destruct (build_result_call self index query_text L w1 piece pieces s Hpieces)
    as [system_content Hcall].
  { by rewrite Hw1. }
  exists system_content, d. split; [exact Hd|].
  rewrite Hquery, <- Hw1, Hcall. f_equal.
  destruct (client self (chat_log w1) _) as [e|[answer|]]; cbn; try reflexivity.
  all: unfold result_confidence; by rewrite Hpieces, Hd.
Qed.

(** X12: the trace the loop returns has one or two lines for each exchange
    of the run, and each exchange is a navigate request. *)
Theorem trace_lines_per_step
    (json_loads : string -> option pyjson)
    (float_of_str : string -> option spec_float)
    (self : PageIndexNavigator) (index : index_ref) (query_text : string)
    (max_steps : Z) (w w1 : World) (L : Locals) :
  navigation_loop json_loads float_of_str self index query_text max_steps w =
    (Ok L, w1) ->
  exists new,
    chat_log w1 = chat_log w ++ new /\
    navigate_calls new = length new /\
    length new <= length (reasoning_trace L) <= 2 * length new.
Proof.
  intros Hloop.
  destruct (navigation_loop_run json_loads float_of_str self index query_text
              max_steps w) as (new & res & Hrun & Hloop').
  rewrite Hloop in Hloop'. inversion Hloop'; subst.
  exists new. split; [reflexivity|].
  pose proof (loop_run_calls _ _ _ _ _ _ _ _ _ _ _ Hrun) as [Hnav _].
  apply only_navigate_calls in Hnav as [Hnav _].
  apply loop_run_bounds in Hrun as (Htrace & _ & _).
  cbn in Htrace. split; [exact Hnav|lia].
Qed.

(** X13: the path the loop returns starts with ["root"] and gains at most
    one entry per exchange; the evidence gains at most one piece per
    exchange.  So neither the moves nor the sources of a result outnumber
    [max_steps]. *)
Theorem path_and_evidence_within_budget
    (json_loads : string -> option pyjson)
    (float_of_str : string -> option spec_float)
    (self : PageIndexNavigator) (index : index_ref) (query_text : string)
    (max_steps : Z) (w w1 : World) (L : Locals) :
  navigation_loop json_loads float_of_str self index query_text max_steps w =
    (Ok L, w1) ->
  exists new moves,
    chat_log w1 = chat_log w ++ new /\
    navigation_path L = "root" :: moves /\
    length moves <= length new /\
    length (sources L) = length (extracted_pieces L) /\
    length (extracted_pieces L) <= length new /\
    (Z.of_nat (length new) <= Z.max 0 max_steps)%Z.
Proof.
  intros Hloop.
  destruct (navigation_loop_run json_loads float_of_str self index query_text
              max_steps w) as (new & res & Hrun & Hloop').
  rewrite Hloop in Hloop'. inversion Hloop'; subst.
  pose proof (loop_run_calls _ _ _ _ _ _ _ _ _ _ _ Hrun) as [_ Hbudget].
  pose proof (loop_run_aligned _ _ _ _ _ _ _ _ _ _ _ Hrun eq_refl) as Haligned.
  apply loop_run_bounds in Hrun as (_ & (moves & Hpath & Hmoves) & Hpieces).
  exists new, moves. cbn in *. repeat split; try done; lia.
Qed.

(** X14: the cursor the loop returns is joined to the root of the index by
    [children] and [parent] links: no decision moves it anywhere else. *)
Theorem cursor_stays_reachable
    (json_loads : string -> option pyjson)
    (float_of_str : string -> option spec_float)
    (self : PageIndexNavigator) (index : index_ref) (query_text : string)
    (max_steps : Z) (w w1 : World) (L : Locals) :
  navigation_loop json_loads float_of_str self index query_text max_steps w =
    (Ok L, w1) ->
  reachable (heap w) (DocumentIndex.root (indexes (heap w) index)) (current_node L).
Proof.
  intros Hloop.
  destruct (navigation_loop_run json_loads float_of_str self index query_text
              max_steps w) as (new & res & Hrun & Hloop').
  rewrite Hloop in Hloop'. inversion Hloop'; subst.
  eapply loop_run_reachable; [exact Hrun|]. cbn. constructor.
Qed.

Lemma synthesis_is_returned_verbatim_witness :
  fst (query (Example.table_loads Example.replies) Example.no_float
         (Example.navigator Sample.script) 0 Sample.question 15 Example.start) =
  Ok {| QueryResult.answer := "20% after 3 days.";
        QueryResult.sources := ["Policy: Policy"];
        QueryResult.confidence := float_0_5;
        QueryResult.navigation_path := ["root"; "Policy"];
        QueryResult.reasoning_trace :=
          ["Step 1: descend - policies live here"; "Step 2: extract - found";
           "Step 3: complete - enough"] |}.
Proof.
  destruct (synthesis_is_returned_verbatim
              (Example.table_loads Example.replies) Example.no_float
              (Example.navigator Sample.script) 0 Sample.question 15
              Example.start (snd Sample.loop) Sample.locals_after
              "Dairy markdown: 20% after 3 days" []
              "Standard Operating Procedure")
    as (system_content & d & Hd & ->);
    [vm_compute; reflexivity|reflexivity|reflexivity|].
  injection Hd as <-. reflexivity.
Defined.

Lemma trace_lines_per_step_witness :
  exists new,
    chat_log (snd Sample.loop) = chat_log Example.start ++ new /\
    navigate_calls new = length new /\
    length new <= length (reasoning_trace Sample.locals_after) <= 2 * length new.
Proof.
  apply (trace_lines_per_step (Example.table_loads Example.replies) Example.no_float
           (Example.navigator Sample.script) 0 Sample.question 15
           Example.start (snd Sample.loop) Sample.locals_after).
  vm_compute. reflexivity.
Defined.

Lemma path_and_evidence_within_budget_witness :
  exists new moves,
    chat_log (snd Sample.loop) = chat_log Example.start ++ new /\
    navigation_path Sample.locals_after = "root" :: moves /\
    length moves <= length new /\
    length (sources Sample.locals_after) =
      length (extracted_pieces Sample.locals_after) /\
    length (extracted_pieces Sample.locals_after) <= length new /\
    (Z.of_nat (length new) <= Z.max 0 15)%Z.
Proof.
  apply (path_and_evidence_within_budget (Example.table_loads Example.replies)
           Example.no_float (Example.navigator Sample.script) 0 Sample.question 15
           Example.start (snd Sample.loop) Sample.locals_after).
  vm_compute. reflexivity.
Defined.

Lemma cursor_stays_reachable_witness :
  reachable Example.store 0 1.
Proof.
  apply (cursor_stays_reachable (Example.table_loads Example.replies)
           Example.no_float (Example.navigator Sample.script) 0 Sample.question 15
           Example.start (snd Sample.loop) Sample.locals_after).
  vm_compute. reflexivity.
Defined.

(** A document type on which the substring test raises stops the first
    iteration, before any request. *)
Lemma query_rejects_document_type
    (json_loads : string -> option pyjson)
    (float_of_str : string -> option spec_float)
    (self : PageIndexNavigator) (index : index_ref) (query_text : string)
    (max_steps : Z) (w : World) (e : exn) :
  is_business_document (document_type (indexes (heap w) index)) = Raise e ->
  (0 < max_steps)%Z ->
  query json_loads float_of_str self index query_text max_steps w =
  (Raise e, w).
Proof.
  intros Htype Hbudget.
  pose proof (loop_body_run json_loads float_of_str self index query_text 0
                (initial_locals (indexes (heap w) index)) w) as Hbody.
  rewrite Htype in Hbody.
  unfold query, navigation_loop, bind at 1, bind at 1, read_index.
  destruct (Z.to_nat max_steps) as [|remaining] eqn:Hsteps; [lia|].
  cbn [for_range]. unfold bind at 1. by rewrite Hbody.
Qed.

(** X15: on an index whose document type is [None] or an integer, a query
    with a positive budget raises [TypeError] before any request is sent: the
    world is left as it was. *)
Theorem document_type_none_or_integer_raises
    (json_loads : string -> option pyjson)
    (float_of_str : string -> option spec_float)
    (self : PageIndexNavigator) (index : index_ref) (query_text : string)
    (max_steps : Z) (w : World) :
  (document_type (indexes (heap w) index) = MNone \/
   exists z, document_type (indexes (heap w) index) = MInt z) ->
  (0 < max_steps)%Z ->
  query json_loads float_of_str self index query_text max_steps w =
  (Raise TypeError, w).
Proof.
  intros Hdoc Hbudget. apply query_rejects_document_type; [|done].
  by destruct Hdoc as [->|[z ->]].
Qed.

Lemma document_type_none_or_integer_raises_witness :
  query (Example.table_loads Example.replies) Example.no_float
    (Example.navigator Sample.script) 0 Sample.question 15
    {| heap := Sample.untyped; chat_log := [] |} =
  (Raise TypeError, {| heap := Sample.untyped; chat_log := [] |}).
Proof.
  apply document_type_none_or_integer_raises; [|lia].
  left. vm_compute. reflexivity.
Defined.

(** X16: when the document type is a string and the budget positive, the
    first request is a navigate request; if its reply parses to a COMPLETE
    decision, [query] returns right away: the fixed answer, confidence 0.0,
    no sources, the path [["root"]], a trace of the one line of step 1, and
    that single exchange in the log. *)
Theorem first_decision_complete
    (json_loads : string -> option pyjson)
    (float_of_str : string -> option spec_float)
    (self : PageIndexNavigator) (index : index_ref) (query_text : string)
    (max_steps : Z) (w : World) (s : string) :
  document_type (indexes (heap w) index) = MStr s ->
  (0 < max_steps)%Z ->
  exists req,
    response_format req = Some "json_object" /\
    forall content d,
      client self (chat_log w) req = Message content ->
      parse_decision json_loads float_of_str content = Ok d ->
      NavigationDecision.action d = COMPLETE ->
      query json_loads float_of_str self index query_text max_steps w =
      (Ok {| QueryResult.answer := NO_INFORMATION_ANSWER;
             QueryResult.sources := [];
             QueryResult.confidence := float_0_0;
             QueryResult.navigation_path := ["root"];
             QueryResult.reasoning_trace :=
               ["Step 1: complete - " +:+ NavigationDecision.reasoning d] |},
       log_call w req (Message content)).
Proof.
  intros Hdoc Hbudget.
  pose proof (loop_body_run json_loads float_of_str self index query_text 0
                (initial_locals (indexes (heap w) index)) w) as Hbody.
  rewrite Hdoc in Hbody.
  destruct (is_business_document_str s) as [business Hbusiness].
  rewrite Hbusiness in Hbody. destruct Hbody as (req & Hformat & Hbody).
  exists req. split; [exact Hformat|].
  intros content d Hclient Hparse Haction.
  rewrite Hclient, Hparse in Hbody.
  unfold query, navigation_loop, bind at 1, bind at 1, read_index.
  destruct (Z.to_nat max_steps) as [|remaining] eqn:Hsteps; [lia|].
  cbn [for_range]. unfold bind at 1. rewrite Hbody.
  unfold apply_decision. rewrite Haction. reflexivity.
Qed.

Lemma first_decision_complete_witness :
  exists req,
    response_format req = Some "json_object" /\
    forall content d,
      client (Example.navigator [Example.says "done"]) [] req = Message content ->
      parse_decision (Example.table_loads Example.replies) Example.no_float content =
        Ok d ->
      NavigationDecision.action d = COMPLETE ->
      query (Example.table_loads Example.replies) Example.no_float
        (Example.navigator [Example.says "done"]) 0 Sample.question 15
        Example.start =
      (Ok {| QueryResult.answer := NO_INFORMATION_ANSWER;
             QueryResult.sources := [];
             QueryResult.confidence := float_0_0;
             QueryResult.navigation_path := ["root"];
             QueryResult.reasoning_trace :=
               ["Step 1: complete - " +:+ NavigationDecision.reasoning d] |},
       log_call Example.start req (Message content)).
Proof.
  apply (first_decision_complete (Example.table_loads Example.replies)
           Example.no_float (Example.navigator [Example.says "done"]) 0
           Sample.question 15 Example.start "Standard Operating Procedure");
    [reflexivity|lia].
Defined.

(** X17: a DESCEND into a child whose [parent] is the current node, followed
    by a BACKTRACK, brings the cursor back where it was; the path has gained
    the child's key and the up-marker of the node, and the evidence is
    untouched. *)
Theorem descend_then_backtrack
    (h : Heap) (step step' : nat) (down up : NavigationDecision.t) (L : Locals)
    (target : string) (child : node_ref) :
  NavigationDecision.action down = DESCEND ->
  NavigationDecision.target_section down = Some target ->
  dict_get target (DocumentNode.children (nodes h (current_node L))) = Some child ->
  nonempty target = true ->
  DocumentNode.parent (nodes h child) = Some (current_node L) ->
  NavigationDecision.action up = BACKTRACK ->
  current_node
    (snd (apply_decision h step' up (snd (apply_decision h step down L)))) =
    current_node L /\
  navigation_path
    (snd (apply_decision h step' up (snd (apply_decision h step down L)))) =
    navigation_path L ++
    [target; "[up]" +:+ DocumentNode.id (nodes h (current_node L))] /\
  extracted_pieces
    (snd (apply_decision h step' up (snd (apply_decision h step down L)))) =
    extracted_pieces L /\
  sources
    (snd (apply_decision h step' up (snd (apply_decision h step down L)))) =
    sources L.
Proof.
  intros Hdown Htarget Hchild Hname Hparent Hup.
  destruct (apply_decision h step down L) as [c L1] eqn:Hfirst.
  unfold apply_decision in Hfirst.
  rewrite Hdown, Htarget, Hname, Hchild in Hfirst.
  inversion Hfirst; subst c L1. cbn [snd].
  unfold apply_decision. rewrite Hup. cbn [current_node]. rewrite Hparent.
  cbn [snd current_node navigation_path extracted_pieces sources].
  by rewrite <- app_assoc.
Qed.

Lemma descend_then_backtrack_witness :
  navigation_path
    (snd (apply_decision Example.store 1
            (NavigationDecision.mk BACKTRACK None "wrong place" None float_0_5)
            (snd (apply_decision Example.store 0
                    (NavigationDecision.mk DESCEND (Some "Markdown Rules")
                       "markdown rules" None float_1_0)
                    Example.locals0)))) =
  ["root"; "Policy"; "Markdown Rules"; "[up]Policy"].
Proof.
  apply (descend_then_backtrack Example.store 0 1
           (NavigationDecision.mk DESCEND (Some "Markdown Rules")
              "markdown rules" None float_1_0)
           (NavigationDecision.mk BACKTRACK None "wrong place" None float_0_5)
           Example.locals0 "Markdown Rules" 2); reflexivity.
Defined.

(** ** Dicts and stores *)

Lemma dict_get_set {V} (key key' : string) (v : V) (d : list (string * V)) :
  dict_get key' (dict_set key v d) =
  if String.eqb key key' then Some v else dict_get key' d.
Proof.
  induction d as [|[k x] d IH]; cbn.
  - by destruct (String.eqb_spec key key').
  - destruct (String.eqb_spec k key) as [->|Hk]; cbn.
    + by destruct (String.eqb_spec key key').
    + destruct (String.eqb_spec k key') as [->|Hk'].
      * destruct (String.eqb_spec key key') as [->|_]; [done|reflexivity].
      * exact IH.
Qed.

Lemma dict_set_keeps_keys {V} (key key' : string) (v : V) (d : list (string * V)) :
  is_Some (dict_get key' d) -> is_Some (dict_get key' (dict_set key v d)).
Proof.
  rewrite dict_get_set. by destruct (String.eqb key key').
Qed.

Lemma update_eq {A} (objs : nat -> A) r a : update objs r a r = a.
Proof. unfold update. by rewrite Nat.eqb_refl. Qed.

Lemma update_ne {A} (objs : nat -> A) r r' a :
  r' <> r -> update objs r a r' = objs r'.
Proof. unfold update. intros Hne. by destruct (Nat.eqb_spec r' r). Qed.

Lemma section_data_nested_ind (P : section_data -> Prop) :
  (forall title content subsections,
     Forall (fun sub => P (snd sub)) subsections ->
     P (SectionData title content subsections)) ->
  forall section, P section.
Proof.
  intros Hstep. fix IH 1. intros [title content subsections].
  apply Hstep.
  induction subsections as [|[sub_id sub] rest IHrest]; constructor;
    [apply IH|exact IHrest].
Qed.

Lemma grows_refl index parent lvl s : grows index parent lvl s s.
Proof.
  unfold grows, same_but_children.
  repeat split; try done; try lia; auto.
Qed.

Lemma grows_trans index parent lvl s t t' :
  parent < next_node s ->
  grows index parent lvl s t ->
  grows index parent lvl t t' ->
  grows index parent lvl s t'.
Proof.
  intros Hparent
    (Hn1 & Hi1 & Hframe1 & Hsame1 & Hkids1 & Hkeys1 & Hnew1 & Hidx1 & Hfld1
     & Hby1 & Hbykeys1 & Hall1)
    (Hn2 & Hi2 & Hframe2 & Hsame2 & Hkids2 & Hkeys2 & Hnew2 & Hidx2 & Hfld2
     & Hby2 & Hbykeys2 & Hall2).
  unfold grows. split; [lia|]. split; [congruence|].
  split; [|split; [|split; [|split; [|split; [|split; [|split; [|split; [|split]]]]]]]].
  - intros r Hr Hne. rewrite Hframe2 by lia. by apply Hframe1.
  - unfold same_but_children in *. intuition congruence.
  - intros key child Hget. destruct (Hkids2 key child Hget) as [Hold|Hfresh].
    + destruct (Hkids1 key child Hold) as [Hold'|(Hrange & Hp & Hid & Hlvl)];
        [by left|right].
      rewrite Hframe2 by lia. split; [lia|done].
    + right. destruct Hfresh as (Hrange & Hrest). split; [lia|exact Hrest].
  - intros key Hkey. by apply Hkeys2, Hkeys1.
  - intros r Hr. destruct (decide (r < next_node t)) as [Hlt|Hge].
    + intros key child Hget.
      rewrite Hframe2 in Hget by lia.
      destruct (Hnew1 r ltac:(lia) key child Hget) as (Hrange & Hp & Hid & Hlvl).
      rewrite !Hframe2 by lia. split; [lia|done].
    + apply Hnew2. lia.
  - intros i Hne. rewrite Hidx2 by done. by apply Hidx1.
  - destruct Hfld1 as (? & ? & ?), Hfld2 as (? & ? & ?).
    repeat split; congruence.
  - intros key r Hget. destruct (Hby2 key r Hget) as [Hold|(Hrange & Hid)].
    + destruct (Hby1 key r Hold) as [Hold'|(Hrange & Hid)]; [by left|right].
      split; [lia|]. by rewrite Hframe2 by lia.
    + right. split; [lia|done].
  - intros key Hkey. by apply Hbykeys2, Hbykeys1.
  - intros r Hr. destruct (decide (r < next_node t)) as [Hlt|Hge].
    + rewrite Hframe2 by lia. apply Hbykeys2, Hall1. lia.
    + apply Hall2. lia.
Qed.

(** A node created without children and entered under [parent]. *)
Lemma attached_grows index parent key n lvl s :
  parent < next_node s ->
  DocumentNode.parent n = Some parent ->
  DocumentNode.id n = key ->
  DocumentNode.level n = lvl ->
  DocumentNode.children n = [] ->
  grows index parent lvl s (attached index parent key n s) /\
  next_node (attached index parent key n s) = S (next_node s) /\
  nodes (objects (attached index parent key n s)) (next_node s) = n /\
  DocumentNode.children (nodes (objects (attached index parent key n s)) parent) =
    dict_set key (next_node s) (DocumentNode.children (nodes (objects s) parent)) /\
  DocumentIndex.nodes_by_id (indexes (objects (attached index parent key n s)) index) =
    <[key := next_node s]> (DocumentIndex.nodes_by_id (indexes (objects s) index)).
Proof.
  intros Hparent Hp Hid Hlvl Hleaf.
  assert (nodes (objects (attached index parent key n s)) (next_node s) = n) as Hnew.
  { cbn. rewrite update_ne by lia. apply update_eq. }
  assert (forall r, r <> next_node s -> r <> parent ->
          nodes (objects (attached index parent key n s)) r = nodes (objects s) r)
    as Hframe.
  { intros r Hr Hr'. cbn. by rewrite !update_ne. }
  assert (nodes (objects (attached index parent key n s)) parent =
          DocumentNode.mk
            (DocumentNode.id (nodes (objects s) parent))
            (DocumentNode.title (nodes (objects s) parent))
            (DocumentNode.content (nodes (objects s) parent))
            (DocumentNode.level (nodes (objects s) parent))
            (DocumentNode.parent (nodes (objects s) parent))
            (dict_set key (next_node s)
               (DocumentNode.children (nodes (objects s) parent)))) as Hpar.
  { cbn. rewrite update_eq. by rewrite update_ne by lia. }
  assert (indexes (objects (attached index parent key n s)) index =
          DocumentIndex.mk
            (DocumentIndex.document_id (indexes (objects s) index))
            (DocumentIndex.metadata (indexes (objects s) index))
            (DocumentIndex.root (indexes (objects s) index))
            (<[key := next_node s]>
               (DocumentIndex.nodes_by_id (indexes (objects s) index)))) as Hidx.
  { cbn. by rewrite update_eq. }
  split; [|split; [reflexivity|split; [exact Hnew|split; [by rewrite Hpar|
                                                          by rewrite Hidx]]]].
  unfold grows.
  split; [cbn; lia|]. split; [reflexivity|].
  split; [|split; [|split; [|split; [|split; [|split; [|split; [|split; [|split]]]]]]]].
  - intros r Hr Hne. apply Hframe; [lia|done].
  - rewrite Hpar. by unfold same_but_children.
  - intros key' child. rewrite Hpar. cbn [DocumentNode.children].
    rewrite dict_get_set.
    destruct (String.eqb_spec key key') as [<-|_]; [|by left].
    intros [= <-]. right. rewrite Hnew. cbn. split; [lia|done].
  - intros key'. rewrite Hpar. apply dict_set_keeps_keys.
  - intros r Hr. cbn in Hr. assert (r = next_node s) as -> by lia.
    intros key' child. by rewrite Hnew, Hleaf.
  - intros i Hne. cbn. by rewrite update_ne.
  - by rewrite Hidx.
  - intros key' r. rewrite Hidx. cbn [DocumentIndex.nodes_by_id].
    destruct (decide (key = key')) as [<-|Hne].
    + rewrite lookup_insert_eq. intros [= <-]. right.
      rewrite Hnew. cbn. split; [lia|done].
    + rewrite lookup_insert_ne by done. by left.
  - intros key'. rewrite Hidx. cbn [DocumentIndex.nodes_by_id].
    destruct (decide (key = key')) as [<-|Hne].
    + by rewrite lookup_insert_eq.
    + by rewrite lookup_insert_ne.
  - intros r Hr. cbn in Hr. assert (r = next_node s) as -> by lia.
    rewrite Hnew, Hid, Hidx. cbn [DocumentIndex.nodes_by_id].
    by rewrite lookup_insert_eq.
Qed.

(** ** Sections added to a tree *)

Lemma add_section_unfold index parent section_id title content subsections lvl s :
  _add_section index parent section_id (SectionData title content subsections) lvl s =
  foldl
    (fun s' sub =>
       _add_section index (next_node s) (fst sub) (snd sub) (lvl + 1) s')
    (attached index parent section_id
       (DocumentNode.mk section_id (default section_id title) (default "" content)
          lvl (Some parent) [])
       s)
    subsections.
Proof. reflexivity. Qed.

(** The loop over the items of a dict of sections, all added under
    [parent]. *)
Lemma add_sections_grows index parent lvl (items : list (string * section_data)) :
  Forall
    (fun sub =>
       forall index parent section_id lvl s,
         parent < next_node s ->
         section_added index parent section_id (snd sub) lvl s
           (_add_section index parent section_id (snd sub) lvl s))
    items ->
  forall s,
    parent < next_node s ->
    grows index parent lvl s
      (foldl (fun s' sub => _add_section index parent (fst sub) (snd sub) lvl s')
         s items) /\
    next_node
      (foldl (fun s' sub => _add_section index parent (fst sub) (snd sub) lvl s')
         s items) =
      next_node s + foldr (fun sub total => section_count (snd sub) + total) 0 items /\
    (forall sub,
       sub ∈ items ->
       is_Some
         (dict_get (fst sub)
            (DocumentNode.children
               (nodes
                  (objects
                     (foldl
                        (fun s' sub =>
                           _add_section index parent (fst sub) (snd sub) lvl s')
                        s items))
                  parent)))).
Proof.
  induction 1 as [|sub rest Hsub _ IH]; intros s Hparent.
  - cbn. split; [apply grows_refl|split; [lia|]].
    intros sub Hin. by apply elem_of_nil in Hin.
  - cbn [foldl foldr].
    destruct (Hsub index parent (fst sub) lvl s Hparent)
      as (Hgrow & Hnext & Hkids & _ & _).
    set (t := _add_section index parent (fst sub) (snd sub) lvl s) in *.
    assert (parent < next_node t) as Hparent' by lia.
    destruct (IH t Hparent') as (Hgrow' & Hnext' & Hkeys').
    split; [by eapply grows_trans|split; [lia|]].
    intros sub' Hin. apply elem_of_cons in Hin as [->|Hin]; [|by apply Hkeys'].
    destruct Hgrow' as (_ & _ & _ & _ & _ & Hkeep & _).
    apply Hkeep. rewrite Hkids, dict_get_set, String.eqb_refl. by eexists.
Qed.

(** [_add_section] on any section. *)
Lemma add_section_grows section :
  forall index parent section_id lvl s,
    parent < next_node s ->
    section_added index parent section_id section lvl s
      (_add_section index parent section_id section lvl s).
Proof.
  induction section as [title content subsections IH] using section_data_nested_ind.
  intros index parent section_id lvl s Hparent.
  rewrite add_section_unfold.
  set (n := DocumentNode.mk section_id (default section_id title)
              (default "" content) lvl (Some parent) []).
  destruct (attached_grows index parent section_id n lvl s Hparent
              eq_refl eq_refl eq_refl eq_refl)
    as (Hgrow0 & Hnext0 & Hnew0 & Hkids0 & Hby0).
  set (s0 := attached index parent section_id n s) in *.
  assert (next_node s < next_node s0) as Hnode by lia.
  destruct (add_sections_grows index (next_node s) (lvl + 1) subsections IH s0 Hnode)
    as (Hgrow1 & Hnext1 & _).
  set (s' := foldl _ s0 subsections) in *.
  destruct Hgrow0 as (Hn0 & Hi0 & Hframe0 & Hsame0 & Hkid0 & Hkeys0 & _ & Hidx0
                      & Hfld0 & Hbyid0 & Hbykeys0 & Hall0).
  destruct Hgrow1 as (Hn1 & Hi1 & Hframe1 & Hsame1 & Hkid1 & Hkeys1 & Hnew1 & Hidx1
                      & Hfld1 & Hbyid1 & Hbykeys1 & Hall1).
  assert (nodes (objects s') parent = nodes (objects s0) parent) as Hpar
    by (apply Hframe1; lia).
  change (section_added index parent section_id
            (SectionData title content subsections) lvl s s').
  unfold section_added.
  split; [|split; [cbn [section_count]; lia|split; [by rewrite Hpar|split]]].
  - unfold grows. split; [lia|]. split; [congruence|].
    split; [|split; [|split; [|split; [|split; [|split; [|split; [|split; [|split]]]]]]]].
    + intros r Hr Hne. rewrite Hframe1 by lia. by apply Hframe0.
    + by rewrite Hpar.
    + intros key child. rewrite Hpar. intros Hget.
      destruct (Hkid0 key child Hget) as [Hold|(Hrange & Hp & Hid & Hlvl)];
        [by left|right].
      assert (child = next_node s) as -> by lia.
      destruct Hsame1 as (Hid1 & _ & _ & Hlvl1 & Hp1).
      rewrite Hp1, Hid1, Hlvl1. split; [lia|done].
    + intros key Hkey. rewrite Hpar. by apply Hkeys0.
    + intros r Hr. destruct (decide (r = next_node s)) as [->|Hne].
      * intros key child Hget.
        destruct (Hkid1 key child Hget) as [Hold|(Hrange & Hp & Hid & Hlvl)].
        { by rewrite Hnew0 in Hold. }
        destruct Hsame1 as (_ & _ & _ & Hlvl1 & _).
        rewrite Hlvl1, Hnew0. cbn. split; [lia|done].
      * apply Hnew1. lia.
    + intros i Hne. rewrite Hidx1 by done. by apply Hidx0.
    + destruct Hfld0 as (? & ? & ?), Hfld1 as (? & ? & ?).
      repeat split; congruence.
    + intros key r Hget. destruct (Hbyid1 key r Hget) as [Hold|(Hrange & Hid)].
      * destruct (Hbyid0 key r Hold) as [Hold'|(Hrange & Hid)]; [by left|right].
        assert (r = next_node s) as -> by lia.
        destruct Hsame1 as (Hid1 & _). rewrite Hid1. split; [lia|done].
      * right. split; [lia|done].
    + intros key Hkey. by apply Hbykeys1, Hbykeys0.
    + intros r Hr. destruct (decide (r = next_node s)) as [->|Hne];
        [|apply Hall1; lia].
      destruct Hsame1 as (Hid1 & _). rewrite Hid1, Hnew0. cbn [DocumentNode.id].
      apply Hbykeys1. rewrite Hby0, lookup_insert_eq. by eexists.
  - rewrite Hnew0 in Hsame1. exact Hsame1.
  - apply Hbykeys1. rewrite Hby0, lookup_insert_eq. by eexists.
Qed.

(** Growth below a node that was itself added below [parent]. *)
Lemma grows_nest index parent lvl n lvl' s t t' :
  parent < next_node s ->
  next_node s <= n < next_node t ->
  (DocumentNode.level (nodes (objects t) n) + 1)%Z = lvl' ->
  grows index parent lvl s t ->
  grows index n lvl' t t' ->
  grows index parent lvl s t'.
Proof.
  intros Hparent Hn Hlevel
    (Hn1 & Hi1 & Hframe1 & Hsame1 & Hkids1 & Hkeys1 & Hnew1 & Hidx1 & Hfld1
     & Hby1 & Hbykeys1 & Hall1)
    (Hn2 & Hi2 & Hframe2 & Hsame2 & Hkids2 & Hkeys2 & Hnew2 & Hidx2 & Hfld2
     & Hby2 & Hbykeys2 & Hall2).
  assert (forall r, r < next_node t ->
          same_but_children (nodes (objects t') r) (nodes (objects t) r)) as Hkeep.
  { intros r Hr. destruct (decide (r = n)) as [->|Hne]; [exact Hsame2|].
    rewrite Hframe2 by done. by unfold same_but_children. }
  assert (nodes (objects t') parent = nodes (objects t) parent) as Hpar
    by (apply Hframe2; lia).
  unfold grows. split; [lia|]. split; [congruence|].
  split; [|split; [|split; [|split; [|split; [|split; [|split; [|split; [|split]]]]]]]].
  - intros r Hr Hne. rewrite Hframe2 by lia. by apply Hframe1.
  - by rewrite Hpar.
  - intros key child. rewrite Hpar. intros Hget.
    destruct (Hkids1 key child Hget) as [Hold|(Hrange & Hp & Hid & Hlvl)];
      [by left|right].
    destruct (Hkeep child ltac:(lia)) as (Hid' & _ & _ & Hlvl' & Hp').
    rewrite Hp', Hid', Hlvl'. split; [lia|done].
  - intros key Hkey. rewrite Hpar. by apply Hkeys1.
  - intros r Hr. destruct (decide (r < next_node t)) as [Hlt|Hge]; [|apply Hnew2; lia].
    intros key child Hget.
    destruct (decide (r = n)) as [->|Hne].
    + destruct (Hkids2 key child Hget) as [Hold|(Hrange & Hp & Hid & Hlvl)].
      * destruct (Hnew1 n ltac:(lia) key child Hold) as (Hrange & Hp & Hid & Hlvl).
        rewrite !(Hframe2 child) by lia.
        destruct Hsame2 as (_ & _ & _ & Hlvl' & _). rewrite Hlvl'.
        split; [lia|done].
      * destruct Hsame2 as (_ & _ & _ & Hlvl' & _). rewrite Hlvl'.
        split; [lia|]. split; [done|]. split; [done|lia].
    + rewrite Hframe2 in Hget by done.
      destruct (Hnew1 r ltac:(lia) key child Hget) as (Hrange & Hp & Hid & Hlvl).
      destruct (Hkeep child ltac:(lia)) as (Hid' & _ & _ & Hlvl' & Hp').
      rewrite Hp', Hid', Hlvl', (Hframe2 r) by done. split; [lia|done].
  - intros i Hne. rewrite Hidx2 by done. by apply Hidx1.
  - destruct Hfld1 as (? & ? & ?), Hfld2 as (? & ? & ?).
    repeat split; congruence.
  - intros key r Hget. destruct (Hby2 key r Hget) as [Hold|(Hrange & Hid)].
    + destruct (Hby1 key r Hold) as [Hold'|(Hrange & Hid)]; [by left|right].
      destruct (Hkeep r ltac:(lia)) as (Hid' & _). rewrite Hid'. split; [lia|done].
    + right. split; [lia|done].
  - intros key Hkey. by apply Hbykeys2, Hbykeys1.
  - intros r Hr. destruct (decide (r < next_node t)) as [Hlt|Hge];
      [|apply Hall2; lia].
    destruct (Hkeep r Hlt) as (Hid' & _). rewrite Hid'.
    apply Hbykeys2, Hall1. lia.
Qed.

Lemma add_leaves_unfold index branch leaf_id leaf rest s title content :
  leaf_title leaf = Some title ->
  leaf_content leaf = Some content ->
  add_leaves index branch ((leaf_id, leaf) :: rest) s =
  add_leaves index branch rest
    (attached index branch leaf_id
       (DocumentNode.mk leaf_id title content 2 (Some branch) []) s).
Proof. intros Ht Hc. cbn. by rewrite Ht, Hc. Qed.

(** The loop over footnotes or appendices, whether it ends or raises. *)
Lemma add_leaves_grows index branch items : forall s,
  branch < next_node s ->
  grows index branch 2 s (snd (add_leaves index branch items s)).
Proof.
  induction items as [|[leaf_id leaf] rest IH]; intros s Hbranch.
  - apply grows_refl.
  - destruct (leaf_title leaf) as [title|] eqn:Htitle.
    2: { cbn. rewrite Htitle. apply grows_refl. }
    destruct (leaf_content leaf) as [content|] eqn:Hcontent.
    2: { cbn. rewrite Htitle, Hcontent. apply grows_refl. }
    rewrite (add_leaves_unfold _ _ _ _ _ _ title content) by done.
    destruct (attached_grows index branch leaf_id
                (DocumentNode.mk leaf_id title content 2 (Some branch) []) 2 s
                Hbranch eq_refl eq_refl eq_refl eq_refl) as (Hgrow & Hnext & _).
    eapply grows_trans; [done|exact Hgrow|]. apply IH. cbn. lia.
Qed.

(** X18: [_add_section] creates one node, with the given id and level, the
    section's title (its id when there is none) and content (empty when
    there is none), and [parent] as parent; it enters the node under the id
    in [parent.children], where an entry of that id is replaced and every
    other entry is left as it was. *)
Theorem add_section_enters_node
    (index : index_ref) (parent : node_ref) (section_id : string)
    (title content : option string) (subsections : list (string * section_data))
    (lvl : Z) (s : Store) :
  parent < next_node s ->
  dict_get section_id
    (DocumentNode.children
       (nodes (objects (_add_section index parent section_id
                          (SectionData title content subsections) lvl s)) parent)) =
    Some (next_node s) /\
  (forall key,
     key <> section_id ->
     dict_get key
       (DocumentNode.children
          (nodes (objects (_add_section index parent section_id
                             (SectionData title content subsections) lvl s)) parent)) =
     dict_get key (DocumentNode.children (nodes (objects s) parent))) /\
  same_but_children
    (nodes (objects (_add_section index parent section_id
                       (SectionData title content subsections) lvl s)) (next_node s))
    (DocumentNode.mk section_id (default section_id title) (default "" content)
       lvl (Some parent) []).
Proof.
  intros Hparent.
  destruct (add_section_grows (SectionData title content subsections)
              index parent section_id lvl s Hparent)
    as (_ & _ & Hkids & Hnode & _).
  rewrite Hkids. split; [|split; [|exact Hnode]].
  - by rewrite dict_get_set, String.eqb_refl.
  - intros key Hne. rewrite dict_get_set.
    by destruct (String.eqb_spec section_id key) as [->|_].
Qed.

Lemma add_section_enters_node_witness :
  dict_get "Item 1A"
    (DocumentNode.children
       (nodes (objects (_add_section 0 0 "Item 1A" Filing.risk 1 Filing.store)) 0)) =
  Some 3.
Proof.
  apply (add_section_enters_node 0 0 "Item 1A" (Some "Risk Factors") None
           [("1A.1", SectionData None (Some "Supply disruptions may occur.") []);
            ("1A.2", SectionData (Some "Cyber") (Some "Insurance covers breaches.") [])]
           1 Filing.store).
  cbn. lia.
Defined.

(** X19: [_add_section] allocates one node for the section and each of its
    nested subsections and no index.  It leaves every other existing node as
    it was, changes of [parent] nothing but its children, leaves every other
    index as it was, and changes of its own index nothing but
    [nodes_by_id]. *)
Theorem add_section_frame
    (index : index_ref) (parent : node_ref) (section_id : string)
    (section : section_data) (lvl : Z) (s : Store) :
  parent < next_node s ->
  next_node (_add_section index parent section_id section lvl s) =
    next_node s + section_count section /\
  next_index (_add_section index parent section_id section lvl s) = next_index s /\
  (forall r,
     r < next_node s -> r <> parent ->
     nodes (objects (_add_section index parent section_id section lvl s)) r =
     nodes (objects s) r) /\
  same_but_children
    (nodes (objects (_add_section index parent section_id section lvl s)) parent)
    (nodes (objects s) parent) /\
  (forall i,
     i <> index ->
     indexes (objects (_add_section index parent section_id section lvl s)) i =
     indexes (objects s) i) /\
  DocumentIndex.document_id
    (indexes (objects (_add_section index parent section_id section lvl s)) index) =
    DocumentIndex.document_id (indexes (objects s) index) /\
  DocumentIndex.metadata
    (indexes (objects (_add_section index parent section_id section lvl s)) index) =
    DocumentIndex.metadata (indexes (objects s) index) /\
  DocumentIndex.root
    (indexes (objects (_add_section index parent section_id section lvl s)) index) =
    DocumentIndex.root (indexes (objects s) index).
Proof.
  intros Hparent.
  destruct (add_section_grows section index parent section_id lvl s Hparent)
    as ((_ & Hidx & Hframe & Hsame & _ & _ & _ & Hother & Hfields & _) & Hnext & _).
  destruct Hfields as (Hdoc & Hmeta & Hroot).
  repeat (split; [done|]). done.
Qed.

Lemma add_section_frame_witness :
  next_node (_add_section 0 0 "Item 1A" Filing.risk 1 Filing.store) = 6.
Proof.
  rewrite (proj1 (add_section_frame 0 0 "Item 1A" Filing.risk 1 Filing.store
                    ltac:(cbn; lia))).
  reflexivity.
Defined.

(** X20: in the subtree [_add_section] builds, every entry of the
    [children] of a new node names a node created after it, whose [parent]
    is that node, whose [id] is the key of the entry and whose [level] is
    one more. *)
Theorem add_section_subtree_is_consistent
    (index : index_ref) (parent : node_ref) (section_id : string)
    (section : section_data) (lvl : Z) (s : Store) (r : node_ref) :
  parent < next_node s ->
  next_node s <= r < next_node (_add_section index parent section_id section lvl s) ->
  children_ok (objects (_add_section index parent section_id section lvl s))
    (next_node (_add_section index parent section_id section lvl s)) r.
Proof.
  intros Hparent Hr.
  destruct (add_section_grows section index parent section_id lvl s Hparent)
    as ((_ & _ & _ & _ & _ & _ & Hnew & _) & _).
  by apply Hnew.
Qed.

Lemma add_section_subtree_is_consistent_witness :
  children_ok (objects (_add_section 0 0 "Item 1A" Filing.risk 1 Filing.store))
    (next_node (_add_section 0 0 "Item 1A" Filing.risk 1 Filing.store)) 3.
Proof.
  apply (add_section_subtree_is_consistent 0 0 "Item 1A" Filing.risk 1
           Filing.store 3); cbn; lia.
Defined.

(** X21: after [_add_section], [nodes_by_id] has an entry for the id of
    every node created, the section's own id included; every entry that was
    not there before names a created node whose [id] is the key of the
    entry; and no key has been removed. *)
Theorem add_section_nodes_by_id
    (index : index_ref) (parent : node_ref) (section_id : string)
    (section : section_data) (lvl : Z) (s : Store) :
  parent < next_node s ->
  (forall r,
     next_node s <= r < next_node (_add_section index parent section_id section lvl s) ->
     is_Some
       (DocumentIndex.nodes_by_id
          (indexes (objects (_add_section index parent section_id section lvl s))
             index)
          !! DocumentNode.id
               (nodes (objects (_add_section index parent section_id section lvl s))
                  r))) /\
  (forall key r,
     DocumentIndex.nodes_by_id
       (indexes (objects (_add_section index parent section_id section lvl s)) index)
       !! key = Some r ->
     DocumentIndex.nodes_by_id (indexes (objects s) index) !! key = Some r \/
     (next_node s <= r < next_node (_add_section index parent section_id section lvl s)
      /\ DocumentNode.id
           (nodes (objects (_add_section index parent section_id section lvl s)) r) =
         key)) /\
  (forall key,
     is_Some (DocumentIndex.nodes_by_id (indexes (objects s) index) !! key) ->
     is_Some
       (DocumentIndex.nodes_by_id
          (indexes (objects (_add_section index parent section_id section lvl s))
             index) !! key)).
Proof.
  intros Hparent.
  destruct (add_section_grows section index parent section_id lvl s Hparent)
    as ((_ & _ & _ & _ & _ & _ & _ & _ & _ & Hsound & Hkeys & Hall) & _).
  done.
Qed.

Lemma add_section_nodes_by_id_witness :
  is_Some
    (DocumentIndex.nodes_by_id
       (indexes (objects (_add_section 0 0 "Item 1A" Filing.risk 1 Filing.store)) 0)
       !! DocumentNode.id
            (nodes (objects (_add_section 0 0 "Item 1A" Filing.risk 1 Filing.store))
               5)).
Proof.
  apply (proj1 (add_section_nodes_by_id 0 0 "Item 1A" Filing.risk 1 Filing.store
                  ltac:(cbn; lia)) 5).
  cbn. lia.
Defined.

(** ** The adapters *)

(** The sections below a root, then a branch of leaves: the statements both
    adapters end with. *)
Lemma branches_grow index root sections s :
  root < next_node s ->
  grows index root 1 s
    (foldl (fun s' part => _add_section index root (fst part) (snd part) 1 s')
       s sections) /\
  forall key title leaves,
    grows index root 1 s
      (snd (add_leaves index
              (next_node
                 (foldl
                    (fun s' part => _add_section index root (fst part) (snd part) 1 s')
                    s sections))
              leaves
              (attached index root key
                 (DocumentNode.mk key title "" 1 (Some root) [])
                 (foldl
                    (fun s' part => _add_section index root (fst part) (snd part) 1 s')
                    s sections)))).
Proof.
  intros Hroot.
  assert (Forall
            (fun sub : string * section_data =>
               forall index parent section_id lvl s,
                 parent < next_node s ->
                 section_added index parent section_id (snd sub) lvl s
                   (_add_section index parent section_id (snd sub) lvl s))
            sections) as Hall.
  { apply Forall_forall. intros sub _. apply add_section_grows. }
  destruct (add_sections_grows index root 1 sections Hall s Hroot) as (Hgrow & _).
  set (s3 := foldl _ s sections) in *.
  split; [exact Hgrow|].
  intros key title leaves.
  assert (next_node s <= next_node s3) as Hmono by (by destruct Hgrow).
  destruct (attached_grows index root key
              (DocumentNode.mk key title "" 1 (Some root) []) 1 s3
              ltac:(lia) eq_refl eq_refl eq_refl eq_refl)
    as (Hbranch & Hnext & Hnew & _).
  set (s4 := attached index root key _ s3) in *.
  eapply (grows_nest index root 1 (next_node s3) 2 s s4).
  - exact Hroot.
  - lia.
  - by rewrite Hnew.
  - by eapply grows_trans.
  - apply add_leaves_grows. lia.
Qed.

(** A store in which a new root stands alone, grown into [s']. *)
Lemma grown_from_root index s s2 s' :
  next_node s2 = S (next_node s) ->
  (forall r, r < next_node s -> nodes (objects s2) r = nodes (objects s) r) ->
  DocumentNode.id (nodes (objects s2) (next_node s)) = "root" ->
  DocumentNode.level (nodes (objects s2) (next_node s)) = 0%Z ->
  DocumentNode.children (nodes (objects s2) (next_node s)) = [] ->
  DocumentIndex.nodes_by_id (indexes (objects s2) index) = {[ "root" := next_node s ]} ->
  grows index (next_node s) 1 s2 s' ->
  (forall r, next_node s <= r < next_node s' ->
     children_ok (objects s') (next_node s') r) /\
  (forall r, r < next_node s -> nodes (objects s') r = nodes (objects s) r) /\
  (forall r, next_node s <= r < next_node s' ->
     is_Some
       (DocumentIndex.nodes_by_id (indexes (objects s') index)
          !! DocumentNode.id (nodes (objects s') r))) /\
  (forall key r,
     DocumentIndex.nodes_by_id (indexes (objects s') index) !! key = Some r ->
     next_node s <= r < next_node s' /\
     DocumentNode.id (nodes (objects s') r) = key).
Proof.
  intros Hnext Hold Hid Hlevel Hleaf Hby
    (Hn & _ & Hframe & Hsame & Hkids & _ & Hnew & _ & _ & Hsound & Hkeys & Hall).
  destruct Hsame as (Hid' & _ & _ & Hlevel' & _).
  split; [|split; [|split]].
  - intros r Hr. destruct (decide (r = next_node s)) as [->|Hne]; [|apply Hnew; lia].
    intros key child Hget.
    destruct (Hkids key child Hget) as [Hwas|(Hrange & Hp & Hk & Hl)].
    { by rewrite Hleaf in Hwas. }
    rewrite Hlevel', Hlevel. split; [lia|done].
  - intros r Hr. rewrite Hframe by lia. by apply Hold.
  - intros r Hr. destruct (decide (r = next_node s)) as [->|Hne]; [|apply Hall; lia].
    rewrite Hid', Hid. apply Hkeys. rewrite Hby, lookup_singleton_eq. by eexists.
  - intros key r Hget. destruct (Hsound key r Hget) as [Hwas|(Hrange & Hk)].
    + rewrite Hby in Hwas. apply lookup_singleton_Some in Hwas as [<- <-].
      split; [lia|]. by rewrite Hid', Hid.
    + split; [lia|done].
Qed.

Lemma from_sec_filing_unfold data s company filing_type fiscal_year document_id :
  SecFiling.company data = Some company ->
  SecFiling.filing_type data = Some filing_type ->
  SecFiling.fiscal_year data = Some fiscal_year ->
  SecFiling.document_id data = Some document_id ->
  from_sec_filing data s =
  branched (next_index s) (next_node s) (SecFiling.sections data)
    "Footnotes" "Financial Statement Footnotes" (SecFiling.footnotes data)
    (rooted
       (DocumentNode.mk "root"
          (meta_str company +:+ " " +:+ meta_str filing_type +:+ " FY"
             +:+ meta_str fiscal_year)
          "" 0 None [])
       (DocumentIndex.mk document_id
          (<["company" := company]>
             (<["filing_type" := filing_type]>
                (<["fiscal_year" := fiscal_year]>
                   {[ "document_type" := MStr "SEC Filing" ]})))
          (next_node s) ∅)
       s).
Proof.
  intros Hc Hf Hy Hd. unfold from_sec_filing. rewrite Hc, Hf, Hy, Hd.
  reflexivity.
Qed.

Lemma from_supply_chain_sop_unfold data s :
  from_supply_chain_sop data s =
  branched (next_index s) (next_node s) (SupplyChainSop.sections data)
    "Appendices" "Appendices" (SupplyChainSop.appendices data)
    (rooted
       (DocumentNode.mk "root"
          (default "Supply Chain SOP" (SupplyChainSop.title data))
          ("Document ID: " +:+ default "N/A" (SupplyChainSop.document_id data) +:+ nl
             +:+ "Version: "
             +:+ meta_str (default (MStr "N/A") (SupplyChainSop.version data)) +:+ nl
             +:+ "Effective Date: "
             +:+ meta_str (default (MStr "N/A") (SupplyChainSop.effective_date data))
             +:+ nl
             +:+ "Classification: "
             +:+ meta_str (default (MStr "N/A") (SupplyChainSop.classification data)))
          0 None [])
       (DocumentIndex.mk
          (default "unknown" (SupplyChainSop.document_id data))
          (<["title" := match SupplyChainSop.title data with
                         | Some t => MStr t
                         | None => MNone
                         end]>
             (<["document_type" :=
                  default (MStr "Standard Operating Procedure")
                    (SupplyChainSop.document_type data)]>
                (<["version" := get_or_none (SupplyChainSop.version data)]>
                   (<["effective_date" :=
                        get_or_none (SupplyChainSop.effective_date data)]>
                      {[ "classification" :=
                           get_or_none (SupplyChainSop.classification data) ]}))))
          (next_node s) ∅)
       s).
Proof. reflexivity. Qed.

(** What [branched] returns, and how the store has grown. *)
Lemma branched_grows index root sections key title leaves s res s' :
  root < next_node s ->
  branched index root sections key title leaves s = (res, s') ->
  grows index root 1 s s' /\
  (res = inr index \/ exists k, res = inl (KeyError k)) /\
  (leaves = None -> res = inr index).
Proof.
  intros Hroot. unfold branched.
  destruct (branches_grow index root sections s Hroot) as (Hsections & Hleaves).
  destruct leaves as [items|].
  - specialize (Hleaves key title items).
    destruct (add_leaves _ _ items _) as [[[k]|[]] s5]; intros [= <- <-].
    + split; [exact Hleaves|]. split; [right; by exists k|discriminate].
    + split; [exact Hleaves|]. split; [by left|discriminate].
  - intros [= <- <-]. split; [exact Hsections|]. split; [by left|done].
Qed.

(** The tree and the lookup table both adapters build. *)
Lemma built_index root_node index_record sections key title leaves s index s' :
  branched (next_index s) (next_node s) sections key title leaves
    (rooted root_node index_record s) = (inr index, s') ->
  DocumentNode.id root_node = "root" ->
  DocumentNode.level root_node = 0%Z ->
  DocumentNode.children root_node = [] ->
  DocumentIndex.nodes_by_id index_record = ∅ ->
  index = next_index s /\
  DocumentIndex.root (indexes (objects s') index) = DocumentIndex.root index_record /\
  DocumentIndex.metadata (indexes (objects s') index) =
    DocumentIndex.metadata index_record /\
  same_but_children (nodes (objects s') (next_node s)) root_node /\
  (forall r, next_node s <= r < next_node s' ->
     children_ok (objects s') (next_node s') r) /\
  (forall r, r < next_node s -> nodes (objects s') r = nodes (objects s) r) /\
  (forall i, i <> next_index s -> indexes (objects s') i = indexes (objects s) i) /\
  (forall r, next_node s <= r < next_node s' ->
     is_Some
       (DocumentIndex.nodes_by_id (indexes (objects s') index)
          !! DocumentNode.id (nodes (objects s') r))) /\
  (forall key r,
     DocumentIndex.nodes_by_id (indexes (objects s') index) !! key = Some r ->
     next_node s <= r < next_node s' /\
     DocumentNode.id (nodes (objects s') r) = key).
Proof.
  intros Hbuilt Hid Hlevel Hleaf Hempty.
  set (s2 := rooted root_node index_record s) in *.
  assert (next_node s2 = S (next_node s)) as Hnext by reflexivity.
  assert (nodes (objects s2) (next_node s) = root_node) as Hroot
    by (cbn; apply update_eq).
  assert (forall r, r < next_node s -> nodes (objects s2) r = nodes (objects s) r)
    as Hold by (intros r Hr; cbn; apply update_ne; lia).
  assert (indexes (objects s2) (next_index s) =
          DocumentIndex.mk (DocumentIndex.document_id index_record)
            (DocumentIndex.metadata index_record) (DocumentIndex.root index_record)
            {[ "root" := next_node s ]}) as Hindex.
  { cbn. rewrite !update_eq. cbn. by rewrite Hempty, insert_empty. }
  assert (forall i, i <> next_index s ->
          indexes (objects s2) i = indexes (objects s) i) as Hothers
    by (intros i Hi; cbn; by rewrite !update_ne).
  assert (next_node s < next_node s2) as Hlt by lia.
  destruct (branched_grows _ _ _ _ _ _ s2 _ _ Hlt Hbuilt) as (Hgrow & _ & _).
  assert (index = next_index s) as -> by (unfold branched in Hbuilt;
    destruct leaves; [destruct (add_leaves _ _ _ _) as [[|] ?]|]; congruence).
  destruct (grown_from_root (next_index s) s s2 s' Hnext Hold
              ltac:(by rewrite Hroot) ltac:(by rewrite Hroot)
              ltac:(by rewrite Hroot) ltac:(by rewrite Hindex) Hgrow)
    as (Htree & Hframe & Hall & Hsound).
  destruct Hgrow as (_ & _ & _ & Hsame & _ & _ & _ & Hidx & (_ & Hmeta & Hrt) & _).
  split; [done|]. split; [by rewrite Hrt, Hindex|]. split; [by rewrite Hmeta, Hindex|].
  split; [by rewrite Hroot in Hsame|].
  split; [exact Htree|]. split; [exact Hframe|].
  split; [|split; [exact Hall|exact Hsound]].
  intros i Hi. rewrite Hidx by done. by apply Hothers.
Qed.

Lemma add_leaves_error index branch items : forall s k s',
  add_leaves index branch items s = (inl (KeyError k), s') ->
  k = "title" \/ k = "content".
Proof.
  induction items as [|[leaf_id leaf] rest IH]; intros s k s'; [discriminate|].
  cbn. destruct (leaf_title leaf) as [title|]; cbn; [|intros [= <- _]; by left].
  destruct (leaf_content leaf) as [content|]; cbn; [|intros [= <- _]; by right].
  apply IH.
Qed.

(** X22: [from_sec_filing] raises [KeyError] for the first of the entries
    [company], [filing_type], [fiscal_year] and [document_id] that the input
    lacks; for the first three nothing has been created by then.  With all
    four present the only keys it can still miss are the [title] and
    [content] of a footnote, and without footnotes it returns the new
    index. *)
Theorem from_sec_filing_key_errors (data : SecFiling.t) (s : Store) :
  (SecFiling.company data = None ->
   from_sec_filing data s = (inl (KeyError "company"), s)) /\
  (is_Some (SecFiling.company data) ->
   SecFiling.filing_type data = None ->
   from_sec_filing data s = (inl (KeyError "filing_type"), s)) /\
  (is_Some (SecFiling.company data) ->
   is_Some (SecFiling.filing_type data) ->
   SecFiling.fiscal_year data = None ->
   from_sec_filing data s = (inl (KeyError "fiscal_year"), s)) /\
  (is_Some (SecFiling.company data) ->
   is_Some (SecFiling.filing_type data) ->
   is_Some (SecFiling.fiscal_year data) ->
   SecFiling.document_id data = None ->
   fst (from_sec_filing data s) = inl (KeyError "document_id")) /\
  (is_Some (SecFiling.company data) ->
   is_Some (SecFiling.filing_type data) ->
   is_Some (SecFiling.fiscal_year data) ->
   is_Some (SecFiling.document_id data) ->
   (forall k,
      fst (from_sec_filing data s) = inl (KeyError k) ->
      k = "title" \/ k = "content") /\
   (SecFiling.footnotes data = None ->
    fst (from_sec_filing data s) = inr (next_index s))).
Proof.
  split; [|split; [|split; [|split]]].
  - intros Hc. unfold from_sec_filing. by rewrite Hc.
  - intros [c Hc] Hf. unfold from_sec_filing. by rewrite Hc, Hf.
  - intros [c Hc] [f Hf] Hy. unfold from_sec_filing. by rewrite Hc, Hf, Hy.
  - intros [c Hc] [f Hf] [y Hy] Hd. unfold from_sec_filing.
    by rewrite Hc, Hf, Hy, Hd.
  - intros [c Hc] [f Hf] [y Hy] [d Hd].
    rewrite (from_sec_filing_unfold data s c f y d Hc Hf Hy Hd).
    unfold branched. destruct (SecFiling.footnotes data) as [notes|].
    + split; [|discriminate]. intros k.
      destruct (add_leaves _ _ notes _) as [[[k']|[]] s5] eqn:Hleaves;
        [|discriminate].
      intros [= <-]. by eapply add_leaves_error.
    + split; [discriminate|reflexivity].
Qed.

Lemma from_sec_filing_key_errors_witness :
  from_sec_filing Filing.undated Filing.store =
  (inl (KeyError "fiscal_year"), Filing.store).
Proof.
  apply (from_sec_filing_key_errors Filing.undated Filing.store);
    [by eexists|by eexists|reflexivity].
Defined.

(** X23: when [from_sec_filing] returns an index, the index is a new one
    whose root is a new node with id ["root"], level 0 and no parent, and
    whose document type is ["SEC Filing"].  Every node created is entered
    consistently: the entries of its [children] name later nodes whose
    [parent] it is, whose [id] is the key and whose [level] is one more.
    [nodes_by_id] has an entry for the id of every node created, and each
    of its entries names a created node with that id.  No node and no index
    that existed before is changed. *)
Theorem from_sec_filing_builds_tree
    (data : SecFiling.t) (s s' : Store) (index : index_ref) :
  from_sec_filing data s = (inr index, s') ->
  index = next_index s /\
  DocumentIndex.root (indexes (objects s') index) = next_node s /\
  DocumentNode.id (nodes (objects s') (next_node s)) = "root" /\
  DocumentNode.level (nodes (objects s') (next_node s)) = 0%Z /\
  DocumentNode.parent (nodes (objects s') (next_node s)) = None /\
  document_type (indexes (objects s') index) = MStr "SEC Filing" /\
  (forall r, next_node s <= r < next_node s' ->
     children_ok (objects s') (next_node s') r) /\
  (forall r, r < next_node s -> nodes (objects s') r = nodes (objects s) r) /\
  (forall i, i <> next_index s -> indexes (objects s') i = indexes (objects s) i) /\
  (forall r, next_node s <= r < next_node s' ->
     is_Some
       (DocumentIndex.nodes_by_id (indexes (objects s') index)
          !! DocumentNode.id (nodes (objects s') r))) /\
  (forall key r,
     DocumentIndex.nodes_by_id (indexes (objects s') index) !! key = Some r ->
     next_node s <= r < next_node s' /\
     DocumentNode.id (nodes (objects s') r) = key).
Proof.
  intros Hbuilt.
  destruct (SecFiling.company data) as [company|] eqn:Hc;
    [|unfold from_sec_filing in Hbuilt; by rewrite Hc in Hbuilt].
  destruct (SecFiling.filing_type data) as [filing_type|] eqn:Hf;
    [|unfold from_sec_filing in Hbuilt; by rewrite Hc, Hf in Hbuilt].
  destruct (SecFiling.fiscal_year data) as [fiscal_year|] eqn:Hy;
    [|unfold from_sec_filing in Hbuilt; by rewrite Hc, Hf, Hy in Hbuilt].
  destruct (SecFiling.document_id data) as [document_id|] eqn:Hd;
    [|unfold from_sec_filing in Hbuilt; by rewrite Hc, Hf, Hy, Hd in Hbuilt].
  rewrite (from_sec_filing_unfold data s _ _ _ _ Hc Hf Hy Hd) in Hbuilt.
  destruct (built_index _ _ _ _ _ _ _ _ _ Hbuilt eq_refl eq_refl eq_refl eq_refl)
    as (Hindex & Hroot & Hmeta & Hsame & Htree & Hframe & Hothers & Hall & Hsound).
  destruct Hsame as (Hid & _ & _ & Hlevel & Hparent).
  repeat (split; [done|]).
  split; [|done].
  unfold document_type. rewrite Hmeta. cbn [DocumentIndex.metadata].
  rewrite !lookup_insert_ne by done. by rewrite lookup_singleton_eq.
Qed.

Lemma from_sec_filing_builds_tree_witness :
  document_type
    (indexes (objects (snd (from_sec_filing Filing.filing Filing.store))) 1) =
  MStr "SEC Filing".
Proof.
  apply (from_sec_filing_builds_tree Filing.filing Filing.store
           (snd (from_sec_filing Filing.filing Filing.store)) 1).
  vm_compute. reflexivity.
Defined.

(** X24: [from_supply_chain_sop] reads every entry of its input with a
    default, so without appendices it always returns the new index.  When it
    returns an index, the root is a new node with id ["root"], level 0, no
    parent and the input's title (["Supply Chain SOP"] when absent); the
    document type is the input's, ["Standard Operating Procedure"] when
    absent; and the tree and [nodes_by_id] are consistent as for
    [from_sec_filing], with no earlier node or index changed. *)
Theorem from_supply_chain_sop_builds_tree (data : SupplyChainSop.t) (s : Store) :
  (SupplyChainSop.appendices data = None ->
   fst (from_supply_chain_sop data s) = inr (next_index s)) /\
  (forall index s',
     from_supply_chain_sop data s = (inr index, s') ->
     index = next_index s /\
     DocumentIndex.root (indexes (objects s') index) = next_node s /\
     DocumentNode.id (nodes (objects s') (next_node s)) = "root" /\
     DocumentNode.title (nodes (objects s') (next_node s)) =
       default "Supply Chain SOP" (SupplyChainSop.title data) /\
     DocumentNode.level (nodes (objects s') (next_node s)) = 0%Z /\
     DocumentNode.parent (nodes (objects s') (next_node s)) = None /\
     document_type (indexes (objects s') index) =
       default (MStr "Standard Operating Procedure")
         (SupplyChainSop.document_type data) /\
     (forall r, next_node s <= r < next_node s' ->
        children_ok (objects s') (next_node s') r) /\
     (forall r, r < next_node s -> nodes (objects s') r = nodes (objects s) r) /\
     (forall i, i <> next_index s ->
        indexes (objects s') i = indexes (objects s) i) /\
     (forall r, next_node s <= r < next_node s' ->
        is_Some
          (DocumentIndex.nodes_by_id (indexes (objects s') index)
             !! DocumentNode.id (nodes (objects s') r))) /\
     (forall key r,
        DocumentIndex.nodes_by_id (indexes (objects s') index) !! key = Some r ->
        next_node s <= r < next_node s' /\
        DocumentNode.id (nodes (objects s') r) = key)).
Proof.
  split.
  - intros Hnone. rewrite from_supply_chain_sop_unfold. unfold branched.
    by rewrite Hnone.
  - intros index s' Hbuilt. rewrite from_supply_chain_sop_unfold in Hbuilt.
    destruct (built_index _ _ _ _ _ _ _ _ _ Hbuilt eq_refl eq_refl eq_refl eq_refl)
      as (Hindex & Hroot & Hmeta & Hsame & Htree & Hframe & Hothers & Hall & Hsound).
    destruct Hsame as (Hid & Htitle & _ & Hlevel & Hparent).
    repeat (split; [done|]).
    split; [|done].
    unfold document_type. rewrite Hmeta. cbn [DocumentIndex.metadata].
    rewrite lookup_insert_ne by done. by rewrite lookup_insert_eq.
Qed.

Lemma from_supply_chain_sop_builds_tree_witness :
  fst (from_supply_chain_sop Filing.sop Filing.store) = inr 1.
Proof.
  apply (proj1 (from_supply_chain_sop_builds_tree Filing.sop Filing.store)).
  reflexivity.
Defined.

Lemma add_leaves_total index branch items : forall s,
  Forall (fun item : string * leaf_data =>
            is_Some (leaf_title (snd item)) /\ is_Some (leaf_content (snd item)))
    items ->
  exists s', add_leaves index branch items s = (inr tt, s').
Proof.
  induction items as [|[leaf_id leaf] rest IH]; intros s Hall.
  - by exists s.
  - apply Forall_cons in Hall as [[[title Htitle] [content Hcontent]] Hrest].
    cbn in Htitle, Hcontent. cbn [add_leaves].
    rewrite Htitle, Hcontent. cbn. by apply IH.
Qed.

(** X25: an input whose [document_type] entry is null or an integer, and
    whose appendices, if it has any, each have a title and a content, gives
    an index; every query on that index with a positive budget raises
    [TypeError] without sending a request. *)
Theorem sop_document_type_none_or_integer
    (json_loads : string -> option pyjson)
    (float_of_str : string -> option spec_float)
    (self : PageIndexNavigator) (data : SupplyChainSop.t) (s : Store)
    (v : meta_value) (query_text : string) (max_steps : Z)
    (log : list interaction) :
  SupplyChainSop.document_type data = Some v ->
  (v = MNone \/ exists z, v = MInt z) ->
  (forall items,
     SupplyChainSop.appendices data = Some items ->
     Forall (fun item : string * leaf_data =>
               is_Some (leaf_title (snd item)) /\
               is_Some (leaf_content (snd item)))
       items) ->
  (0 < max_steps)%Z ->
  exists s',
    from_supply_chain_sop data s = (inr (next_index s), s') /\
    query json_loads float_of_str self (next_index s) query_text max_steps
      {| heap := objects s'; chat_log := log |} =
    (Raise TypeError, {| heap := objects s'; chat_log := log |}).
Proof.
  intros Htype Hv Hleaves Hbudget.
  assert (exists s', from_supply_chain_sop data s = (inr (next_index s), s'))
    as [s' Hbuilt].
  { rewrite from_supply_chain_sop_unfold. unfold branched.
    destruct (SupplyChainSop.appendices data) as [items|]; [|by eexists].
    match goal with
    | |- context [add_leaves ?i ?b items ?t] =>
        destruct (add_leaves_total i b items t (Hleaves items eq_refl))
          as (s' & ->)
    end.
    by eexists. }
  exists s'. split; [exact Hbuilt|].
  rewrite from_supply_chain_sop_unfold in Hbuilt.
  destruct (built_index _ _ _ _ _ _ _ _ _ Hbuilt eq_refl eq_refl eq_refl eq_refl)
    as (_ & _ & Hmeta & _).
  apply query_rejects_document_type; [|done].
  cbn [heap]. unfold document_type. rewrite Hmeta. cbn [DocumentIndex.metadata].
  rewrite lookup_insert_ne by done. rewrite lookup_insert_eq, Htype.
  by destruct Hv as [->|[z ->]].
Qed.

Lemma sop_document_type_none_or_integer_witness :
  exists s',
    from_supply_chain_sop Filing.sop Filing.store = (inr 1, s') /\
    query (Example.table_loads Example.replies) Example.no_float
      (Example.navigator Sample.script) 1 Sample.question 15
      {| heap := objects s'; chat_log := [] |} =
    (Raise TypeError, {| heap := objects s'; chat_log := [] |}).
Proof.
  apply (sop_document_type_none_or_integer (Example.table_loads Example.replies)
           Example.no_float (Example.navigator Sample.script) Filing.sop
           Filing.store MNone Sample.question 15 []);
    [reflexivity|by left|intros items Hsome; discriminate Hsome|lia].
Defined.

Lemma dict_set_fresh {V} (key : string) (v : V) (d : list (string * V)) :
  key ∉ map fst d -> map fst (dict_set key v d) = map fst d ++ [key].
Proof.
  induction d as [|[k x] d IH]; cbn; intros Hfresh; [done|].
  apply not_elem_of_cons in Hfresh as [Hne Hfresh].
  destruct (String.eqb_spec k key) as [->|_]; [done|].
  cbn. by rewrite IH.
Qed.

Lemma add_sections_children index parent lvl (items : list (string * section_data)) :
  forall s,
    parent < next_node s ->
    NoDup (map fst (DocumentNode.children (nodes (objects s) parent))
           ++ map fst items) ->
    map fst
      (DocumentNode.children
         (nodes
            (objects
               (foldl
                  (fun s' sub => _add_section index parent (fst sub) (snd sub) lvl s')
                  s items))
            parent)) =
    map fst (DocumentNode.children (nodes (objects s) parent)) ++ map fst items.
Proof.
  induction items as [|[sub_id sub] rest IH]; intros s Hparent Hdistinct.
  - cbn. by rewrite app_nil_r.
  - cbn [foldl map fst snd] in *.
    destruct (add_section_grows sub index parent sub_id lvl s Hparent)
      as ((Hmono & _) & _ & Hkids & _).
    apply NoDup_app in Hdistinct as (Hold & Hcross & Hnew).
    assert (sub_id ∉ map fst (DocumentNode.children (nodes (objects s) parent)))
      as Hfresh.
    { intros Hin. apply (Hcross _ Hin). left. }
    rewrite IH; [|lia|].
    + rewrite Hkids, dict_set_fresh by done. by rewrite <- app_assoc.
    + rewrite Hkids, dict_set_fresh by done. rewrite <- app_assoc. cbn.
      apply NoDup_app. split; [done|]. split; [|done].
      intros key Hin. by apply Hcross.
Qed.

(** X26: when the ids of the subsections of a section are distinct, the
    keys of the [children] of the node [_add_section] creates for it are
    these ids, in the order of the input. *)
Theorem add_section_keeps_reading_order
    (index : index_ref) (parent : node_ref) (section_id : string)
    (title content : option string) (subsections : list (string * section_data))
    (lvl : Z) (s : Store) :
  parent < next_node s ->
  NoDup (map fst subsections) ->
  map fst
    (DocumentNode.children
       (nodes (objects (_add_section index parent section_id
                          (SectionData title content subsections) lvl s))
          (next_node s))) =
  map fst subsections.
Proof.
  intros Hparent Hdistinct. rewrite add_section_unfold.
  destruct (attached_grows index parent section_id
              (DocumentNode.mk section_id (default section_id title)
                 (default "" content) lvl (Some parent) [])
              lvl s Hparent eq_refl eq_refl eq_refl eq_refl)
    as (_ & Hnext & Hnew & _).
  rewrite add_sections_children.
  - by rewrite Hnew.
  - lia.
  - by rewrite Hnew.
Qed.

Lemma add_section_keeps_reading_order_witness :
  map fst
    (DocumentNode.children
       (nodes (objects (_add_section 0 0 "Item 1A" Filing.risk 1 Filing.store)) 3)) =
  ["1A.1"; "1A.2"].
Proof.
  apply (add_section_keeps_reading_order 0 0 "Item 1A" (Some "Risk Factors") None
           [("1A.1", SectionData None (Some "Supply disruptions may occur.") []);
            ("1A.2", SectionData (Some "Cyber") (Some "Insurance covers breaches.") [])]
           1 Filing.store).
  - cbn. lia.
  - apply (bool_decide_unpack (NoDup (map fst
             [("1A.1", SectionData None (Some "Supply disruptions may occur.") []);
              ("1A.2", SectionData (Some "Cyber")
                         (Some "Insurance covers breaches.") [])]))).
    vm_compute. exact I.
Defined.
